(** * Resolut front-end: roadmap progress, quiz progression, next-lesson
      resolution and topic list handling

    A shallow embedding of the client-side logic of the React components
    [RoadmapView], [LessonView], [Dashboard], [TopicDashboard],
    [LearnTopicFlow] and [SchedulingModal].

    Conventions of the embedding:
    - a JavaScript object used as an ordered map is the list of its own
      properties in the order [Object.keys] enumerates them; module
      [PropertyOrder] derives that order from the order in which the
      properties were created (array indices come first);
    - a lookup that the source makes through the prototype chain on a
      name it does not control is modelled with the members of
      [Object.prototype];
    - where a property depends on what happens while an asynchronous
      handler awaits, the handler is split into its start and its end
      ([DashboardNav]);
    - a value that may be [null] or [undefined] is an [option];
    - a handler that may raise a [TypeError] returns a [completion];
    - a handler that talks to the outside world takes the answers of the
      outside world as arguments and returns the list of effects it
      performed, in order;
    - JavaScript numbers that are not integers are IEEE 754 binary64
      values, that is Rocq's primitive floats. *)

From Stdlib Require Import List String Ascii Bool Arith ZArith QArith Qround Qpower
  Lia Lqa.
From Stdlib Require Import Floats Permutation.
From Equations Require Import Equations.
Import ListNotations.

Close Scope Q_scope.
Open Scope nat_scope.
Set Implicit Arguments.

(* ===================================================================== *)
(** * Part I: the embedding                                               *)
(* ===================================================================== *)

(** ** JavaScript values and built-ins used by the components *)

Module JS.

(** Abrupt completion of a synchronous piece of code. *)
Inductive JSError : Type :=
| TypeError (msg : string).

Inductive completion (A : Type) : Type :=
| Normal (a : A)
| Throw (e : JSError).
Arguments Normal {A} a.
Arguments Throw {A} e.

Definition bind {A B} (c : completion A) (k : A -> completion B) : completion B :=
  match c with
  | Normal a => k a
  | Throw e => Throw e
  end.

Notation "x <- c ;; k" := (bind c (fun x => k))
  (at level 61, c at next level, right associativity).

(** An object used as a map from string keys: its own enumerable
    properties, in enumeration order. *)
Definition Obj (V : Type) : Type := list (string * V).

Definition Object_keys {V} (o : Obj V) : list string := map fst o.
Definition Object_values {V} (o : Obj V) : list V := map snd o.

(** [o[k]]: the value of the first property named [k], [undefined]
    (here [None]) when there is none. *)
Fixpoint get {V} (o : Obj V) (k : string) : option V :=
  match o with
  | [] => None
  | (k', v) :: o' => if String.eqb k' k then Some v else get o' k
  end.

(** Property names of a JavaScript object are pairwise distinct. *)
Definition wf_obj {V} (o : Obj V) : Prop := NoDup (Object_keys o).

(** [Object.keys(x)] where [x] may be [undefined]: a [TypeError] then. *)
Definition Object_keys_of {V} (x : option (Obj V)) : completion (list string) :=
  match x with
  | Some o => Normal (Object_keys o)
  | None => Throw (TypeError "Cannot convert undefined or null to object")
  end.

(** [a === b] on values that are a string or [undefined]/[null]. *)
Definition strict_eq (a b : option string) : bool :=
  match a, b with
  | Some x, Some y => String.eqb x y
  | None, None => true
  | _, _ => false
  end.

(** [xs.includes(x)] on an array of strings. *)
Definition includes (xs : list string) (x : string) : bool :=
  existsb (String.eqb x) xs.

(** [xs.indexOf(x)]: the first index holding [x], [-1] when absent. *)
Fixpoint indexOf (xs : list string) (x : string) : Z :=
  match xs with
  | [] => (-1)%Z
  | y :: ys =>
      if String.eqb y x then 0%Z
      else let i := indexOf ys x in
           if (i =? -1)%Z then (-1)%Z else (i + 1)%Z
  end.

(** [xs[i]] for a number [i]: [undefined] outside the array. *)
Definition at_index {A} (xs : list A) (i : Z) : option A :=
  if (i <? 0)%Z then None else nth_error xs (Z.to_nat i).

(** [xs.length] as a number. *)
Definition len {A} (xs : list A) : Z := Z.of_nat (List.length xs).

(** [s.includes(sub)] on strings. *)
Fixpoint str_includes (s sub : string) : bool :=
  String.prefix sub s ||
  match s with
  | EmptyString => false
  | String _ s' => str_includes s' sub
  end.

(** *** Numbers

    An array length, and a sum of array lengths, is an integer below
    2^53, which binary64 holds exactly, so counts are natural numbers
    until they are divided. The quotient of two counts is a binary64
    value. *)
Definition Number (n : nat) : float :=
  PrimFloat.of_uint63 (Uint63.of_Z (Z.of_nat n)).

(** [Math.max(a, b)] on two array lengths (exact on integers). *)
Definition Math_max (a b : nat) : nat := Nat.max a b.

(** The rational a finite binary64 value denotes; [None] for NaN and the
    infinities. *)
Definition float_value (x : float) : option Q :=
  match Prim2SF x with
  | S754_zero _ => Some 0%Q
  | S754_finite s m e =>
      let q := (inject_Z (Z.pos m) * Qpower 2 e)%Q in
      Some (if s then Qopp q else q)
  | S754_infinity _ => None
  | S754_nan => None
  end.

(** [Math.round(x)]: the integer closest to [x], a tie going to the larger
    one; [None] stands for the results NaN and the infinities. *)
Definition Math_round (x : float) : option Z :=
  option_map (fun q => Qfloor (q + (1 # 2))) (float_value x).

(** *** Requests

    How an awaited request settles. A rejection carries the fields of the
    axios error the handlers read: [err.code], [err.message] and
    [err.response?.status]. *)
Record AxiosError : Type := mkAxiosError {
  code : option string;
  message : option string;
  response_status : option Z
}.

Inductive Settled (A : Type) : Type :=
| Fulfilled (a : A)
| Rejected (err : AxiosError).
Arguments Fulfilled {A} a.
Arguments Rejected {A} err.

(** A value spliced into a string: [undefined] prints as such. *)
Definition to_display (x : option string) : string :=
  match x with
  | Some s => s
  | None => "undefined"
  end.

End JS.

(** ** Binary64: vocabulary for the rounding of an operation *)

Module Binary64.

(** The record [rec] of a right shift (integer part, round bit, sticky
    bit) describes the quotient [P / D]: its integer part, whether the
    rest reaches one half, and whether the rest is neither zero nor one
    half. *)
Definition truncates (rec : shr_record) (P D : Z) : Prop :=
  (0 < D /\ 0 <= P /\
   shr_m rec = P / D /\
   shr_r rec = (D <=? 2 * (P mod D)) /\
   shr_s rec = negb ((P mod D =? 0) || (2 * (P mod D) =? D)))%Z.

(** The number a positive finite binary64 value with mantissa [m] and
    exponent [e] denotes, as [JS.float_value] gives it. *)
Definition finite_value (m : positive) (e : Z) : Q :=
  (inject_Z (Zpos m) * 2 ^ e)%Q.

(** Half the distance between neighbouring values, relative to them:
    [2^-53]. *)
Definition unit_roundoff : Q := 1 # 9007199254740992.

End Binary64.

(** ** RoadmapView: unlock and completion status, overall percentage *)

Module RoadmapView.
Import JS.
Local Open Scope string_scope.

(** chapter title -> (lesson title -> lesson description) *)
Definition Lessons : Type := Obj string.
Definition Roadmap : Type := Obj Lessons.

(** The body of [GET /api/lessons/progress/:topic]. Every field may be
    missing. *)
Record ProgressRecord : Type := mkProgress {
  completed_lessons : option (list string);
  current_chapter : option string;
  current_lesson : option string;
  status : option string
}.

(** The template literal [`${chapter}: ${lesson}`]. *)
Definition lesson_id (chapter lesson : string) : string :=
  chapter ++ ": " ++ lesson.

(** [isLessonCompleted], with the component state [progress] it closes
    over as first argument. *)
Definition isLessonCompleted (progress : option ProgressRecord)
    (chapter lesson : string) : bool :=
  match progress with
  | None => false
  | Some p =>
      match completed_lessons p with
      | None => false
      | Some done =>
          let id := lesson_id chapter lesson in
          includes done id
      end
  end.

(** The test of step 2 of [isLessonUnlocked]. *)
Definition is_current_target (progress : option ProgressRecord)
    (chapter lesson : string) : bool :=
  match progress with
  | None => false
  | Some p =>
      strict_eq (current_chapter p) (Some chapter) &&
      strict_eq (current_lesson p) (Some lesson)
  end.

(** [isLessonUnlocked], with the component states [roadmap] and [progress]
    it closes over as first arguments. *)
Definition isLessonUnlocked (roadmap : option Roadmap)
    (progress : option ProgressRecord) (chapter lesson : string)
    : completion bool :=
  (* 1. If completed, it's unlocked *)
  if isLessonCompleted progress chapter lesson then Normal true
  (* 2. the exact current target *)
  else if is_current_target progress chapter lesson then Normal true
  else
    (* 3. fallback for a new topic *)
    match progress, roadmap with
    | Some p, Some r =>
        if strict_eq (status p) (Some "not_started") then
          let firstChapter := hd_error (Object_keys r) in
          if strict_eq (Some chapter) firstChapter then
            keys <- Object_keys_of
                      (match firstChapter with
                       | Some k => get r k
                       | None => None
                       end) ;;
            let firstLesson := hd_error keys in
            Normal (strict_eq (Some lesson) firstLesson)
          else Normal false
        else Normal false
    | _, _ => Normal false
    end.

(** [totalLessons]: the [reduce] over [Object.values(roadmap)]. *)
Definition totalLessons (roadmap : Roadmap) : nat :=
  fold_left (fun acc curr => acc + List.length (Object_keys curr))
            (Object_values roadmap) 0.

(** [completedCount = progress?.completed_lessons?.length || 0]. *)
Definition completedCount (progress : option ProgressRecord) : nat :=
  match progress with
  | None => 0
  | Some p =>
      match completed_lessons p with
      | None => 0
      | Some done => List.length done
      end
  end.

(** The quotient handed to [Math.round]. *)
Definition progressRatio (roadmap : Roadmap)
    (progress : option ProgressRecord) : float :=
  ((Number (completedCount progress)
    / Number (Math_max 1 (totalLessons roadmap))) * 100)%float.

(** [progressPercent]. It is computed after the early return for a missing
    or chapterless roadmap, so [roadmap] is an object here. *)
Definition progressPercent (roadmap : Roadmap)
    (progress : option ProgressRecord) : option Z :=
  Math_round (progressRatio roadmap progress).

(** *** Vocabulary of the specification *)

(** The pair the progress record designates as current. *)
Definition is_current (p : ProgressRecord) (chapter lesson : string) : Prop :=
  current_chapter p = Some chapter /\ current_lesson p = Some lesson.

(** The first lesson of the first chapter, when the first chapter has one. *)
Definition first_lesson (r : Roadmap) : option (string * string) :=
  match r with
  | (c, (l, _) :: _) :: _ => Some (c, l)
  | _ => None
  end.

(** The bootstrap test on the first chapter and its first lesson. *)
Definition is_first (r : Roadmap) (c l : string) : bool :=
  match first_lesson r with
  | Some (c0, l0) => String.eqb c c0 && String.eqb l l0
  | None => false
  end.

(** Nothing has been recorded: no completed identifier, no current pair. *)
Definition progress_is_empty (p : ProgressRecord) : Prop :=
  completedCount (Some p) = 0 /\
  current_chapter p = None /\ current_lesson p = None.

(** Chapter titles are distinct, and so are the lesson titles of each
    chapter: the roadmap is a JavaScript object of JavaScript objects. *)
Definition wf_roadmap (r : Roadmap) : Prop :=
  wf_obj r /\ forall c ls, In (c, ls) r -> wf_obj ls.

(** [(chapter, lesson)] is a lesson of the roadmap. *)
Definition lesson_in (r : Roadmap) (chapter lesson : string) : Prop :=
  exists ls, get r chapter = Some ls /\ In lesson (Object_keys ls).

(** The current pair of the record names no lesson of the roadmap. *)
Definition stale (r : Roadmap) (p : ProgressRecord) : Prop :=
  forall cc cl, is_current p cc cl -> ~ lesson_in r cc cl.

(** The unlock rule for a non-completed lesson in the words of the
    specification: the bootstrap case requires the status [not_started]
    and that no progress exists. *)
Definition unlock_rule_as_stated (r : Roadmap) (p : ProgressRecord)
    (chapter lesson : string) : Prop :=
  isLessonCompleted (Some p) chapter lesson = false ->
  (isLessonUnlocked (Some r) (Some p) chapter lesson = Normal true <->
   is_current p chapter lesson \/
   (status p = Some "not_started" /\ progress_is_empty p /\
    first_lesson r = Some (chapter, lesson))).

(** Total number of lessons, chapter by chapter. *)
Definition lesson_count (r : Roadmap) : nat :=
  list_sum (map (fun ch => List.length (snd ch)) r).

(** The completed lesson identifiers a progress record holds: none when
    the record or its list is missing. *)
Definition completed_identifiers (progress : option ProgressRecord)
    : list string :=
  match progress with
  | Some p =>
      match completed_lessons p with
      | Some done => done
      | None => []
      end
  | None => []
  end.

(** [n] is an integer nearest to [q]. *)
Definition nearest_integer (n : Z) (q : Q) : Prop :=
  (inject_Z n - (1 # 2) <= q /\ q <= inject_Z n + (1 # 2))%Q.

(** The zero-total case in the words of the specification. *)
Definition zero_total_gives_zero (r : Roadmap) (p : ProgressRecord) : Prop :=
  lesson_count r = 0 -> progressPercent r (Some p) = Some 0%Z.

(** Example data. *)
Definition three_lessons : Roadmap :=
  [("A", [("L1", "first"); ("L2", "second"); ("L3", "third")])].

Definition not_started_with_progress : ProgressRecord :=
  mkProgress (Some ["A: L2"]) (Some "A") (Some "L3") (Some "not_started").

Definition fresh_progress : ProgressRecord :=
  mkProgress (Some []) None None (Some "not_started").

Definition stale_progress : ProgressRecord :=
  mkProgress (Some []) (Some "Gone") (Some "L9") (Some "in_progress").

Definition chapter_without_lessons : Roadmap := [("A", [])].

Definition one_completed : ProgressRecord :=
  mkProgress (Some ["A: L1"]) (Some "A") (Some "L1") (Some "in_progress").

End RoadmapView.


(** ** LessonView: the quiz of a lesson *)

Module LessonView.
Import JS.
Local Open Scope string_scope.

Record Question : Type := mkQuestion {
  question : string;
  options : list string;
  correct_option_index : Z;
  explanation : string
}.

(** The body of [POST /api/lessons/start]. *)
Record LessonContent : Type := mkContent {
  lesson_title : string;
  content_markdown : string;
  questions : list Question
}.

(** Modes: 'reading' | 'quiz' | 'completed' *)
Inductive Mode : Type := reading | quiz | completed.

(** The [useState] cells of the component that the quiz handlers touch. *)
Record State : Type := mkState {
  mode : Mode;
  currentQuestionIdx : nat;
  selectedOption : option Z;
  isAnswered : bool;
  isCorrect : bool
}.

Definition initial : State := mkState reading 0 None false false.

(** The button of the reading view: [setMode('quiz')]. *)
Definition startQuiz (s : State) : State :=
  mkState quiz (currentQuestionIdx s) (selectedOption s) (isAnswered s)
          (isCorrect s).

Definition handleOptionSelect (idx : Z) (s : State) : State :=
  if isAnswered s then s
  else mkState (mode s) (currentQuestionIdx s) (Some idx) (isAnswered s)
               (isCorrect s).

Definition handleSubmitAnswer (content : LessonContent) (s : State)
    : completion State :=
  match selectedOption s with
  | None => Normal s
  | Some sel =>
      match nth_error (questions content) (currentQuestionIdx s) with
      | None =>
          Throw (TypeError "Cannot read properties of undefined (reading 'correct_option_index')")
      | Some q =>
          let correct := (sel =? correct_option_index q)%Z in
          Normal (mkState (mode s) (currentQuestionIdx s) (selectedOption s)
                          true correct)
      end
  end.

Definition handleNextQuestion (content : LessonContent) (s : State) : State :=
  if (Z.of_nat (currentQuestionIdx s) <? len (questions content) - 1)%Z then
    mkState (mode s) (currentQuestionIdx s + 1) None false false
  else
    (* Quiz Finished *)
    mkState completed (currentQuestionIdx s) (selectedOption s)
            (isAnswered s) (isCorrect s).

(** What the user can do in the lesson view, and the handler each action
    runs. *)
Inductive Event : Type :=
| StartQuiz
| Select (idx : Z)
| Submit
| Next.

Definition step (content : LessonContent) (s : State) (e : Event)
    : completion State :=
  match e with
  | StartQuiz => Normal (startQuiz s)
  | Select idx => Normal (handleOptionSelect idx s)
  | Submit => handleSubmitAnswer content s
  | Next => Normal (handleNextQuestion content s)
  end.

Fixpoint run (content : LessonContent) (s : State) (es : list Event)
    : completion State :=
  match es with
  | [] => Normal s
  | e :: es' => s' <- step content s e ;; run content s' es'
  end.

(** The per-question state of an unanswered question. *)
Definition unanswered (s : State) : Prop :=
  selectedOption s = None /\ isAnswered s = false /\ isCorrect s = false.

(** Example data. *)
Definition two_questions : LessonContent :=
  mkContent "Sets" "# Sets"
    [mkQuestion "q1" ["a"; "b"; "c"] 1 "because";
     mkQuestion "q2" ["x"; "y"] 0 "since"].

Definition first_answered : State := mkState quiz 0 (Some 1%Z) true true.
Definition last_answered : State := mkState quiz 1 (Some 1%Z) true false.

End LessonView.

(** ** Property order: creation and enumeration *)

Module PropertyOrder.
Import JS.
Local Open Scope string_scope.

(** The value of a decimal digit. *)
Definition digit (a : ascii) : option N :=
  let n := N_of_ascii a in
  if ((48 <=? n) && (n <=? 57))%N then Some (n - 48)%N else None.

Fixpoint decimal (s : string) (acc : N) : option N :=
  match s with
  | EmptyString => Some acc
  | String a s' =>
      match digit a with
      | Some d => decimal s' (10 * acc + d)%N
      | None => None
      end
  end.

(** A property name that is an array index: the canonical numeral (no
    sign, no leading zero) of an integer from 0 to 2^32 - 2. *)
Definition array_index (k : string) : option N :=
  match k with
  | EmptyString => None
  | String a rest =>
      if Ascii.eqb a "0" && negb (String.eqb rest "") then None
      else
        match decimal k 0 with
        | Some n => if (n <=? 4294967294)%N then Some n else None
        | None => None
        end
  end.

(** The properties of an object are given here in the order they were
    created, as [JSON.parse] creates them in the order of the text.
    [Object.keys] does not follow that order when a name is an array
    index: it lists the array indices first, in ascending numeric order,
    and then the other names in the order of creation. *)
Fixpoint place {V} (n : N) (kv : string * V)
    (sorted : list (N * (string * V))) : list (N * (string * V)) :=
  match sorted with
  | [] => [(n, kv)]
  | (m, kv') :: rest =>
      if (n <? m)%N then (n, kv) :: sorted else (m, kv') :: place n kv rest
  end.

Fixpoint indexed {V} (created : list (string * V))
    : list (N * (string * V)) :=
  match created with
  | [] => []
  | kv :: rest =>
      match array_index (fst kv) with
      | Some n => place n kv (indexed rest)
      | None => indexed rest
      end
  end.

Definition named {V} (created : list (string * V)) : list (string * V) :=
  filter (fun kv => match array_index (fst kv) with
                    | Some _ => false
                    | None => true
                    end) created.

Definition enumerated {V} (created : list (string * V)) : Obj V :=
  (map snd (indexed created) ++ named created)%list.

(** A roadmap by the order its chapters, and the lessons of each chapter,
    were created in. *)
Definition Created : Type := list (string * list (string * string)).

(** The roadmap object the component works with. *)
Definition received (created : Created) : RoadmapView.Roadmap :=
  enumerated (map (fun ch => (fst ch, enumerated (snd ch))) created).

(** No chapter title and no lesson title is an array index. *)
Definition plain_titles (created : Created) : Prop :=
  forall c ls, In (c, ls) created ->
    array_index c = None /\
    forall l, In l (map fst ls) -> array_index l = None.

End PropertyOrder.

(** ** Dashboard: completing a lesson *)

Module Dashboard.
Import JS.
Local Open Scope string_scope.

(** The [currentLesson] state set by [handleStartLesson]. *)
Record CurrentLesson : Type := mkCurrentLesson {
  topic : option string;
  chapter : string;
  lesson : string
}.

(** Views: 'dashboard' | 'create' | 'roadmap' | 'lesson' *)
Inductive View : Type := dashboard | create | roadmap | lessonView.

Record State : Type := mkState {
  view : View;
  activeTopic : option string;
  currentLesson : option CurrentLesson
}.

(** The body of [POST /api/lessons/complete]. *)
Record CompletePayload : Type := mkPayload {
  p_topic : option string;
  current_chapter : string;
  current_lesson : string;
  next_chapter : option string;
  next_lesson : option string
}.

Inductive Effect : Type :=
| GetRoadmap (topic : option string)
| PostComplete (payload : CompletePayload)
| ConsoleError
| Alert (msg : string).

Definition handleBackToRoadmap (s : State) : State :=
  mkState roadmap (activeTopic s) None.

(** The block of [handleLessonComplete] that finds the current position in
    the fetched roadmap and sets [nextChapter] and [nextLessonTitle]; the
    result is the pair of the two variables. *)
Definition resolveNext (roadmapResult : RoadmapView.Roadmap)
    (cur : CurrentLesson) : completion (option string * option string) :=
  let nextChapter := Some (chapter cur) in
  let nextLessonTitle := Some (lesson cur) in
  (* Find current position *)
  let chapters := Object_keys roadmapResult in
  let currentChapIdx := indexOf chapters (chapter cur) in
  if negb (currentChapIdx =? -1)%Z then
    lessons <- Object_keys_of (get roadmapResult (chapter cur)) ;;
    let currentLessonIdx := indexOf lessons (lesson cur) in
    if (currentLessonIdx <? len lessons - 1)%Z then
      (* Next lesson in same chapter *)
      Normal (nextChapter, at_index lessons (currentLessonIdx + 1))
    else if (currentChapIdx <? len chapters - 1)%Z then
      (* Next chapter *)
      let nextChapter := at_index chapters (currentChapIdx + 1) in
      nextChapLessons <- Object_keys_of
                           (match nextChapter with
                            | Some k => get roadmapResult k
                            | None => None
                            end) ;;
      Normal (nextChapter, at_index nextChapLessons 0)
    else
      (* just keep at last lesson *)
      Normal (nextChapter, nextLessonTitle)
  else Normal (nextChapter, nextLessonTitle).

(** The payload built from the resolved position. *)
Definition completePayload (s : State) (cur : CurrentLesson)
    (next : option string * option string) : CompletePayload :=
  mkPayload (activeTopic s) (chapter cur) (lesson cur) (fst next) (snd next).

(** [handleLessonComplete]. [roadmapRes] is how the roadmap request
    settles ([data.roadmap] may be missing) and [postRes] how the
    completion request does. Anything thrown inside the [try] ends in the
    [catch]: an error on the console and an alert. *)
Definition handleLessonComplete (s : State)
    (roadmapRes : Settled (option RoadmapView.Roadmap))
    (postRes : Settled unit) : State * list Effect :=
  match currentLesson s with
  | None => (s, [])
  | Some cur =>
      let failed := [ConsoleError;
                     Alert "Failed to save progress. Please try again."] in
      match roadmapRes with
      | Rejected _ => (s, GetRoadmap (activeTopic s) :: failed)
      | Fulfilled None => (s, GetRoadmap (activeTopic s) :: failed)
      | Fulfilled (Some roadmapResult) =>
          match resolveNext roadmapResult cur with
          | Throw _ => (s, GetRoadmap (activeTopic s) :: failed)
          | Normal next =>
              let payload := completePayload s cur next in
              match postRes with
              | Rejected _ =>
                  (s, GetRoadmap (activeTopic s) :: PostComplete payload
                        :: failed)
              | Fulfilled _ =>
                  (* Return to roadmap *)
                  (handleBackToRoadmap s,
                   [GetRoadmap (activeTopic s); PostComplete payload])
              end
          end
      end
  end.

(** *** Vocabulary of the specification *)

(** [c] is the chapter at the front of [post], [l] the lesson at the front
    of [lpost]: the roadmap read as "chapters before, this chapter with
    lessons before / this lesson / lessons after, chapters after". *)
Definition located (r : RoadmapView.Roadmap) (c l : string)
    (pre : RoadmapView.Roadmap) (lpre : RoadmapView.Lessons) (d : string)
    (lpost : RoadmapView.Lessons) (post : RoadmapView.Roadmap) : Prop :=
  r = (pre ++ (c, (lpre ++ (l, d) :: lpost)%list) :: post)%list.

(** Where the specification sends the resolution from a lesson followed
    by the lessons [lpost] in its chapter, the chapter being followed by
    the chapters [post]. *)
Definition next_after (c l : string) (lpost : RoadmapView.Lessons)
    (post : RoadmapView.Roadmap) : option string * option string :=
  match lpost with
  | (l', _) :: _ => (Some c, Some l')
  | [] =>
      match post with
      | (c', ls') :: _ => (Some c', hd_error (Object_keys ls'))
      | [] => (Some c, Some l)
      end
  end.

(** The resolution rule in the words of the specification, where "next"
    and "first" go by the order of creation: wherever [(c, l)] stands in
    the roadmap as created, the resolution on the roadmap received gives
    what comes after it there. *)
Definition follows_creation_order (created : PropertyOrder.Created)
    (c l : string) : Prop :=
  forall pre lpre d lpost post,
    located created c l pre lpre d lpost post ->
    resolveNext (PropertyOrder.received created) (mkCurrentLesson None c l)
    = Normal (next_after c l lpost post).

(** Example data: A:[L1,L2], B:[L3]. *)
Definition two_chapters : RoadmapView.Roadmap :=
  [("A", [("L1", "one"); ("L2", "two")]); ("B", [("L3", "three")])].

(** A chapter whose lessons are numbered, created as "2" then "1". *)
Definition numbered_lessons : PropertyOrder.Created :=
  [("A", [("2", "two"); ("1", "one")]); ("B", [("L3", "three")])].

(** A lesson whose chapter is not in [two_chapters]. *)
Definition stale_lesson_state : State :=
  mkState lessonView (Some "Logic")
          (Some (mkCurrentLesson (Some "Logic") "Z" "L9")).

End Dashboard.

(** ** TopicDashboard: loading and deleting topics *)

Module TopicDashboard.
Import JS.
Local Open Scope string_scope.

(** The two texts [setError] is called with. *)
Inductive ErrorMessage : Type :=
| BackendNotRunning   (* 'Backend not running. ... then click Retry.' *)
| FailedToLoad.       (* 'Failed to load topics. ...' *)

Record State : Type := mkState {
  topics : list string;
  loading : bool;
  error : option ErrorMessage;
  searchTerm : string;
  deleteLoading : option string
}.

(** The initial values of the [useState] cells. *)
Definition initial : State := mkState [] true None "" None.

Definition setTopics (v : list string) (s : State) : State :=
  mkState v (loading s) (error s) (searchTerm s) (deleteLoading s).
Definition setLoading (v : bool) (s : State) : State :=
  mkState (topics s) v (error s) (searchTerm s) (deleteLoading s).
Definition setError (v : option ErrorMessage) (s : State) : State :=
  mkState (topics s) (loading s) v (searchTerm s) (deleteLoading s).
Definition setDeleteLoading (v : option string) (s : State) : State :=
  mkState (topics s) (loading s) (error s) (searchTerm s) v.

Inductive Effect : Type :=
| GetTopics                                   (* axios.get(.../api/topics) *)
| ConsoleLog (attempt : nat)                  (* retrying... (attempt/5) *)
| SetTimeout (delay_ms : Z) (retryCount : nat)
| ConsoleError
| StopPropagation
| Confirm (topic : string)                    (* window.confirm(...) *)
| DeleteTopic (topic : string)                (* axios.delete(.../api/topics/topic) *)
| Alert (msg : string).

Definition isBackendDown (err : AxiosError) : bool :=
  strict_eq (code err) (Some "ERR_NETWORK")
  || match message err with
     | Some m => str_includes m "Network Error"
     | None => false
     end
  || match response_status err with
     | Some st => negb (st =? 0)%Z && existsb (Z.eqb st) [500; 502; 503]%Z
     | None => false
     end.

(** The [finally] block of [fetchTopics]. [loading] there is the value the
    render that created this [fetchTopics] saw, not the current state. *)
Definition fetchTopics_finally (closure_loading : bool) (retryCount : nat)
    (s : State) : State :=
  if (retryCount =? 0)%nat || negb closure_loading then setLoading false s else s.

(** The two state updates [fetchTopics] starts with. *)
Definition fetchTopics_begin (s : State) : State :=
  setError None (setLoading true s).

Definition after (effects : list Effect) (r : State * list Effect)
    : State * list Effect :=
  (fst r, (effects ++ snd r)%list).

(** [fetchTopics(retryCount)] together with the calls it schedules through
    [setTimeout]. [answers k] is how the request of the call with
    [retryCount = k] settles; a fulfilled request carries
    [response.data?.topics] when that is an array. The result is the state
    after the last call of the chain and everything the chain did. *)
Equations? fetchTopics (answers : nat -> Settled (option (list string)))
    (closure_loading : bool) (retryCount : nat) (s : State)
    : State * list Effect by wf (5 - retryCount) lt :=
  fetchTopics answers closure_loading retryCount s
    with answers retryCount := {
    | Fulfilled data =>
        let s1 := setTopics (match data with Some l => l | None => [] end)
                            (fetchTopics_begin s) in
        (fetchTopics_finally closure_loading retryCount (setError None s1),
         [GetTopics]);
    | Rejected err with isBackendDown err, lt_dec retryCount 5 := {
        (* Auto-retry if backend seems down during startup (up to 5 times) *)
        | true, left h =>
            after [GetTopics; ConsoleLog (retryCount + 1);
                   SetTimeout 2000 (retryCount + 1)]
                  (fetchTopics answers closure_loading (retryCount + 1)
                     (fetchTopics_finally closure_loading retryCount
                        (fetchTopics_begin s)));
        | down, _ =>
            let s1 := setError (Some (if down then BackendNotRunning
                                      else FailedToLoad))
                               (fetchTopics_begin s) in
            (fetchTopics_finally closure_loading retryCount (setTopics [] s1),
             [GetTopics; ConsoleError]) } }.
Proof. change (5 - (retryCount + 1) < 5 - retryCount). lia. Qed.

(** The mount effect: [useEffect(() => { fetchTopics(); }, [])]. The
    function is the one of the first render, where [loading] is [true]. *)
Definition mount (answers : nat -> Settled (option (list string)))
    : State * list Effect :=
  fetchTopics answers (loading initial) 0 initial.

(** What the component renders: the spinner comes before everything else,
    the error banner (with its Retry button) is part of the page. *)
Inductive Screen : Type :=
| LoadingSpinner
| Page (banner : option ErrorMessage).

Definition render (s : State) : Screen :=
  if loading s && (len (topics s) =? 0)%Z then LoadingSpinner
  else Page (error s).

(** [handleDelete(topic, e)]. [confirmed] is the answer of
    [window.confirm], [deleteRes] how the delete request settles. *)
Definition handleDelete (topic : string) (confirmed : bool)
    (deleteRes : Settled unit) (s : State) : State * list Effect :=
  if negb confirmed then (s, [StopPropagation; Confirm topic])
  else
    let s1 := setDeleteLoading (Some topic) s in
    match deleteRes with
    | Fulfilled _ =>
        let s2 := setTopics
                    (filter (fun t => negb (String.eqb t topic)) (topics s))
                    s1 in
        (setDeleteLoading None s2,
         [StopPropagation; Confirm topic; DeleteTopic topic])
    | Rejected err =>
        (setDeleteLoading None s1,
         [StopPropagation; Confirm topic; DeleteTopic topic;
          Alert ("Failed to delete topic: " ++ to_display (message err))])
    end.

(** *** Vocabulary of the specification *)

Definition is_request (e : Effect) : bool :=
  match e with
  | GetTopics => true
  | _ => false
  end.

Definition requests (effects : list Effect) : nat :=
  List.length (filter is_request effects).

Definition is_timeout (e : Effect) : bool :=
  match e with
  | SetTimeout _ _ => true
  | _ => false
  end.

Definition retries (effects : list Effect) : nat :=
  List.length (filter is_timeout effects).

(** The delays of the timers set, in order. *)
Definition timeout_delays (effects : list Effect) : list Z :=
  flat_map (fun e => match e with
                     | SetTimeout d _ => [d]
                     | _ => []
                     end) effects.

(** The number of consecutive requests, from the call with
    [retryCount = k] on and at most [n] of them, that are rejected with
    the backend down. *)
Fixpoint downs (answers : nat -> Settled (option (list string)))
    (k n : nat) : nat :=
  match n with
  | 0 => 0
  | S n' =>
      match answers k with
      | Rejected err =>
          if isBackendDown err then S (downs answers (S k) n') else 0
      | Fulfilled _ => 0
      end
  end.

Definition is_delete (e : Effect) : bool :=
  match e with
  | DeleteTopic _ => true
  | _ => false
  end.

(** Example data: the backend is not reachable. *)
Definition network_error : AxiosError :=
  mkAxiosError (Some "ERR_NETWORK") (Some "Network Error") None.

Definition backend_down (k : nat) : Settled (option (list string)) :=
  Rejected network_error.

Definition two_topics : State := mkState ["a"; "b"] false None "" None.

End TopicDashboard.


(** ** More built-ins *)

Module JSObject.
Import JS.
Local Open Scope string_scope.

(** [{...o, [k]: v}]: an existing property keeps its place, a new one goes
    last. *)
Fixpoint set_prop {V} (o : Obj V) (k : string) (v : V) : Obj V :=
  match o with
  | [] => [(k, v)]
  | (k', v') :: o' =>
      if String.eqb k' k then (k, v) :: o'
      else (k', v') :: set_prop o' k v
  end.

(** A string or [undefined] in a condition: only a non-empty string
    counts as true. *)
Definition truthy_string (x : option string) : bool :=
  match x with
  | Some s => negb (String.eqb s "")
  | None => false
  end.

(** A boolean or [undefined] in a condition. *)
Definition truthy_bool (x : option bool) : bool :=
  match x with
  | Some b => b
  | None => false
  end.

(** [a || b] on values that are a string or [undefined]. *)
Definition or_else (a b : option string) : option string :=
  if truthy_string a then a else b.

(** The members every object literal inherits from [Object.prototype]:
    eleven functions and the accessor [__proto__]. Read through an object
    that has no property of that name, each gives a function or the
    prototype itself, so it counts as true in a condition. *)
Definition Object_prototype : list string :=
  ["constructor"; "__defineGetter__"; "__defineSetter__"; "hasOwnProperty";
   "__lookupGetter__"; "__lookupSetter__"; "isPrototypeOf";
   "propertyIsEnumerable"; "toString"; "valueOf"; "__proto__";
   "toLocaleString"].

(** [o[k]] in a condition, for an object literal whose own properties
    hold booleans: an own property counts by its value, an inherited
    member as true, and anything else is [undefined]. *)
Definition truthy_at (o : Obj bool) (k : string) : bool :=
  match get o k with
  | Some b => b
  | None => includes Object_prototype k
  end.

End JSObject.

(** ** RoadmapView: loading, expanding chapters, chapter progress *)

Module RoadmapViewLoad.
Import JS JSObject RoadmapView.
Local Open Scope string_scope.

Record State : Type := mkState {
  roadmap : option Roadmap;
  progress : option ProgressRecord;
  loading : bool;
  error : option string;
  expandedChapters : Obj bool
}.

Definition initial : State := mkState None None true None [].

Definition setRoadmap (v : option Roadmap) (s : State) : State :=
  mkState v (progress s) (loading s) (error s) (expandedChapters s).
Definition setProgress (v : option ProgressRecord) (s : State) : State :=
  mkState (roadmap s) v (loading s) (error s) (expandedChapters s).
Definition setLoading (v : bool) (s : State) : State :=
  mkState (roadmap s) (progress s) v (error s) (expandedChapters s).
Definition setError (v : option string) (s : State) : State :=
  mkState (roadmap s) (progress s) (loading s) v (expandedChapters s).
Definition setExpandedChapters (v : Obj bool) (s : State) : State :=
  mkState (roadmap s) (progress s) (loading s) (error s) v.

Inductive Effect : Type :=
| GetRoadmap          (* axios.get(.../api/roadmaps/topic) *)
| GetProgress         (* axios.get(.../api/lessons/progress/topic) *)
| ConsoleError.

(** [fetchData]. Both requests are started by [Promise.all], which rejects
    as soon as one of them does. [roadmapRes] carries [data.roadmap],
    [progressRes] carries [data]; either may be missing. *)
Definition fetchData (roadmapRes : Settled (option Roadmap))
    (progressRes : Settled (option ProgressRecord)) (s : State)
    : State * list Effect :=
  let s0 := setLoading true s in
  let failed (s1 : State) :=
    (setLoading false (setError (Some "Failed to load learning path.") s1),
     [GetRoadmap; GetProgress; ConsoleError]) in
  match roadmapRes, progressRes with
  | Fulfilled rm, Fulfilled pr =>
      let s1 := setProgress pr (setRoadmap rm s0) in
      (* Default expand the current chapter or the first one *)
      match Object_keys_of rm with
      | Throw _ => failed s1
      | Normal chapters =>
          let currentChap :=
            match pr with
            | Some p => current_chapter p
            | None => None
            end in
          let expandFirst :=
            match hd_error chapters with
            | Some c0 => setExpandedChapters [(c0, true)] s1
            | None => s1
            end in
          let s2 :=
            match currentChap with
            | Some cc =>
                if truthy_string currentChap && includes chapters cc
                then setExpandedChapters [(cc, true)] s1
                else expandFirst
            | None => expandFirst
            end in
          (setLoading false s2, [GetRoadmap; GetProgress])
      end
  | _, _ => failed s0
  end.

(** [expandedChapters[chapterTitle]] as the render tests it: the lookup
    goes through the prototype chain. *)
Definition isExpanded (s : State) (chapterTitle : string) : bool :=
  truthy_at (expandedChapters s) chapterTitle.

Definition toggleChapter (chapter : string) (s : State) : State :=
  let prev := expandedChapters s in
  setExpandedChapters (set_prop prev chapter (negb (truthy_at prev chapter))) s.

(** [chapterCompleted]: the lessons of a chapter reported completed. *)
Definition chapterCompleted (progress : option ProgressRecord)
    (chapterTitle : string) (lessons : Lessons) : nat :=
  List.length
    (filter (fun l => isLessonCompleted progress chapterTitle l)
            (Object_keys lessons)).

(** *** Vocabulary *)

(** The chapter [fetchData] is meant to expand: the current chapter of the
    progress record when it is a non-empty title of the roadmap, the first
    chapter otherwise. *)
Definition default_chapter (r : Roadmap) (pr : option ProgressRecord)
    : option string :=
  match pr with
  | Some p =>
      match current_chapter p with
      | Some cc =>
          if negb (String.eqb cc "") && includes (Object_keys r) cc
          then Some cc else hd_error (Object_keys r)
      | None => hd_error (Object_keys r)
      end
  | None => hd_error (Object_keys r)
  end.

(** No chapter title contains the separator of the lesson identifiers. *)
Definition plain_chapters (r : Roadmap) : Prop :=
  forall c, In c (Object_keys r) -> str_includes c ": " = false.

(** The identifiers of all the lessons of a roadmap. *)
Definition all_ids (r : Roadmap) : list string :=
  flat_map (fun ch => map (lesson_id (fst ch)) (Object_keys (snd ch))) r.

(** The completed counts of the chapters, added up. *)
Definition chapters_completed (progress : option ProgressRecord)
    (r : Roadmap) : nat :=
  list_sum (map (fun ch => chapterCompleted progress (fst ch) (snd ch)) r).

End RoadmapViewLoad.

(** ** LessonView: what is rendered and which controls can be used *)

Module LessonViewUI.
Import JS LessonView.
Local Open Scope string_scope.

(** [content.questions[currentQuestionIdx]] *)
Definition current_question (content : LessonContent) (s : State)
    : option Question :=
  nth_error (questions content) (currentQuestionIdx s).

(** What the component renders once the lesson has loaded. The quiz view
    reads the fields of the current question; the label of the button
    under an answered question is 'Finish Lesson' on the last question and
    'Next Question' before. *)
Inductive Screen : Type :=
| ReadingScreen
| QuizScreen (q : Question) (finishLabel : bool)
| CompletedScreen.

Definition render (content : LessonContent) (s : State) : completion Screen :=
  match mode s with
  | reading => Normal ReadingScreen
  | quiz =>
      match current_question content s with
      | None =>
          Throw (TypeError "Cannot read properties of undefined (reading 'question')")
      | Some q =>
          Normal (QuizScreen q
                    (negb (Z.of_nat (currentQuestionIdx s)
                           <? len (questions content) - 1)%Z))
      end
  | completed => Normal CompletedScreen
  end.

(** Whether the control of an action is on the screen and not disabled:
    the start button in the reading view; in the quiz view the option
    buttons of the current question ([disabled={isAnswered}]), the submit
    button (rendered while not answered, [disabled] without a selection)
    and the next button (rendered once answered). *)
Definition enabled (content : LessonContent) (s : State) (e : Event) : bool :=
  match e, mode s with
  | StartQuiz, reading => true
  | Select idx, quiz =>
      negb (isAnswered s) &&
      match current_question content s with
      | Some q => (0 <=? idx)%Z && (idx <? len (options q))%Z
      | None => false
      end
  | Submit, quiz =>
      negb (isAnswered s) &&
      match selectedOption s with
      | Some _ => true
      | None => false
      end
  | Next, quiz => isAnswered s
  | _, _ => false
  end.

Definition is_submit (e : Event) : bool :=
  match e with
  | Submit => true
  | _ => false
  end.

(** One user action on the page: the handler runs when the control is
    there, nothing happens otherwise. The number counts the answers that
    have been submitted. *)
Definition click (content : LessonContent) (sk : State * nat) (e : Event)
    : completion (State * nat) :=
  if enabled content (fst sk) e then
    s' <- step content (fst sk) e ;;
    Normal (s', if is_submit e then S (snd sk) else snd sk)
  else Normal sk.

Fixpoint clicks (content : LessonContent) (sk : State * nat)
    (es : list Event) : completion (State * nat) :=
  match es with
  | [] => Normal sk
  | e :: es' => sk' <- click content sk e ;; clicks content sk' es'
  end.

(** A visit of the lesson page from its first render on. *)
Definition session (content : LessonContent) (es : list Event)
    : completion (State * nat) :=
  clicks content (initial, 0) es.

(** Answering the questions one after the other with the given choices:
    select, submit, go on. *)
Definition answer_with (choices : list Z) : list Event :=
  flat_map (fun idx => [Select idx; Submit; Next]) choices.

(** One choice per question, each an option of its question. *)
Definition valid_choices (content : LessonContent) (choices : list Z) : Prop :=
  Forall2 (fun idx q => (0 <= idx < len (options q))%Z)
          choices (questions content).

(** What a session keeps true: the counter of submitted answers follows
    the question index, which stays inside the questions. *)
Definition session_inv (content : LessonContent) (sk : State * nat) : Prop :=
  let s := fst sk in
  let k := snd sk in
  let n := List.length (questions content) in
  match mode s with
  | reading => currentQuestionIdx s = 0 /\ isAnswered s = false /\ k = 0
  | quiz => currentQuestionIdx s < n /\
            k = currentQuestionIdx s + (if isAnswered s then 1 else 0)
  | completed => k = n
  end.

End LessonViewUI.

(** ** Dashboard: moving between the views *)

Module DashboardNav.
Import JS JSObject Dashboard.
Local Open Scope string_scope.

(** The state the component starts with. *)
Definition initial : State := mkState dashboard None None.

Definition handleNewTopic (s : State) : State :=
  mkState create (activeTopic s) (currentLesson s).

Definition handleViewRoadmap (topic : string) (s : State) : State :=
  mkState roadmap (Some topic) (currentLesson s).

Definition handleBackToDashboard (s : State) : State :=
  mkState dashboard None None.

Definition handleStartLesson (chapter lesson : string) (s : State) : State :=
  mkState lessonView (activeTopic s)
          (Some (mkCurrentLesson (activeTopic s) chapter lesson)).

(** What the [main] element holds: one of the four views, or nothing when
    the condition in front of the view of the current [view] fails. *)
Inductive Main : Type :=
| ShowTopicDashboard
| ShowLearnTopicFlow
| ShowRoadmapView (topic : option string)
| ShowLessonView (topic : option string) (chapter lesson : string)
| Blank.

Definition main (s : State) : Main :=
  match view s with
  | dashboard => ShowTopicDashboard
  | create => ShowLearnTopicFlow
  | roadmap =>
      if truthy_string (activeTopic s) then ShowRoadmapView (activeTopic s)
      else Blank
  | lessonView =>
      match currentLesson s with
      | Some cur => ShowLessonView (activeTopic s) (chapter cur) (lesson cur)
      | None => Blank
      end
  end.

(** [handleLessonComplete] is asynchronous. It reads [currentLesson] and
    [activeTopic] from the render it was created in, awaits the roadmap
    request and the completion request, and only then calls
    [handleBackToRoadmap]; meanwhile the user can go on clicking. So the
    component is modelled with the completions in flight: for each one,
    the state its handler closed over. *)
Record Nav : Type := mkNav {
  page : State;
  inFlight : list State
}.

Definition start : Nav := mkNav initial [].

(** Whether a completion that closed over [closure] gets through its
    [try] block. *)
Definition succeeds (closure : State)
    (roadmapRes : Settled (option RoadmapView.Roadmap))
    (postRes : Settled unit) : bool :=
  match currentLesson closure, roadmapRes, postRes with
  | Some cur, Fulfilled (Some roadmapResult), Fulfilled _ =>
      match resolveNext roadmapResult cur with
      | Normal _ => true
      | Throw _ => false
      end
  | _, _, _ => false
  end.

(** The end of a completion, when the state has become [now]:
    [handleBackToRoadmap()] sets [currentLesson] and [view] and leaves
    [activeTopic] as it is by then; a failure only alerts. The handler
    writes no state before this point. *)
Definition finish (closure : State)
    (roadmapRes : Settled (option RoadmapView.Roadmap))
    (postRes : Settled unit) (now : State) : State :=
  if succeeds closure roadmapRes postRes then handleBackToRoadmap now
  else now.

Fixpoint without {A} (i : nat) (xs : list A) : list A :=
  match xs, i with
  | [], _ => []
  | _ :: xs', 0 => xs'
  | x :: xs', S i' => x :: without i' xs'
  end.

(** What can happen, by the callback each view is given. *)
Inductive Action : Type :=
| ClickLogo                                (* header: handleBackToDashboard *)
| NewTopic                                 (* TopicDashboard: onNewTopic *)
| ViewRoadmap (topic : string)             (* TopicDashboard: onViewRoadmap *)
| Back                                     (* onCancel / onBack of the view shown *)
| SelectLesson (chapter lesson : string)   (* RoadmapView: onLessonSelect *)
| Complete                                 (* LessonView: onComplete, up to
                                              the first await *)
| Settle (i : nat)                         (* the requests of the i-th
                                              completion in flight settle *)
         (roadmapRes : Settled (option RoadmapView.Roadmap))
         (postRes : Settled unit).

Definition act (n : Nav) (a : Action) : Nav :=
  let s := page n in
  match a, main s with
  | ClickLogo, _ => mkNav (handleBackToDashboard s) (inFlight n)
  | NewTopic, ShowTopicDashboard => mkNav (handleNewTopic s) (inFlight n)
  | ViewRoadmap topic, ShowTopicDashboard =>
      mkNav (handleViewRoadmap topic s) (inFlight n)
  | Back, ShowLearnTopicFlow => mkNav (handleBackToDashboard s) (inFlight n)
  | Back, ShowRoadmapView _ => mkNav (handleBackToDashboard s) (inFlight n)
  | SelectLesson c l, ShowRoadmapView _ =>
      mkNav (handleStartLesson c l s) (inFlight n)
  | Back, ShowLessonView _ _ _ => mkNav (handleBackToRoadmap s) (inFlight n)
  | Complete, ShowLessonView _ _ _ => mkNav s (inFlight n ++ [s])%list
  | Settle i roadmapRes postRes, _ =>
      match nth_error (inFlight n) i with
      | Some closure =>
          mkNav (finish closure roadmapRes postRes s) (without i (inFlight n))
      | None => n
      end
  | _, _ => n
  end.

Definition acts (n : Nav) (actions : list Action) : Nav :=
  fold_left act actions n.

(** Nothing else happens while a completion is in flight: every
    [Complete] is followed at once by the end of that completion. *)
Fixpoint uninterrupted (actions : list Action) : Prop :=
  match actions with
  | [] => True
  | Complete :: rest =>
      match rest with
      | Settle 0 _ _ :: rest' => uninterrupted rest'
      | _ => False
      end
  | Settle _ _ _ :: _ => False
  | _ :: rest => uninterrupted rest
  end.

(** The topics handed to [onViewRoadmap] are names of topics: not empty. *)
Definition named_topics (actions : list Action) : Prop :=
  Forall (fun a => match a with
                   | ViewRoadmap topic => topic <> ""
                   | _ => True
                   end) actions.

(** The three pieces of state fit together. *)
Definition coherent (s : State) : Prop :=
  match view s with
  | dashboard | create => activeTopic s = None /\ currentLesson s = None
  | roadmap => truthy_string (activeTopic s) = true /\ currentLesson s = None
  | lessonView =>
      truthy_string (activeTopic s) = true /\
      exists c l, currentLesson s = Some (mkCurrentLesson (activeTopic s) c l)
  end.

Definition is_post (e : Effect) : bool :=
  match e with
  | PostComplete _ => true
  | _ => false
  end.

Definition is_alert (e : Effect) : bool :=
  match e with
  | Alert _ => true
  | _ => false
  end.

End DashboardNav.

(** ** TopicDashboard: the Retry button *)

Module TopicDashboardRetry.
Import JS TopicDashboard.

(** The Retry button of the error banner: [onClick={() => fetchTopics()}].
    The [fetchTopics] it calls is the one of the render that shows the
    banner, so the [loading] it sees is the one of the state rendered. *)
Definition clickRetry (answers : nat -> Settled (option (list string)))
    (s : State) : State * list Effect :=
  fetchTopics answers (loading s) 0 s.

(** The requests up to the one of the call with [retryCount = k] all fail
    with the backend down. *)
Definition down_before (answers : nat -> Settled (option (list string)))
    (k : nat) : Prop :=
  forall j, j < k ->
    exists err, answers j = Rejected err /\ isBackendDown err = true.

(** What [setTopics] is given for a fulfilled request. *)
Definition topics_of (data : option (list string)) : list string :=
  match data with
  | Some l => l
  | None => []
  end.

End TopicDashboardRetry.

(** ** LearnTopicFlow: creating a topic *)

Module LearnTopicFlow.
Import JS JSObject.
Local Open Scope string_scope.

(** The fields of a caught error the handlers read:
    [err.response?.data?.error], [err.response?.data?.message],
    [err.response?.data?.detail] and [err.message]. *)
Record RequestError : Type := mkRequestError {
  data_error : option string;
  data_message : option string;
  data_detail : option string;
  err_message : option string
}.

Inductive Outcome (A : Type) : Type :=
| Done (a : A)
| Failed (err : RequestError).
Arguments Done {A} a.
Arguments Failed {A} err.

Record State : Type := mkState {
  step : nat;
  loading : bool;
  error : option string;
  topic : string;
  focusArea : string;
  prerequisites : list string;
  knownPrerequisites : list (nat * bool);
  files : list string
}.

Definition initial : State := mkState 1 false None "" "" [] [] [].

Definition setStep (v : nat) (s : State) : State :=
  mkState v (loading s) (error s) (topic s) (focusArea s) (prerequisites s)
          (knownPrerequisites s) (files s).
Definition setLoading (v : bool) (s : State) : State :=
  mkState (step s) v (error s) (topic s) (focusArea s) (prerequisites s)
          (knownPrerequisites s) (files s).
Definition setError (v : option string) (s : State) : State :=
  mkState (step s) (loading s) v (topic s) (focusArea s) (prerequisites s)
          (knownPrerequisites s) (files s).
Definition setPrerequisites (v : list string) (s : State) : State :=
  mkState (step s) (loading s) (error s) (topic s) (focusArea s) v
          (knownPrerequisites s) (files s).

Inductive Effect : Type :=
| PostPrerequisites (topic focus_area : string)
| PostUpload (topic : string) (files : list string)
| PostPlanning (topic focus_area : string)
               (prerequisites_known prerequisites_unknown : list string)
| PostRoadmap (topic : string) (roadmap : RoadmapView.Roadmap)
| ConsoleError.

Definition setKnownPrerequisites (v : list (nat * bool)) (s : State) : State :=
  mkState (step s) (loading s) (error s) (topic s) (focusArea s)
          (prerequisites s) v (files s).

(** [{ ...knownPrerequisites, [idx]: v }] *)
Fixpoint with_answer (known : list (nat * bool)) (idx : nat) (v : bool)
    : list (nat * bool) :=
  match known with
  | [] => [(idx, v)]
  | (i, b) :: known' =>
      if (i =? idx)%nat then (idx, v) :: known'
      else (i, b) :: with_answer known' idx v
  end.

(** The two buttons beside a prerequisite. *)
Definition clickKnown (idx : nat) (v : bool) (s : State) : State :=
  setKnownPrerequisites (with_answer (knownPrerequisites s) idx v) s.

(** [knownPrerequisites[idx] === true] *)
Fixpoint known_at (known : list (nat * bool)) (idx : nat) : bool :=
  match known with
  | [] => false
  | (i, b) :: known' => if (i =? idx)%nat then b else known_at known' idx
  end.

Definition handleFetchPrerequisites (res : Outcome (list string)) (s : State)
    : State * list Effect :=
  if negb (truthy_string (Some (topic s)))
     || negb (truthy_string (Some (focusArea s)))
  then (s, [])
  else
    let s0 := setError None (setLoading true s) in
    match res with
    | Done prereqs =>
        (setLoading false (setStep 3 (setPrerequisites prereqs s0)),
         [PostPrerequisites (topic s) (focusArea s)])
    | Failed err =>
        let errorMessage :=
          or_else
            (or_else (or_else (data_error err) (data_message err))
                     (err_message err))
            (Some "Failed to fetch prerequisites. Please ensure backend is running.") in
        (setLoading false (setError errorMessage s0),
         [PostPrerequisites (topic s) (focusArea s); ConsoleError])
    end.

(** One round of the [forEach] that sorts the prerequisites: the lists
    [known] and [unknown] so far and the index of the item. *)
Definition classify (flags : list (nat * bool))
    (acc : list string * list string * nat) (item : string)
    : list string * list string * nat :=
  let '(known, unknown, idx) := acc in
  if known_at flags idx then ((known ++ [item])%list, unknown, S idx)
  else (known, (unknown ++ [item])%list, S idx).

Definition sort_prerequisites (flags : list (nat * bool))
    (items : list string) : list string * list string :=
  fst (fold_left (classify flags) items ([], [], 0)).

(** The error thrown for an empty roadmap: it has a message and no
    response. *)
Definition empty_roadmap_error : RequestError :=
  mkRequestError None None None
    (Some "Roadmap generation returned empty result. Please try again.").

(** [handleSubmitAll]. [uploadRes], [planningRes] (carrying
    [data.roadmap]) and [saveRes] are how the three requests settle. *)
Definition handleSubmitAll (uploadRes : Outcome unit)
    (planningRes : Outcome (option RoadmapView.Roadmap))
    (saveRes : Outcome unit) (s : State) : State * list Effect :=
  let s0 := setError None (setLoading true s) in
  let failed (err : RequestError) (sent : list Effect) :=
    let msg := or_else (or_else (data_detail err) (err_message err))
                       (Some "Failed to generate roadmap") in
    (setLoading false (setError (Some ("Error: " ++ to_display msg)) s0),
     (sent ++ [ConsoleError])%list) in
  (* 1. Upload Materials (if any) *)
  let uploading := (0 <? len (files s))%Z in
  let upload := if uploading then [PostUpload (topic s) (files s)] else [] in
  match uploading, uploadRes with
  | true, Failed err => failed err upload
  | _, _ =>
      (* 2. Prepare Prerequisite Lists *)
      let lists := sort_prerequisites (knownPrerequisites s) (prerequisites s) in
      (* 3. Generate Roadmap *)
      let planning :=
        (upload ++ [PostPlanning (topic s) (focusArea s) (fst lists) (snd lists)])%list in
      match planningRes with
      | Failed err => failed err planning
      | Done roadmap =>
          match roadmap with
          | None => failed empty_roadmap_error planning
          | Some r =>
              if (len (Object_keys r) =? 0)%Z
              then failed empty_roadmap_error planning
              else
                (* 4. Save Roadmap Locally *)
                let saving := (planning ++ [PostRoadmap (topic s) r])%list in
                match saveRes with
                | Failed err => failed err saving
                | Done _ => (setLoading false (setStep 5 s0), saving)
                end
          end
      end
  end.

(** *** Vocabulary *)

Definition is_save (e : Effect) : bool :=
  match e with
  | PostRoadmap _ _ => true
  | _ => false
  end.

Definition is_planning (e : Effect) : bool :=
  match e with
  | PostPlanning _ _ _ _ => true
  | _ => false
  end.

Definition is_upload (e : Effect) : bool :=
  match e with
  | PostUpload _ _ => true
  | _ => false
  end.

(** The items whose index, counted from [idx], carries the given answer. *)
Fixpoint items_with (flags : list (nat * bool)) (answer : bool)
    (idx : nat) (items : list string) : list string :=
  match items with
  | [] => []
  | item :: items' =>
      if Bool.eqb (known_at flags idx) answer
      then item :: items_with flags answer (S idx) items'
      else items_with flags answer (S idx) items'
  end.

Definition ready : State :=
  mkState 4 false None "Logic" "Proofs" ["Sets"; "Functions"; "Induction"]
          [(0, true); (2, true); (1, false)] [].

End LearnTopicFlow.

(** ** SchedulingModal: settings and upcoming sessions *)

Module SchedulingModal.
Import JS.
Local Open Scope string_scope.

Record Settings : Type := mkSettings {
  auto_schedule : bool;
  trigger_time : string;
  last_run : option string
}.

Record Session : Type := mkSession {
  start : string;
  summary : string
}.

(** [response.data] of the sessions request. *)
Record SessionsReply : Type := mkSessionsReply {
  status : option string;
  reply_sessions : list Session
}.

Record State : Type := mkState {
  autoSettings : Settings;
  saving : bool;
  scheduling : bool;
  sessions : list Session;
  fetchingSessions : bool
}.

Definition initial : State :=
  mkState (mkSettings true "00:00" None) false false [] false.

Definition setAutoSettings (v : Settings) (s : State) : State :=
  mkState v (saving s) (scheduling s) (sessions s) (fetchingSessions s).
Definition setSaving (v : bool) (s : State) : State :=
  mkState (autoSettings s) v (scheduling s) (sessions s) (fetchingSessions s).
Definition setScheduling (v : bool) (s : State) : State :=
  mkState (autoSettings s) (saving s) v (sessions s) (fetchingSessions s).
Definition setSessions (v : list Session) (s : State) : State :=
  mkState (autoSettings s) (saving s) (scheduling s) v (fetchingSessions s).
Definition setFetchingSessions (v : bool) (s : State) : State :=
  mkState (autoSettings s) (saving s) (scheduling s) (sessions s) v.

Inductive Effect : Type :=
| GetSettings
| GetSessions
| PostSettings (newSettings : Settings)
| PostTriggerNow
| ConsoleError.

Definition fetchSettings (res : Settled Settings) (s : State)
    : State * list Effect :=
  match res with
  | Fulfilled data => (setAutoSettings data s, [GetSettings])
  | Rejected _ => (s, [GetSettings; ConsoleError])
  end.

Definition fetchSessions (res : Settled SessionsReply) (s : State)
    : State * list Effect :=
  let s0 := setFetchingSessions true s in
  match res with
  | Fulfilled data =>
      let s1 := if strict_eq (status data) (Some "success")
                then setSessions (reply_sessions data) s0
                else s0 in
      (setFetchingSessions false s1, [GetSessions])
  | Rejected _ => (setFetchingSessions false s0, [GetSessions; ConsoleError])
  end.

Definition saveSettings (newSettings : Settings) (res : Settled unit)
    (s : State) : State * list Effect :=
  let s0 := setSaving true s in
  match res with
  | Fulfilled _ =>
      (setSaving false (setAutoSettings newSettings s0),
       [PostSettings newSettings])
  | Rejected _ =>
      (setSaving false s0, [PostSettings newSettings; ConsoleError])
  end.

(** [triggerRes] carries [response.data.status]. *)
Definition handleScheduleNow (triggerRes : Settled (option string))
    (settingsRes : Settled Settings) (sessionsRes : Settled SessionsReply)
    (s : State) : State * list Effect :=
  let s0 := setScheduling true s in
  match triggerRes with
  | Fulfilled st =>
      if strict_eq st (Some "success") then
        (* Refresh everything *)
        let '(s1, e1) := fetchSettings settingsRes s0 in
        let '(s2, e2) := fetchSessions sessionsRes s1 in
        (setScheduling false s2, (PostTriggerNow :: e1 ++ e2)%list)
      else (setScheduling false s0, [PostTriggerNow])
  | Rejected _ => (setScheduling false s0, [PostTriggerNow; ConsoleError])
  end.

(** The two controls of the automation panel: the switch and the time
    field. Each one saves the displayed settings with one field replaced. *)
Inductive Edit : Type :=
| Switch
| SetTime (value : string).

Definition edited (e : Edit) (a : Settings) : Settings :=
  match e with
  | Switch => mkSettings (negb (auto_schedule a)) (trigger_time a) (last_run a)
  | SetTime v => mkSettings (auto_schedule a) v (last_run a)
  end.

Definition edit (e : Edit) (res : Settled unit) (s : State)
    : State * list Effect :=
  saveSettings (edited e (autoSettings s)) res s.

Fixpoint edits (l : list (Edit * Settled unit)) (s : State)
    : State * list Effect :=
  match l with
  | [] => (s, [])
  | (e, res) :: l' =>
      let '(s1, e1) := edit e res s in
      let '(s2, e2) := edits l' s1 in
      (s2, (e1 ++ e2)%list)
  end.

(** *** Vocabulary *)

Definition saved (x : Edit * Settled unit) : bool :=
  match snd x with
  | Fulfilled _ => true
  | Rejected _ => false
  end.

Definition is_post (e : Effect) : bool :=
  match e with
  | PostSettings _ => true
  | _ => false
  end.

Definition succeeded (st : option string) : bool :=
  strict_eq st (Some "success").

End SchedulingModal.

(** ** Dashboard: the calendar button *)

Module DashboardCalendar.
Import JS JSObject.
Local Open Scope string_scope.

Record State : Type := mkState {
  calendarConnected : bool;
  hasCredentials : bool;
  calendarLoading : bool;
  isGeneralSchedulingOpen : bool
}.

Definition initial : State := mkState false false false false.

Definition setCalendarConnected (v : bool) (s : State) : State :=
  mkState v (hasCredentials s) (calendarLoading s) (isGeneralSchedulingOpen s).
Definition setHasCredentials (v : bool) (s : State) : State :=
  mkState (calendarConnected s) v (calendarLoading s) (isGeneralSchedulingOpen s).
Definition setCalendarLoading (v : bool) (s : State) : State :=
  mkState (calendarConnected s) (hasCredentials s) v (isGeneralSchedulingOpen s).
Definition setIsGeneralSchedulingOpen (v : bool) (s : State) : State :=
  mkState (calendarConnected s) (hasCredentials s) (calendarLoading s) v.

(** [statusRes.data] *)
Record StatusReply : Type := mkStatusReply {
  connected : bool;
  status_error : option string
}.

(** [configRes.data] *)
Record ConfigReply : Type := mkConfigReply {
  has_credentials : bool;
  config_error : option string;
  checked_path : option string;
  has_env : option bool;
  has_file : option bool
}.

Inductive Effect : Type :=
| GetStatus
| GetConfigStatus
| GetConnect
| ConsoleWarn
| ConsoleError
| Alert (msg : string).

Definition checkStatus (statusRes : Settled StatusReply)
    (configRes : Settled ConfigReply) (s : State) : State * list Effect :=
  (* Check connectivity *)
  let '(s1, e1) :=
    match statusRes with
    | Fulfilled data =>
        (setCalendarConnected (connected data) s,
         GetStatus :: (if truthy_string (status_error data)
                       then [ConsoleWarn] else []))
    | Rejected _ => (s, [GetStatus; ConsoleError])
    end in
  (* Check config *)
  let '(s2, e2) :=
    match configRes with
    | Fulfilled data =>
        (setHasCredentials (has_credentials data) s1,
         GetConfigStatus :: (if truthy_string (config_error data)
                             then [ConsoleWarn] else []))
    | Rejected _ => (s1, [GetConfigStatus; ConsoleError])
    end in
  (s2, (e1 ++ e2)%list).

Definition newline : string := String (ascii_of_nat 10) "".

(** [x === false] on a boolean or [undefined]. *)
Definition is_false (x : option bool) : bool :=
  match x with
  | Some false => true
  | _ => false
  end.

Definition not_configured (details : ConfigReply) : string :=
  let pathMsg := if truthy_string (checked_path details)
                 then newline ++ "Checked path: " ++ to_display (checked_path details)
                 else "" in
  let envMsg := if is_false (has_env details)
                then newline ++ "Environment variables not detected." else "" in
  let fileMsg := if is_false (has_file details)
                 then newline ++ "Credentials file not found." else "" in
  "Google Calendar is not configured." ++ newline ++ envMsg ++ fileMsg
    ++ pathMsg ++ newline ++ newline
    ++ "Please check README.md for developer setup instructions.".

Definition handleConnectCalendar (configRes : Settled ConfigReply)
    (connectRes : Settled unit) (s : State) : State * list Effect :=
  if calendarConnected s then (setIsGeneralSchedulingOpen true s, [])
  else if negb (hasCredentials s) then
    (* Try to fetch detailed status to show a better error *)
    match configRes with
    | Fulfilled details => (s, [GetConfigStatus; Alert (not_configured details)])
    | Rejected _ =>
        (s, [GetConfigStatus;
             Alert "Google Calendar is not configured. Please check README.md for developer setup instructions."])
    end
  else
    let s0 := setCalendarLoading true s in
    match connectRes with
    | Fulfilled _ =>
        (setCalendarLoading false (setCalendarConnected true s0), [GetConnect])
    | Rejected _ =>
        (setCalendarLoading false s0,
         [GetConnect; ConsoleError;
          Alert "Connection failed. Ensure the Google Calendar API is enabled and your credentials are valid."])
    end.

(** *** Vocabulary *)

Definition is_alert (e : Effect) : bool :=
  match e with
  | Alert _ => true
  | _ => false
  end.

Definition is_connect (e : Effect) : bool :=
  match e with
  | GetConnect => true
  | _ => false
  end.

End DashboardCalendar.

(** ** RoadmapView, the version that keeps completion in local storage *)

Module RoadmapViewLocal.
Import JS JSObject.
Local Open Scope string_scope.

(** [`${chapter}-${lesson}`] *)
Definition lesson_key (chapter lesson : string) : string :=
  chapter ++ "-" ++ lesson.

(** [toggleLesson]: the updater applied to [completedLessons]. *)
Definition toggleLesson (chapter lesson : string) (prev : Obj bool) : Obj bool :=
  let key := lesson_key chapter lesson in
  set_prop prev key (negb (truthy_bool (get prev key))).

(** [completedLessons[lessonKey]] as the lesson row tests it. *)
Definition isCompleted (completedLessons : Obj bool) (chapter lesson : string)
    : bool :=
  truthy_bool (get completedLessons (lesson_key chapter lesson)).

(** The count the chapter bar divides: the lessons of the chapter whose
    key holds a true value. *)
Definition chapterCompletedCount (completedLessons : Obj bool)
    (chapter : string) (lessons : Obj string) : nat :=
  List.length (filter (fun l => isCompleted completedLessons chapter l)
                      (Object_keys lessons)).

(** The count the header divides: [Object.keys(completedLessons).length]. *)
Definition headerCompletedCount (completedLessons : Obj bool) : nat :=
  List.length (Object_keys completedLessons).

Fixpoint toggles (clicks : list (string * string)) (prev : Obj bool)
    : Obj bool :=
  match clicks with
  | [] => prev
  | (chapter, lesson) :: clicks' =>
      toggles clicks' (toggleLesson chapter lesson prev)
  end.

End RoadmapViewLocal.

(* ===================================================================== *)
(** * Part II: properties                                                 *)
(* ===================================================================== *)

(** ** Facts about the built-ins *)

Module JSFacts.
Import JS.

Lemma strict_eq_true (a b : option string) :
  strict_eq a b = true <-> a = b.
Proof.
  destruct a as [x|], b as [y|]; simpl; try (split; congruence).
  rewrite String.eqb_eq. split; congruence.
Qed.

Lemma strict_eq_refl (a : option string) : strict_eq a a = true.
Proof. apply strict_eq_true. reflexivity. Qed.

Lemma includes_In (xs : list string) (x : string) :
  includes xs x = true <-> In x xs.
Proof.
  unfold includes. rewrite existsb_exists. split.
  - intros [y [Hy Heq]]. apply String.eqb_eq in Heq. subst. exact Hy.
  - intros H. exists x. split; [exact H | apply String.eqb_refl].
Qed.

Lemma get_here {V} (k : string) (v : V) (o : Obj V) :
  get ((k, v) :: o) k = Some v.
Proof. simpl. rewrite String.eqb_refl. reflexivity. Qed.

Lemma get_app_fresh {V} (pre : Obj V) (k : string) (v : V) (post : Obj V) :
  ~ In k (Object_keys pre) ->
  get (pre ++ (k, v) :: post) k = Some v.
Proof.
  induction pre as [|[k' v'] pre IH]; simpl; intros Hk.
  - rewrite String.eqb_refl. reflexivity.
  - destruct (String.eqb_spec k' k) as [->|_].
    + exfalso. apply Hk. left. reflexivity.
    + apply IH. intros Hin. apply Hk. right. exact Hin.
Qed.

Lemma indexOf_absent (xs : list string) (x : string) :
  ~ In x xs -> indexOf xs x = (-1)%Z.
Proof.
  induction xs as [|y ys IH]; simpl; intros Hx; [reflexivity|].
  destruct (String.eqb_spec y x) as [->|_].
  - exfalso. apply Hx. left. reflexivity.
  - rewrite IH by tauto. reflexivity.
Qed.

Lemma indexOf_app_fresh (pre : list string) (x : string) (post : list string) :
  ~ In x pre -> indexOf (pre ++ x :: post) x = len pre.
Proof.
  unfold len.
  induction pre as [|y pre IH]; simpl; intros Hx.
  - rewrite String.eqb_refl. reflexivity.
  - destruct (String.eqb_spec y x) as [->|_].
    + exfalso. apply Hx. left. reflexivity.
    + rewrite IH by tauto.
      destruct (Z.eqb_spec (Z.of_nat (List.length pre)) (-1)); lia.
Qed.

Lemma at_index_app (A : Type) (pre : list A) (x : A) (post : list A) :
  at_index (pre ++ x :: post) (len pre) = Some x.
Proof.
  unfold at_index, len.
  destruct (Z.ltb_spec (Z.of_nat (List.length pre)) 0); [lia|].
  rewrite Nat2Z.id. rewrite nth_error_app2 by lia.
  rewrite Nat.sub_diag. reflexivity.
Qed.

Lemma at_index_0 (A : Type) (xs : list A) : at_index xs 0 = hd_error xs.
Proof. destruct xs; reflexivity. Qed.

(** [Math.round] returns an integer nearest to the value it is given. *)
Lemma Math_round_nearest (x : float) (n : Z) :
  Math_round x = Some n ->
  exists q, float_value x = Some q /\
            (inject_Z n - (1 # 2) <= q)%Q /\ (q < inject_Z n + (1 # 2))%Q.
Proof.
  unfold Math_round. intros H.
  destruct (float_value x) as [q|]; [|discriminate H].
  exists q. split; [reflexivity|].
  assert (Hn : n = Qfloor (q + (1 # 2))) by (unfold option_map in H; congruence).
  rewrite Hn. clear H Hn n.
  pose proof (Qfloor_le (q + (1 # 2))) as Hle.
  pose proof (Qlt_floor (q + (1 # 2))) as Hlt.
  rewrite inject_Z_plus in Hlt.
  change (inject_Z 1) with 1%Q in Hlt.
  set (n := inject_Z (Qfloor (q + (1 # 2)))) in *.
  split; lra.
Qed.

End JSFacts.

(** ** Binary64 arithmetic: what rounding does to the percentage *)

Module Binary64Facts.
Import JS Binary64.

Section Integers.
Local Open Scope Z_scope.

(** The number of binary digits of a positive integer. *)
Lemma digits2_pos_bounds (p : positive) :
  2 ^ (Zpos (digits2_pos p) - 1) <= Zpos p < 2 ^ Zpos (digits2_pos p).
Proof.
  induction p as [p IH|p IH|]; cbn [digits2_pos].
  - rewrite Pos2Z.inj_succ.
    replace (Z.succ (Z.pos (digits2_pos p)) - 1) with (Z.succ (Z.pos (digits2_pos p) - 1)) by lia.
    rewrite !Z.pow_succ_r by lia. lia.
  - rewrite Pos2Z.inj_succ.
    replace (Z.succ (Z.pos (digits2_pos p)) - 1) with (Z.succ (Z.pos (digits2_pos p) - 1)) by lia.
    rewrite !Z.pow_succ_r by lia. lia.
  - cbn. lia.
Qed.

Lemma Zdigits2_unique (m d : Z) :
  0 < d -> 2 ^ (d - 1) <= m < 2 ^ d -> Zdigits2 m = d.
Proof.
  intros Hd [Hlo Hhi].
  assert (Hm : 0 < m) by (pose proof (Z.pow_pos_nonneg 2 (d - 1)); lia).
  destruct m as [|p|p]; try lia. cbn [Zdigits2].
  pose proof (digits2_pos_bounds p) as [Hlo' Hhi'].
  set (d' := Z.pos (digits2_pos p)) in *.
  assert (Hd' : 0 < d') by (subst d'; lia).
  destruct (Z.lt_trichotomy d' d) as [Hlt|[Heq|Hgt]]; [|exact Heq|].
  - exfalso. assert (2 ^ d' <= 2 ^ (d - 1)) by (apply Z.pow_le_mono_r; lia). lia.
  - exfalso. assert (2 ^ d <= 2 ^ (d' - 1)) by (apply Z.pow_le_mono_r; lia). lia.
Qed.

Ltac zbool :=
  repeat match goal with
         | |- context [(?a <=? ?b)%Z] => destruct (Z.leb_spec a b)
         | |- context [(?a =? ?b)%Z] => destruct (Z.eqb_spec a b)
         end;
  cbn [negb orb andb]; try reflexivity; try lia.

Lemma half_odd (p : positive) : Z.pos p~1 / 2 = Z.pos p /\ Z.pos p~1 mod 2 = 1.
Proof.
  rewrite Pos2Z.inj_xI. split; symmetry.
  - apply Z.div_unique with 1; lia.
  - apply Z.mod_unique with (Z.pos p); lia.
Qed.

Lemma half_even (p : positive) : Z.pos p~0 / 2 = Z.pos p /\ Z.pos p~0 mod 2 = 0.
Proof.
  rewrite Pos2Z.inj_xO. split; symmetry.
  - apply Z.div_unique with 0; lia.
  - apply Z.mod_unique with (Z.pos p); lia.
Qed.

(** Shifting right by one bit halves the quotient described. *)
Lemma shr_1_rep (rec : shr_record) (P D : Z) :
  truncates rec P D -> truncates (shr_1 rec) P (2 * D).
Proof.
  intros (HD & HP & Hm & Hr & Hs).
  assert (Hmod : 0 <= P mod D < D) by (apply Z.mod_pos_bound; lia).
  assert (Hdiv : P = D * (P / D) + P mod D) by (apply Z.div_mod; lia).
  assert (Hq : 0 <= P / D) by (apply Z.div_pos; lia).
  assert (Hqr : P / (2 * D) = (P / D) / 2 /\
                P mod (2 * D) = P mod D + D * ((P / D) mod 2)).
  { assert (H2 : P / D = 2 * ((P / D) / 2) + (P / D) mod 2)
      by (apply Z.div_mod; lia).
    assert (Hb : 0 <= (P / D) mod 2 < 2) by (apply Z.mod_pos_bound; lia).
    assert (Heq : P = (2 * D) * ((P / D) / 2) + (P mod D + D * ((P / D) mod 2))) by nia.
    assert (Hrange : 0 <= P mod D + D * ((P / D) mod 2) < 2 * D) by nia.
    split.
    - symmetry. eapply Z.div_unique_pos; [exact Hrange | exact Heq].
    - symmetry. eapply Z.mod_unique_pos; [exact Hrange | exact Heq]. }
  destruct Hqr as [Hq2 Hr2].
  destruct rec as [m r s]. cbn [shr_m shr_r shr_s] in *.
  assert (Hrs : orb r s = negb (P mod D =? 0)).
  { rewrite Hr, Hs. zbool. }
  unfold truncates. split; [lia|]. split; [exact HP|].
  rewrite Hq2, Hr2. rewrite <- Hm in *.
  assert (Hmnn : 0 <= m) by lia.
  set (rem := P mod D) in *.
  destruct m as [|[p|p|]|p]; try lia; cbn [shr_1 shr_m shr_r shr_s]; rewrite Hrs.
  - change (0 / 2) with 0. change (0 mod 2) with 0.
    split; [reflexivity|]. split; zbool.
  - destruct (half_odd p) as [-> ->]. split; [reflexivity|]. split; zbool.
  - destruct (half_even p) as [-> ->]. split; [reflexivity|]. split; zbool.
  - change (1 / 2) with 0. change (1 mod 2) with 1.
    split; [reflexivity|]. split; zbool.
Qed.

Lemma truncates_ext (rec : shr_record) (P D D' : Z) :
  D = D' -> truncates rec P D -> truncates rec P D'.
Proof. intros ->. exact (fun H => H). Qed.

Lemma iter_pos_shr_1_rep (n : positive) :
  forall rec P D, truncates rec P D -> truncates (iter_pos shr_1 n rec) P (2 ^ Zpos n * D).
Proof.
  induction n as [n IH|n IH|]; intros rec P D H; cbn [iter_pos].
  - apply (@truncates_ext _ _ (2 ^ Zpos n * (2 ^ Zpos n * (2 * D))) _).
    + replace (Z.pos n~1) with (Z.pos n + Z.pos n + 1) by lia.
      rewrite !Z.pow_add_r by lia. ring.
    + apply IH, IH, shr_1_rep, H.
  - apply (@truncates_ext _ _ (2 ^ Zpos n * (2 ^ Zpos n * D)) _).
    + replace (Z.pos n~0) with (Z.pos n + Z.pos n) by lia.
      rewrite !Z.pow_add_r by lia. ring.
    + apply IH, IH, H.
  - change (2 ^ 1) with 2. apply shr_1_rep, H.
Qed.

Lemma shr_rep (rec : shr_record) (e n P D : Z) :
  0 <= n -> truncates rec P D ->
  truncates (fst (shr rec e n)) P (2 ^ n * D) /\ snd (shr rec e n) = e + n.
Proof.
  intros Hn H. destruct n as [|p|p]; try lia; cbn [shr fst snd].
  - split; [|lia]. apply (@truncates_ext _ _ D _); [rewrite Z.pow_0_r; lia | exact H].
  - split; [|reflexivity]. apply iter_pos_shr_1_rep, H.
Qed.

Lemma rep_exact (m : Z) : 0 <= m -> truncates (shr_record_of_loc m loc_Exact) m 1.
Proof.
  intros Hm. unfold truncates. cbn [shr_record_of_loc shr_m shr_r shr_s].
  rewrite Z.div_1_r, Z.mod_1_r. repeat split; try lia.
Qed.

(** The location computed for a division describes its quotient. *)
Lemma rep_div (m' m2 q r : Z) :
  0 <= m' -> 0 < m2 -> Z.div_eucl m' m2 = (q, r) ->
  truncates (shr_record_of_loc q (new_location m2 r)) m' m2.
Proof.
  intros Hm' Hm2 Hqr.
  assert (Hq : q = m' / m2) by (unfold Z.div; rewrite Hqr; reflexivity).
  assert (Hr : r = m' mod m2) by (unfold Z.modulo; rewrite Hqr; reflexivity).
  assert (Hmod : 0 <= r < m2) by (rewrite Hr; apply Z.mod_pos_bound; lia).
  unfold truncates. rewrite <- Hq, <- Hr.
  split; [exact Hm2|]. split; [exact Hm'|].
  unfold new_location, new_location_even, new_location_odd.
  destruct (Z.even m2) eqn:Hev.
  - destruct (Z.eqb_spec r 0) as [E|E].
    + cbn [shr_record_of_loc shr_m shr_r shr_s]. repeat split; zbool.
    + destruct (Z.compare_spec (2 * r) m2);
        cbn [shr_record_of_loc shr_m shr_r shr_s]; repeat split; zbool.
  - assert (Hodd : 2 * r <> m2).
    { intros <-. rewrite Z.even_mul in Hev. discriminate Hev. }
    destruct (Z.eqb_spec r 0) as [E|E].
    + cbn [shr_record_of_loc shr_m shr_r shr_s]. repeat split; zbool.
    + destruct (Z.compare_spec (2 * r + 1) m2);
        cbn [shr_record_of_loc shr_m shr_r shr_s]; repeat split; zbool.
Qed.

(** Rounding to nearest, ties to even, moves by at most one half. *)
Lemma round_rep (rec : shr_record) (P D : Z) :
  truncates rec P D ->
  let k := round_nearest_even (shr_m rec) (loc_of_shr_record rec) in
  - D <= 2 * (k * D - P) <= D /\ shr_m rec <= k <= shr_m rec + 1.
Proof.
  intros (HD & HP & Hm & Hr & Hs).
  assert (Hmod : 0 <= P mod D < D) by (apply Z.mod_pos_bound; lia).
  assert (Hdiv : P = D * (P / D) + P mod D) by (apply Z.div_mod; lia).
  destruct rec as [m r s]. cbn [shr_m shr_r shr_s] in *.
  rewrite <- Hm in Hdiv. set (rem := P mod D) in *.
  cbv zeta.
  destruct (Z.leb_spec D (2 * rem)), (Z.eqb_spec rem 0), (Z.eqb_spec (2 * rem) D);
    cbn in Hr, Hs; subst r s; cbn [round_nearest_even loc_of_shr_record];
    try lia; try destruct (Z.even m); nia.
Qed.

Lemma shr_m_of_loc (m : Z) (l : location) : shr_m (shr_record_of_loc m l) = m.
Proof. destruct l as [|[]]; reflexivity. Qed.

Lemma fexp_normal (z : Z) : -1074 <= z - 53 -> fexp prec emax z = z - 53.
Proof. intros H. unfold fexp, SpecFloat.emin, prec, emax. lia. Qed.

(** Rounding a quotient whose integer part has [53 + n] digits, in the
    normal range: the result is finite, its mantissa has 53 digits, and
    it is [k] units of [2^(ex + n)] with [k] within one half of the
    quotient counted in these units. *)
Lemma binary_round_aux_rep (sx : bool) (mx ex : Z) (lx : location) (P D n : Z) :
  truncates (shr_record_of_loc mx lx) P D ->
  0 <= n -> Zdigits2 mx = 53 + n ->
  -1074 <= ex + n -> ex + n + 1 <= 971 ->
  exists m e k c,
    binary_round_aux prec emax sx mx ex lx = S754_finite sx m e
    /\ 2 ^ 52 <= Zpos m < 2 ^ 53
    /\ (c = 0 \/ c = 1) /\ e = ex + n + c /\ Zpos m * 2 ^ c = k
    /\ - (2 ^ n * D) <= 2 * (k * (2 ^ n * D) - P) <= 2 ^ n * D.
Proof.
  intros Hrep Hn Hdig Hlo Hhi.
  pose proof Hrep as (HD & HP & Hm & _).
  rewrite shr_m_of_loc in Hm.
  assert (Hpow : 0 < 2 ^ n) by (apply Z.pow_pos_nonneg; lia).
  (* the mantissa has 53 + n digits *)
  assert (Hmx : 2 ^ 52 * 2 ^ n <= mx < 2 ^ 53 * 2 ^ n).
  { assert (Hnn : 0 <= mx) by (rewrite Hm; apply Z.div_pos; lia).
    destruct mx as [|p|p]; try lia.
    - cbn [Zdigits2] in Hdig. lia.
    - cbn [Zdigits2] in Hdig. pose proof (digits2_pos_bounds p) as Hb.
      rewrite Hdig in Hb.
      replace (53 + n - 1) with (52 + n) in Hb by lia.
      rewrite !Z.pow_add_r in Hb by lia. exact Hb. }
  (* first shift *)
  unfold binary_round_aux, shr_fexp.
  rewrite Hdig. rewrite fexp_normal by lia.
  replace (53 + n + ex - 53 - ex) with n by lia.
  destruct (shr_rep ex Hn Hrep) as [Hrep' He'].
  destruct (shr (shr_record_of_loc mx lx) ex n) as [mrs' e'].
  cbn [fst snd] in Hrep', He'. subst e'.
  pose proof Hrep' as (_ & _ & Hm' & _).
  assert (Hm'' : shr_m mrs' = mx / 2 ^ n).
  { rewrite Hm', Hm. rewrite Z.div_div by lia. f_equal. ring. }
  assert (Hm'b : 2 ^ 52 <= shr_m mrs' < 2 ^ 53).
  { rewrite Hm''. split.
    - apply Z.div_le_lower_bound; lia.
    - apply Z.div_lt_upper_bound; lia. }
  destruct (round_rep Hrep') as [Herr Hk].
  set (k := round_nearest_even (shr_m mrs') (loc_of_shr_record mrs')) in *.
  assert (Hkb : 2 ^ 52 <= k <= 2 ^ 53) by lia.
  destruct (Z.eq_dec k (2 ^ 53)) as [Hcarry|Hnocarry].
  - (* the rounding carried into a 54th digit *)
    exists (4503599627370496%positive), (ex + n + 1), k, 1.
    rewrite Hcarry.
    assert (Hd : Zdigits2 (2 ^ 53) = 54) by reflexivity.
    rewrite Hd. rewrite fexp_normal by lia.
    replace (54 + (ex + n) - 53 - (ex + n)) with 1 by lia.
    cbn [shr shr_record_of_loc iter_pos].
    change (shr_m (shr_1 {| shr_m := 2 ^ 53; shr_r := false; shr_s := false |}))
      with (Zpos 4503599627370496).
    cbv iota beta.
    replace (ex + n + 1 <=? emax - prec) with true
      by (symmetry; apply Z.leb_le; unfold emax, prec; lia).
    split; [reflexivity|]. split; [split; [reflexivity | reflexivity]|].
    split; [right; reflexivity|]. split; [reflexivity|].
    split; [reflexivity|]. rewrite <- Hcarry. exact Herr.
  - (* no carry *)
    assert (Hd : Zdigits2 k = 53) by (apply Zdigits2_unique; lia).
    rewrite Hd. rewrite fexp_normal by lia.
    replace (53 + (ex + n) - 53 - (ex + n)) with 0 by lia.
    cbn [shr shr_record_of_loc shr_m].
    destruct k as [|m|m] eqn:Ek; try lia.
    exists m, (ex + n), (Zpos m), 0.
    replace (ex + n <=? emax - prec) with true
      by (symmetry; apply Z.leb_le; unfold emax, prec; lia).
    split; [reflexivity|]. split; [lia|].
    split; [left; reflexivity|]. split; [lia|].
    split; [rewrite Z.pow_0_r; lia|]. exact Herr.
Qed.

Lemma iter_xO (d p : positive) :
  Zpos (Pos.iter xO p d) = Zpos p * 2 ^ Zpos d.
Proof.
  induction d as [|d IH] using Pos.peano_ind.
  - cbn. lia.
  - rewrite Pos.iter_succ, Pos2Z.inj_xO, IH, Pos2Z.inj_succ, Z.pow_succ_r by lia.
    ring.
Qed.

(** An integer below [2^53] is a binary64 value. *)
Lemma binary_normalize_exact (a : Z) :
  0 < a < 2 ^ 53 ->
  exists m e,
    binary_normalize prec emax a 0 false = S754_finite false m e
    /\ 2 ^ 52 <= Zpos m < 2 ^ 53
    /\ -52 <= e <= 0
    /\ Zpos m = a * 2 ^ (- e).
Proof.
  intros [Hpos Hlt]. destruct a as [|pa|pa]; try lia.
  cbn [binary_normalize]. unfold binary_round.
  pose proof (digits2_pos_bounds pa) as [Hlo Hhi].
  set (d := Z.pos (digits2_pos pa)) in *.
  assert (Hd : 1 <= d <= 53).
  { split; [subst d; lia|].
    destruct (Z_le_gt_dec d 53) as [H|H]; [exact H|].
    exfalso. assert (2 ^ 53 <= 2 ^ (d - 1)) by (apply Z.pow_le_mono_r; lia). lia. }
  rewrite fexp_normal by lia.
  assert (Hal : exists mz,
             shl_align pa 0 (d + 0 - 53) = (mz, d - 53)
             /\ Zpos mz = Zpos pa * 2 ^ (53 - d)).
  { unfold shl_align. destruct (d + 0 - 53 - 0) as [|s|s] eqn:Es; try lia.
    - exists pa. assert (d = 53) by lia. split; [f_equal; lia|].
      replace (53 - d) with 0 by lia. rewrite Z.pow_0_r. lia.
    - exists (Pos.iter xO pa s). split; [f_equal; lia|].
      rewrite iter_xO. f_equal. f_equal. lia. }
  destruct Hal as [mz [-> Hmz]].
  assert (Hsplit : 2 ^ 52 = 2 ^ (d - 1) * 2 ^ (53 - d)
                   /\ 2 ^ 53 = 2 ^ d * 2 ^ (53 - d)).
  { rewrite <- !Z.pow_add_r by lia. split; f_equal; lia. }
  destruct Hsplit as [H52 H53].
  assert (Hp : 0 < 2 ^ (53 - d)) by (apply Z.pow_pos_nonneg; lia).
  assert (Hmzb : 2 ^ 52 <= Zpos mz < 2 ^ 53).
  { rewrite Hmz, H52, H53. split; [apply Z.mul_le_mono_nonneg_r | apply Z.mul_lt_mono_pos_r]; lia. }
  destruct (@binary_round_aux_rep false (Zpos mz) (d - 53) loc_Exact (Zpos mz) 1 0)
    as (m & e & k & c & Heq & Hm & Hc & He & Hk & Herr).
  - apply rep_exact. lia.
  - lia.
  - apply Zdigits2_unique; [lia|]. exact Hmzb.
  - lia.
  - lia.
  - rewrite Z.pow_0_r in Herr.
    assert (k = Zpos mz) by lia.
    assert (c = 0).
    { destruct Hc as [Hc|Hc]; [exact Hc|]. exfalso. subst c. change (2 ^ 1) with 2 in Hk. lia. }
    subst c. rewrite Z.pow_0_r in Hk.
    exists m, e. split; [exact Heq|]. split; [exact Hm|]. split; [lia|].
    replace (- e) with (53 - d) by lia. lia.
Qed.

(** [Number] of a positive count below [2^53] is that count exactly. *)
Lemma Number_finite (a : nat) :
  0 < Z.of_nat a < 2 ^ 53 ->
  exists m e,
    Prim2SF (of_uint63 (Uint63.of_Z (Z.of_nat a))) = S754_finite false m e
    /\ 2 ^ 52 <= Zpos m < 2 ^ 53
    /\ -52 <= e <= 0
    /\ Zpos m = Z.of_nat a * 2 ^ (- e).
Proof.
  intros Ha. rewrite of_uint63_spec.
  assert (Hto : Uint63.to_Z (Uint63.of_Z (Z.of_nat a)) = Z.of_nat a).
  { rewrite Uint63.of_Z_spec. apply Z.mod_small.
    split; [lia|]. apply Z.lt_trans with (2 ^ 53); [lia|]. reflexivity. }
  change Uint63Axioms.to_Z with Uint63.to_Z. rewrite Hto.
  apply binary_normalize_exact. exact Ha.
Qed.

(** Division of two positive normal values, away from overflow and
    underflow. *)
Lemma SFdiv_rep (m1 m2 : positive) (e1 e2 : Z) :
  2 ^ 52 <= Zpos m1 < 2 ^ 53 -> 2 ^ 52 <= Zpos m2 < 2 ^ 53 ->
  -1074 <= e1 - e2 - 53 -> e1 - e2 - 53 + 2 <= 971 ->
  exists m e k c n,
    SF64div (S754_finite false m1 e1) (S754_finite false m2 e2)
    = S754_finite false m e
    /\ 2 ^ 52 <= Zpos m < 2 ^ 53
    /\ (c = 0 \/ c = 1) /\ (n = 0 \/ n = 1)
    /\ e = e1 - e2 - 53 + n + c /\ Zpos m * 2 ^ c = k
    /\ - (2 ^ n * Zpos m2) <= 2 * (k * (2 ^ n * Zpos m2) - Zpos m1 * 2 ^ 53)
       <= 2 ^ n * Zpos m2.
Proof.
  intros H1 H2 Hlo Hhi.
  unfold SF64div, SFdiv, SFdiv_core_binary.
  rewrite (@Zdigits2_unique (Zpos m1) 53) by lia.
  rewrite (@Zdigits2_unique (Zpos m2) 53) by lia.
  replace (53 + e1 - (53 + e2)) with (e1 - e2) by lia.
  rewrite fexp_normal by lia.
  replace (Z.min (e1 - e2 - 53) (e1 - e2)) with (e1 - e2 - 53) by lia.
  replace (e1 - e2 - (e1 - e2 - 53)) with 53 by lia.
  cbv iota beta.
  rewrite Z.shiftl_mul_pow2 by lia.
  set (m' := Zpos m1 * 2 ^ 53).
  destruct (Z.div_eucl m' (Zpos m2)) as [q r] eqn:Hqr.
  assert (Hm' : 0 <= m') by (subst m'; lia).
  pose proof (@rep_div m' (Zpos m2) q r Hm' ltac:(lia) Hqr) as Hrep.
  assert (Hq : q = m' / Zpos m2) by (unfold Z.div; rewrite Hqr; reflexivity).
  assert (Hqb : 2 ^ 52 <= q < 2 ^ 54).
  { rewrite Hq. split.
    - apply Z.div_le_lower_bound; [lia|]. subst m'. nia.
    - apply Z.div_lt_upper_bound; [lia|]. subst m'. nia. }
  set (n := if q <? 2 ^ 53 then 0 else 1).
  assert (Hn : (n = 0 /\ q < 2 ^ 53) \/ (n = 1 /\ 2 ^ 53 <= q)).
  { subst n. destruct (Z.ltb_spec q (2 ^ 53)); [left | right]; split; (reflexivity || lia). }
  assert (Hdig : Zdigits2 q = 53 + n).
  { apply Zdigits2_unique; [lia|].
    destruct Hn as [[-> Hlt]|[-> Hge]].
    - change (53 + 0 - 1) with 52. change (53 + 0) with 53. lia.
    - change (53 + 1 - 1) with 53. change (53 + 1) with 54. lia. }
  destruct (@binary_round_aux_rep (xorb false false) q (e1 - e2 - 53)
              (new_location (Zpos m2) r) m' (Zpos m2) n Hrep)
    as (m & e & k & c & Heq & Hm & Hc & He & Hk & Herr); try lia.
  exists m, e, k, c, n. cbn [xorb] in Heq.
  split; [exact Heq|]. split; [exact Hm|]. split; [exact Hc|].
  split; [lia|]. split; [exact He|]. split; [exact Hk|]. exact Herr.
Qed.

(** Multiplication of two positive normal values, away from overflow and
    underflow. *)
Lemma SFmul_rep (m1 m2 : positive) (e1 e2 : Z) :
  2 ^ 52 <= Zpos m1 < 2 ^ 53 -> 2 ^ 52 <= Zpos m2 < 2 ^ 53 ->
  -1074 <= e1 + e2 + 52 -> e1 + e2 + 53 + 1 <= 971 ->
  exists m e k c n,
    SF64mul (S754_finite false m1 e1) (S754_finite false m2 e2)
    = S754_finite false m e
    /\ 2 ^ 52 <= Zpos m < 2 ^ 53
    /\ (c = 0 \/ c = 1) /\ (n = 52 \/ n = 53)
    /\ e = e1 + e2 + n + c /\ Zpos m * 2 ^ c = k
    /\ - 2 ^ n <= 2 * (k * 2 ^ n - Zpos m1 * Zpos m2) <= 2 ^ n.
Proof.
  intros H1 H2 Hlo Hhi.
  unfold SF64mul, SFmul.
  set (P := Zpos (m1 * m2)).
  assert (HP : P = Zpos m1 * Zpos m2) by (subst P; lia).
  assert (HPb : 2 ^ 104 <= P < 2 ^ 106).
  { rewrite HP. change (2 ^ 104) with (2 ^ 52 * 2 ^ 52).
    change (2 ^ 106) with (2 ^ 53 * 2 ^ 53). nia. }
  set (n := if P <? 2 ^ 105 then 52 else 53).
  assert (Hn : (n = 52 /\ P < 2 ^ 105) \/ (n = 53 /\ 2 ^ 105 <= P)).
  { subst n. destruct (Z.ltb_spec P (2 ^ 105)); [left | right]; split; (reflexivity || lia). }
  assert (Hdig : Zdigits2 P = 53 + n).
  { apply Zdigits2_unique; [lia|].
    destruct Hn as [[-> Hlt]|[-> Hge]].
    - change (53 + 52 - 1) with 104. change (53 + 52) with 105. lia.
    - change (53 + 53 - 1) with 105. change (53 + 53) with 106. lia. }
  destruct (@binary_round_aux_rep (xorb false false) P (e1 + e2) loc_Exact P 1 n)
    as (m & e & k & c & Heq & Hm & Hc & He & Hk & Herr); try lia.
  { apply rep_exact. lia. }
  exists m, e, k, c, n. cbn [xorb] in Heq.
  split; [exact Heq|]. split; [exact Hm|]. split; [exact Hc|].
  split; [lia|]. split; [exact He|]. split; [exact Hk|].
  rewrite Z.mul_1_r in Herr. rewrite <- HP. exact Herr.
Qed.

End Integers.

Section Rationals.
Local Open Scope Q_scope.

Lemma two_neq_0 : ~ 2 == 0.
Proof. intros H. discriminate H. Qed.

Lemma pow2_pos (e : Z) : 0 < 2 ^ e.
Proof. apply Qpower_0_lt. reflexivity. Qed.

Lemma finite_value_pos (m : positive) (e : Z) : 0 < finite_value m e.
Proof.
  unfold finite_value. apply Qmult_lt_0_compat; [|apply pow2_pos].
  change 0 with (inject_Z 0). rewrite <- Zlt_Qlt. lia.
Qed.

Lemma value_carry (m : positive) (c e k : Z) :
  (c = 0 \/ c = 1)%Z -> (Zpos m * 2 ^ c)%Z = k ->
  finite_value m (e + c) == inject_Z k * 2 ^ e.
Proof.
  intros [->| ->] <-; unfold finite_value.
  - rewrite Z.add_0_r, Z.pow_0_r, Z.mul_1_r. reflexivity.
  - rewrite Qpower_plus by exact two_neq_0.
    rewrite inject_Z_mult. change (inject_Z (2 ^ 1)) with 2.
    change (2 ^ 1) with 2. ring.
Qed.

(** From one half of a unit in the last place to a relative error of
    [2^-53]. *)
Lemma rel_err (k P D : Z) (s : Q) :
  (0 < D)%Z -> (2 ^ 52 <= k)%Z ->
  (- D <= 2 * (k * D - P) <= D)%Z -> 0 < s ->
  - (inject_Z k * s * unit_roundoff) <= inject_Z k * s - inject_Z P / inject_Z D * s
  /\ inject_Z k * s - inject_Z P / inject_Z D * s <= inject_Z k * s * unit_roundoff.
Proof.
  intros HD Hk [Hlo Hhi] Hs.
  assert (HDq : 0 < inject_Z D) by (change 0 with (inject_Z 0); rewrite <- Zlt_Qlt; exact HD).
  assert (Hkq : 4503599627370496 <= inject_Z k).
  { change 4503599627370496 with (inject_Z (2 ^ 52)). rewrite <- Zle_Qle. exact Hk. }
  assert (Hlo' : (2 * P <= 2 * (k * D) + D)%Z) by lia.
  assert (Hhi' : (2 * (k * D) <= 2 * P + D)%Z) by lia.
  clear Hlo Hhi.
  rewrite Zle_Qle in Hlo', Hhi'.
  rewrite !inject_Z_plus, !inject_Z_mult in Hlo', Hhi'.
  change (inject_Z 2) with 2 in Hlo', Hhi'.
  set (kq := inject_Z k) in *. set (Pq := inject_Z P) in *.
  set (Dq := inject_Z D) in *.
  assert (H1 : kq - (1 # 2) <= Pq / Dq).
  { apply Qle_shift_div_l; [exact HDq|]. lra. }
  assert (H2 : Pq / Dq <= kq + (1 # 2)).
  { apply Qle_shift_div_r; [exact HDq|]. lra. }
  set (rho := Pq / Dq) in *. unfold unit_roundoff. split; nra.
Qed.

Lemma inject_pow2 (n : Z) : (0 <= n)%Z -> inject_Z (2 ^ n) == 2 ^ n.
Proof. intros Hn. rewrite Zpower_Qpower by exact Hn. reflexivity. Qed.

Lemma inject_pos_neq_0 (m : positive) : ~ inject_Z (Zpos m) == 0.
Proof.
  intros H. assert (Hlt : 0 < inject_Z (Zpos m)).
  { change 0 with (inject_Z 0). rewrite <- Zlt_Qlt. lia. }
  rewrite H in Hlt. discriminate Hlt.
Qed.

Lemma pow2_neq_0 (e : Z) : ~ 2 ^ e == 0.
Proof. apply Qpower_not_0. exact two_neq_0. Qed.

Lemma exact_value (m : positive) (e : Z) (a : Z) :
  (e <= 0)%Z -> Zpos m = (a * 2 ^ (- e))%Z -> finite_value m e == inject_Z a.
Proof.
  intros He Hm. unfold finite_value. rewrite Hm, inject_Z_mult.
  rewrite inject_pow2 by lia. rewrite Qpower_opp.
  field. apply pow2_neq_0.
Qed.

(** The binary64 quotient is within [2^-53] of the exact quotient,
    relative to itself. *)
Lemma div_value (m1 m2 : positive) (e1 e2 : Z) :
  (2 ^ 52 <= Zpos m1 < 2 ^ 53)%Z -> (2 ^ 52 <= Zpos m2 < 2 ^ 53)%Z ->
  (-1074 <= e1 - e2 - 53)%Z -> (e1 - e2 - 53 + 2 <= 971)%Z ->
  exists m e,
    SF64div (S754_finite false m1 e1) (S754_finite false m2 e2)
    = S754_finite false m e
    /\ (2 ^ 52 <= Zpos m < 2 ^ 53)%Z
    /\ (e1 - e2 - 53 <= e <= e1 - e2 - 51)%Z
    /\ - (finite_value m e * unit_roundoff) <= finite_value m e - finite_value m1 e1 / finite_value m2 e2
    /\ finite_value m e - finite_value m1 e1 / finite_value m2 e2 <= finite_value m e * unit_roundoff.
Proof.
  intros H1 H2 Hlo Hhi.
  destruct (@SFdiv_rep m1 m2 e1 e2 H1 H2 Hlo Hhi)
    as (m & e & k & c & n & Heq & Hm & Hc & Hn & He & Hk & Herr).
  exists m, e. split; [exact Heq|]. split; [exact Hm|]. split; [lia|].
  assert (Hnn : (0 <= n)%Z) by lia.
  assert (Hkb : (2 ^ 52 <= k)%Z).
  { destruct Hc as [-> | ->]; rewrite <- Hk.
    - rewrite Z.pow_0_r. lia.
    - change (2 ^ 1)%Z with 2%Z. lia. }
  assert (Hpn : (0 < 2 ^ n)%Z) by (apply Z.pow_pos_nonneg; lia).
  pose proof (@rel_err k (Zpos m1 * 2 ^ 53) (2 ^ n * Zpos m2)
                (2 ^ (e1 - e2 - 53 + n)) ltac:(lia) Hkb Herr (pow2_pos _))
    as Hrel.
  assert (Hx : finite_value m e == inject_Z k * 2 ^ (e1 - e2 - 53 + n)).
  { rewrite He. apply value_carry; assumption. }
  assert (Ht : inject_Z (Zpos m1 * 2 ^ 53) / inject_Z (2 ^ n * Zpos m2)
               * 2 ^ (e1 - e2 - 53 + n)
               == finite_value m1 e1 / finite_value m2 e2).
  { unfold finite_value. rewrite !inject_Z_mult.
    rewrite (inject_pow2 Hnn), (@inject_pow2 53) by lia.
    rewrite Qpower_plus, !Qpower_minus by exact two_neq_0.
    pose proof (pow2_neq_0 e1). pose proof (pow2_neq_0 e2).
    pose proof (pow2_neq_0 n). pose proof (pow2_neq_0 53).
    pose proof (@inject_pos_neq_0 m1). pose proof (@inject_pos_neq_0 m2).
    set (p1 := 2 ^ e1) in *. set (p2 := 2 ^ e2) in *.
    set (pn := 2 ^ n) in *. set (p53 := 2 ^ 53) in *.
    field. repeat split; assumption. }
  rewrite Ht, <- Hx in Hrel. exact Hrel.
Qed.

(** The binary64 product is within [2^-53] of the exact product,
    relative to itself. *)
Lemma mul_value (m1 m2 : positive) (e1 e2 : Z) :
  (2 ^ 52 <= Zpos m1 < 2 ^ 53)%Z -> (2 ^ 52 <= Zpos m2 < 2 ^ 53)%Z ->
  (-1074 <= e1 + e2 + 52)%Z -> (e1 + e2 + 53 + 1 <= 971)%Z ->
  exists m e,
    SF64mul (S754_finite false m1 e1) (S754_finite false m2 e2)
    = S754_finite false m e
    /\ (2 ^ 52 <= Zpos m < 2 ^ 53)%Z
    /\ (e1 + e2 + 52 <= e <= e1 + e2 + 54)%Z
    /\ - (finite_value m e * unit_roundoff) <= finite_value m e - finite_value m1 e1 * finite_value m2 e2
    /\ finite_value m e - finite_value m1 e1 * finite_value m2 e2 <= finite_value m e * unit_roundoff.
Proof.
  intros H1 H2 Hlo Hhi.
  destruct (@SFmul_rep m1 m2 e1 e2 H1 H2 Hlo Hhi)
    as (m & e & k & c & n & Heq & Hm & Hc & Hn & He & Hk & Herr).
  exists m, e. split; [exact Heq|]. split; [exact Hm|]. split; [lia|].
  assert (Hnn : (0 <= n)%Z) by lia.
  assert (Hkb : (2 ^ 52 <= k)%Z).
  { destruct Hc as [-> | ->]; rewrite <- Hk.
    - rewrite Z.pow_0_r. lia.
    - change (2 ^ 1)%Z with 2%Z. lia. }
  assert (Hpn : (0 < 2 ^ n)%Z) by (apply Z.pow_pos_nonneg; lia).
  pose proof (@rel_err k (Zpos m1 * Zpos m2) (2 ^ n)
                (2 ^ (e1 + e2 + n)) Hpn Hkb Herr (pow2_pos _))
    as Hrel.
  assert (Hx : finite_value m e == inject_Z k * 2 ^ (e1 + e2 + n)).
  { rewrite He. apply value_carry; assumption. }
  assert (Ht : inject_Z (Zpos m1 * Zpos m2) / inject_Z (2 ^ n)
               * 2 ^ (e1 + e2 + n)
               == finite_value m1 e1 * finite_value m2 e2).
  { unfold finite_value. rewrite !inject_Z_mult.
    rewrite (inject_pow2 Hnn).
    rewrite !Qpower_plus by exact two_neq_0.
    pose proof (pow2_neq_0 n).
    set (p1 := 2 ^ e1) in *. set (p2 := 2 ^ e2) in *.
    set (pn := 2 ^ n) in *.
    field. assumption. }
  rewrite Ht, <- Hx in Hrel. exact Hrel.
Qed.

Lemma hundred_finite :
  Prim2SF 100%float = S754_finite false 7036874417766400 (-46).
Proof. vm_compute. reflexivity. Qed.

Lemma hundred_value : finite_value 7036874417766400 (-46) == 100.
Proof. vm_compute. reflexivity. Qed.

(** The ratio of two counts, times 100, in binary64: the result is
    finite and within a relative distance of [2^-51] of the exact
    value. *)
Lemma ratio_value (a b : nat) :
  (0 < Z.of_nat a < 2 ^ 53)%Z -> (0 < Z.of_nat b < 2 ^ 53)%Z ->
  exists m e,
    Prim2SF ((Number a / Number b) * 100)%float = S754_finite false m e
    /\ let X := finite_value m e in
       let c := inject_Z (Z.of_nat a) * / inject_Z (Z.of_nat b) in
       X * ((1 - unit_roundoff) * (1 - unit_roundoff)) <= 100 * c
       /\ 100 * c <= X * ((1 + unit_roundoff) * (1 + unit_roundoff)).
Proof.
  intros Ha Hb.
  destruct (@Number_finite a Ha) as (ma & ea & Hfa & Hma & Hea & Hva).
  destruct (@Number_finite b Hb) as (mb & eb & Hfb & Hmb & Heb & Hvb).
  fold (Number a) in Hfa. fold (Number b) in Hfb.
  destruct (@div_value ma mb ea eb Hma Hmb ltac:(lia) ltac:(lia))
    as (my & ey & Hfy & Hmy & Hey & Hy1 & Hy2).
  destruct (@mul_value my 7036874417766400 ey (-46) Hmy
              ltac:(vm_compute; split; [discriminate | reflexivity])
              ltac:(lia) ltac:(lia))
    as (mx & ex & Hfx & Hmx & Hex & Hx1 & Hx2).
  exists mx, ex. split.
  - rewrite mul_spec, div_spec, Hfa, Hfb, Hfy, hundred_finite. exact Hfx.
  - cbv zeta.
    rewrite (@exact_value ma ea (Z.of_nat a)) in Hy1, Hy2 by (lia || exact Hva).
    rewrite (@exact_value mb eb (Z.of_nat b)) in Hy1, Hy2 by (lia || exact Hvb).
    rewrite hundred_value in Hx1, Hx2.
    unfold Qdiv in Hy1, Hy2.
    set (X := finite_value mx ex) in *. set (Y := finite_value my ey) in *.
    set (c := inject_Z (Z.of_nat a) * / inject_Z (Z.of_nat b)) in *.
    unfold unit_roundoff in *. split; lra.
Qed.

(** [100 a / b] is either within one half of the integer [n], or at
    least [1 / (2 b)] beyond: twice its distance to [n], times [b], is an
    integer. *)
Lemma nearest_or_apart (a b n : Z) :
  (0 < b)%Z ->
  let A := inject_Z a in
  let B := inject_Z b in
  let N := inject_Z n in
  (N - (1 # 2) <= 100 * (A * / B) /\ 100 * (A * / B) <= N + (1 # 2))
  \/ N + (1 # 2) + (1 # 2) * / B <= 100 * (A * / B)
  \/ 100 * (A * / B) <= N - (1 # 2) - (1 # 2) * / B.
Proof.
  intros Hb A B N.
  assert (HB : 0 < B) by (subst B; change 0 with (inject_Z 0); rewrite <- Zlt_Qlt; exact Hb).
  assert (Hw : 0 < / B) by (apply Qinv_lt_0_compat; exact HB).
  assert (HBw : B * / B == 1) by (apply Qmult_inv_r; intros E; rewrite E in HB; discriminate HB).
  assert (Hscale : forall x y : Q, x <= y -> x * / B <= y * / B).
  { intros x y Hxy. apply Qmult_le_compat_r; [exact Hxy | lra]. }
  destruct (Z_le_gt_dec (200 * a) (2 * n * b + b)) as [Hle|Hgt].
  - destruct (Z_le_gt_dec (2 * n * b - b) (200 * a)) as [Hge|Hlt].
    + left.
      assert (H1 : (200 * a <= 2 * (n * b) + b)%Z) by lia.
      assert (H2 : (2 * (n * b) <= 200 * a + b)%Z) by lia.
      rewrite Zle_Qle in H1, H2.
      rewrite !inject_Z_plus, !inject_Z_mult in H1, H2.
      change (inject_Z 200) with 200 in H1, H2.
      change (inject_Z 2) with 2 in H1, H2.
      fold A B N in H1, H2.
      apply Hscale in H1, H2.
      assert (E1 : (2 * (N * B) + B) * / B == 2 * N * (B * / B) + B * / B) by ring.
      assert (E2 : (200 * A + B) * / B == 200 * (A * / B) + B * / B) by ring.
      assert (E3 : 2 * (N * B) * / B == 2 * N * (B * / B)) by ring.
      assert (E4 : 200 * A * / B == 200 * (A * / B)) by ring.
      rewrite E1, E4 in H1. rewrite E2, E3 in H2. rewrite HBw in H1, H2.
      split; lra.
    + right. right.
      assert (H1 : (200 * a + b + 1 <= 2 * (n * b))%Z) by lia.
      rewrite Zle_Qle in H1.
      rewrite !inject_Z_plus, !inject_Z_mult in H1.
      change (inject_Z 200) with 200 in H1.
      change (inject_Z 2) with 2 in H1. change (inject_Z 1) with 1 in H1.
      fold A B N in H1.
      apply Hscale in H1.
      assert (E1 : (200 * A + B + 1) * / B == 200 * (A * / B) + B * / B + / B) by ring.
      assert (E3 : 2 * (N * B) * / B == 2 * N * (B * / B)) by ring.
      rewrite E1, E3, HBw in H1. lra.
  - right. left.
    assert (H1 : (2 * (n * b) + b + 1 <= 200 * a)%Z) by lia.
    rewrite Zle_Qle in H1.
    rewrite !inject_Z_plus, !inject_Z_mult in H1.
    change (inject_Z 200) with 200 in H1.
    change (inject_Z 2) with 2 in H1. change (inject_Z 1) with 1 in H1.
    fold A B N in H1.
    apply Hscale in H1.
    assert (E1 : (2 * (N * B) + B + 1) * / B == 2 * N * (B * / B) + B * / B + / B) by ring.
    assert (E4 : 200 * A * / B == 200 * (A * / B)) by ring.
    rewrite E1, E4, HBw in H1. lra.
Qed.

(** [Math.round((a / b) * 100)] on two counts: there is a result, and it
    is an integer nearest to the exact [100 a / b]. *)
Lemma percent_nearest (a b : nat) :
  (Z.of_nat a < 2 ^ 32)%Z -> (0 < Z.of_nat b < 2 ^ 53)%Z ->
  exists n,
    Math_round ((Number a / Number b) * 100)%float = Some n
    /\ inject_Z n - (1 # 2) <= 100 * inject_Z (Z.of_nat a) / inject_Z (Z.of_nat b)
    /\ 100 * inject_Z (Z.of_nat a) / inject_Z (Z.of_nat b) <= inject_Z n + (1 # 2).
Proof.
  intros Ha Hb.
  assert (HB : 0 < inject_Z (Z.of_nat b))
    by (change 0 with (inject_Z 0); rewrite <- Zlt_Qlt; lia).
  destruct a as [|a'].
  - (* nothing completed *)
    exists 0%Z.
    destruct (@Number_finite b Hb) as (mb & eb & Hfb & _).
    fold (Number b) in Hfb.
    assert (Hx : Prim2SF ((Number 0 / Number b) * 100)%float = S754_zero false).
    { rewrite mul_spec, div_spec, Hfb, hundred_finite. reflexivity. }
    split.
    + unfold Math_round, float_value. rewrite Hx. reflexivity.
    + change (inject_Z (Z.of_nat 0)) with 0. change (inject_Z 0) with 0.
      assert (E : 100 * 0 / inject_Z (Z.of_nat b) == 0) by (unfold Qdiv; ring).
      rewrite E. split; lra.
  - set (a := S a') in *.
    assert (Ha' : (0 < Z.of_nat a < 2 ^ 53)%Z).
    { split; [subst a; lia|]. apply Z.lt_trans with (2 ^ 32)%Z; [exact Ha | reflexivity]. }
    destruct (@ratio_value a b Ha' Hb) as (m & e & Hx & Hlo & Hhi).
    cbv zeta in Hlo, Hhi.
    exists (Qfloor (finite_value m e + (1 # 2))). split.
    + unfold Math_round, float_value. rewrite Hx. reflexivity.
    + pose proof (Qfloor_le (finite_value m e + (1 # 2))) as Hfl.
      pose proof (Qlt_floor (finite_value m e + (1 # 2))) as Hfu.
      rewrite inject_Z_plus in Hfu. change (inject_Z 1) with 1 in Hfu.
      set (n := Qfloor (finite_value m e + (1 # 2))) in *.
      pose proof (finite_value_pos m e) as HX.
      set (X := finite_value m e) in *.
      set (A := inject_Z (Z.of_nat a)) in *.
      set (B := inject_Z (Z.of_nat b)) in *.
      assert (Hw : 0 < / B) by (apply Qinv_lt_0_compat; exact HB).
      assert (HAq : A <= 4294967296).
      { subst A. change 4294967296 with (inject_Z (2 ^ 32)).
        rewrite <- Zle_Qle. lia. }
      assert (HA0 : 0 <= A).
      { subst A. change 0 with (inject_Z 0). rewrite <- Zle_Qle. lia. }
      (* the rounding error is far below the gap 1/(2b) *)
      assert (Hgap : (A * / B) * (1 # 1099511627776) <= / B).
      { assert (E : A * / B * (1 # 1099511627776)
                    == (A * (1 # 1099511627776)) * / B) by ring.
        rewrite E. rewrite <- (Qmult_1_l (/ B)) at 2.
        apply Qmult_le_compat_r; lra. }
      assert (Hc0 : 0 <= A * / B) by (apply Qmult_le_0_compat; lra).
      unfold Qdiv.
      assert (E : 100 * A * / B == 100 * (A * / B)) by ring.
      rewrite E.
      destruct (@nearest_or_apart (Z.of_nat a) (Z.of_nat b) n ltac:(lia))
        as [Hmid|[Hup|Hdown]];
        [fold A B in Hmid | fold A B in Hup | fold A B in Hdown].
      * exact Hmid.
      * exfalso. set (c := A * / B) in *. set (w := / B) in *.
        unfold unit_roundoff in *. lra.
      * exfalso. set (c := A * / B) in *. set (w := / B) in *.
        unfold unit_roundoff in *. lra.
Qed.

End Rationals.

End Binary64Facts.

(** ** RoadmapView *)

Module RoadmapViewProofs.
Import JS JSFacts Binary64Facts RoadmapView.
Local Open Scope string_scope.

Lemma is_current_target_spec (p : ProgressRecord) (c l : string) :
  is_current_target (Some p) c l = true <-> is_current p c l.
Proof.
  unfold is_current_target, is_current.
  rewrite andb_true_iff, !strict_eq_true. tauto.
Qed.

Lemma isLessonCompleted_spec (p : ProgressRecord) (c l : string) :
  isLessonCompleted (Some p) c l = true <->
  exists done, completed_lessons p = Some done /\ In (lesson_id c l) done.
Proof.
  unfold isLessonCompleted. destruct (completed_lessons p) as [done|].
  - rewrite includes_In. split.
    + intros H. exists done. split; [reflexivity | exact H].
    + intros [done' [Heq Hin]]. injection Heq as ->. exact Hin.
  - split; [discriminate|]. intros [done [Heq _]]. discriminate.
Qed.

Lemma is_first_spec (r : Roadmap) (c l : string) :
  is_first r c l = true <-> first_lesson r = Some (c, l).
Proof.
  unfold is_first. destruct (first_lesson r) as [[c0 l0]|].
  - rewrite andb_true_iff, !String.eqb_eq. split.
    + intros [-> ->]. reflexivity.
    + intros H. injection H as -> ->. tauto.
  - split; discriminate.
Qed.

(** What [isLessonUnlocked] computes once steps 1 and 2 have failed: the
    lookup of the first chapter never misses, so step 3 does not throw. *)
Lemma isLessonUnlocked_fallback (r : Roadmap) (p : ProgressRecord)
    (c l : string) :
  isLessonCompleted (Some p) c l = false ->
  is_current_target (Some p) c l = false ->
  isLessonUnlocked (Some r) (Some p) c l =
  Normal (strict_eq (status p) (Some "not_started") && is_first r c l).
Proof.
  intros Hdone Hcur. unfold isLessonUnlocked. rewrite Hdone, Hcur.
  destruct (strict_eq (status p) (Some "not_started")); [|reflexivity].
  unfold is_first.
  destruct r as [|[c0 ls] rest]; [reflexivity|].
  cbn [Object_keys map fst hd_error strict_eq andb].
  destruct (String.eqb_spec c c0) as [->|Hne].
  - rewrite get_here. cbn [Object_keys_of bind].
    destruct ls as [|[l0 d0] lrest]; cbn [first_lesson]; [reflexivity|].
    rewrite String.eqb_refl. reflexivity.
  - destruct ls as [|[l0 d0] lrest]; cbn [first_lesson].
    + reflexivity.
    + destruct (String.eqb_spec c c0); [contradiction | reflexivity].
Qed.

Lemma isLessonUnlocked_total (roadmap : option Roadmap)
    (progress : option ProgressRecord) (c l : string) :
  exists b, isLessonUnlocked roadmap progress c l = Normal b.
Proof.
  destruct (isLessonCompleted progress c l) eqn:Hdone.
  { exists true. unfold isLessonUnlocked. rewrite Hdone. reflexivity. }
  destruct (is_current_target progress c l) eqn:Hcur.
  { exists true. unfold isLessonUnlocked. rewrite Hdone, Hcur. reflexivity. }
  destruct progress as [p|], roadmap as [r|].
  - rewrite isLessonUnlocked_fallback by assumption. eauto.
  - exists false. unfold isLessonUnlocked. rewrite Hdone, Hcur. reflexivity.
  - exists false. unfold isLessonUnlocked. rewrite Hdone, Hcur. reflexivity.
  - exists false. unfold isLessonUnlocked. rewrite Hdone, Hcur. reflexivity.
Qed.

Lemma empty_progress_not_completed (p : ProgressRecord) (c l : string) :
  completedCount (Some p) = 0 -> isLessonCompleted (Some p) c l = false.
Proof.
  unfold completedCount, isLessonCompleted.
  destruct (completed_lessons p) as [[|x done]|]; simpl;
    [reflexivity | discriminate | reflexivity].
Qed.

Lemma totalLessons_lesson_count (r : Roadmap) :
  totalLessons r = lesson_count r.
Proof.
  unfold totalLessons, lesson_count, Object_values, Object_keys.
  assert (H : forall acc,
             fold_left (fun a curr => a + List.length (map fst curr))
                       (map snd r) acc
             = acc + list_sum (map (fun ch => List.length (snd ch)) r)).
  { induction r as [|[c ls] r IH]; intros acc; simpl.
    - lia.
    - rewrite IH, length_map. lia. }
  apply H.
Qed.

(** C2. Whatever the current chapter, the current lesson and the status of
    the progress record are, and whatever the roadmap is, a lesson whose
    identifier ["chapter: lesson"] is in the completed list is reported
    completed by [isLessonCompleted] and unlocked by [isLessonUnlocked]. *)
Theorem completed_lesson_is_reported (roadmap : option Roadmap)
    (done : list string) (cur_chapter cur_lesson st : option string)
    (c l : string) :
  In (lesson_id c l) done ->
  let p := mkProgress (Some done) cur_chapter cur_lesson st in
  isLessonCompleted (Some p) c l = true /\
  isLessonUnlocked roadmap (Some p) c l = Normal true.
Proof.
  intros Hin p.
  assert (Hdone : isLessonCompleted (Some p) c l = true).
  { apply isLessonCompleted_spec. exists done. split; [reflexivity | exact Hin]. }
  split; [exact Hdone|].
  unfold isLessonUnlocked. rewrite Hdone. reflexivity.
Qed.

Lemma completed_lesson_is_reported_witness :
  isLessonCompleted (Some one_completed) "A" "L1" = true /\
  isLessonUnlocked (Some chapter_without_lessons) (Some one_completed)
                   "A" "L1" = Normal true.
Proof.
  apply (completed_lesson_is_reported (Some chapter_without_lessons)
           ["A: L1"] (Some "A") (Some "L1") (Some "in_progress") "A" "L1").
  simpl. left. reflexivity.
Defined.

(** C1, as stated, fails: with status [not_started] the first lesson of
    the first chapter is unlocked although progress exists (a completed
    lesson and a current pair are recorded) and the lesson is neither
    completed nor current. *)
Lemma unlock_rule_as_stated_fails :
  ~ unlock_rule_as_stated three_lessons not_started_with_progress "A" "L1".
Proof.
  unfold unlock_rule_as_stated. intros H.
  specialize (H eq_refl). destruct H as [H _].
  specialize (H eq_refl).
  destruct H as [[Hc Hl] | [_ [[Hcount _] _]]]; discriminate.
Qed.

(** C1, amended. For a lesson that is not completed, [isLessonUnlocked]
    answers [true] exactly when the lesson is the current (chapter, lesson)
    pair of the progress record or the status is [not_started] and the
    lesson is the first lesson of the first chapter; the status alone
    decides the second case. In particular, with an empty progress record
    of status [not_started] and a roadmap whose first chapter has a first
    lesson, that lesson is unlocked and every other one is locked. *)
Theorem unlock_rule :
  (forall (r : Roadmap) (p : ProgressRecord) (c l : string),
      isLessonCompleted (Some p) c l = false ->
      (isLessonUnlocked (Some r) (Some p) c l = Normal true <->
       is_current p c l \/
       (status p = Some "not_started" /\ first_lesson r = Some (c, l))))
  /\
  (forall (r : Roadmap) (p : ProgressRecord) (c0 l0 : string),
      status p = Some "not_started" ->
      progress_is_empty p ->
      first_lesson r = Some (c0, l0) ->
      forall c l,
        isLessonUnlocked (Some r) (Some p) c l =
        Normal (String.eqb c c0 && String.eqb l l0)).
Proof.
  split.
  - intros r p c l Hdone.
    destruct (is_current_target (Some p) c l) eqn:Hcur.
    + assert (Hc : is_current p c l) by (apply is_current_target_spec; exact Hcur).
      unfold isLessonUnlocked. rewrite Hdone, Hcur. tauto.
    + rewrite isLessonUnlocked_fallback by assumption.
      assert (Hc : ~ is_current p c l).
      { intros Hc. apply is_current_target_spec in Hc. congruence. }
      rewrite <- is_first_spec, <- (strict_eq_true (status p)).
      rewrite <- andb_true_iff.
      split.
      * intros H. right. congruence.
      * intros [H|H]; [contradiction | congruence].
  - intros r p c0 l0 Hst [Hcount [Hcc Hcl]] Hfirst c l.
    rewrite isLessonUnlocked_fallback.
    + rewrite Hst, strict_eq_refl. unfold is_first. rewrite Hfirst. reflexivity.
    + apply empty_progress_not_completed. exact Hcount.
    + unfold is_current_target. rewrite Hcc. reflexivity.
Qed.

(** Why the first chapter must have a lesson: when it has none, nothing is
    unlocked for a new topic, even if a later chapter has lessons. *)
Example empty_first_chapter_unlocks_nothing (c l : string) :
  isLessonUnlocked (Some [("A", []); ("B", [("L1", "first")])])
                   (Some fresh_progress) c l = Normal false.
Proof.
  rewrite isLessonUnlocked_fallback by reflexivity.
  reflexivity.
Qed.

Lemma unlock_rule_witness :
  (isLessonUnlocked (Some three_lessons) (Some not_started_with_progress)
                    "A" "L3" = Normal true <->
   is_current not_started_with_progress "A" "L3" \/
   (status not_started_with_progress = Some "not_started" /\
    first_lesson three_lessons = Some ("A", "L3")))
  /\
  (forall c l,
      isLessonUnlocked (Some three_lessons) (Some fresh_progress) c l =
      Normal (String.eqb c "A" && String.eqb l "L1")).
Proof.
  split.
  - apply (proj1 unlock_rule three_lessons not_started_with_progress "A" "L3").
    reflexivity.
  - apply (proj2 unlock_rule three_lessons fresh_progress "A" "L1").
    + reflexivity.
    + repeat split.
    + reflexivity.
Defined.

(** C3. [isLessonUnlocked] never throws, whatever the roadmap and the
    progress record are (either may even be missing). A lesson that is not
    completed and matches neither the current pair nor the bootstrap case
    is reported locked; in particular, when the progress record is stale
    (its current pair names no lesson of the roadmap), a lesson of the
    roadmap that is neither completed nor the bootstrap lesson is locked. *)
Theorem unlock_never_throws_and_defaults_to_locked :
  (forall (roadmap : option Roadmap) (progress : option ProgressRecord)
          (c l : string),
      exists b, isLessonUnlocked roadmap progress c l = Normal b)
  /\
  (forall (r : Roadmap) (p : ProgressRecord) (c l : string),
      isLessonCompleted (Some p) c l = false ->
      ~ is_current p c l ->
      ~ (status p = Some "not_started" /\ first_lesson r = Some (c, l)) ->
      isLessonUnlocked (Some r) (Some p) c l = Normal false)
  /\
  (forall (r : Roadmap) (p : ProgressRecord) (c l : string),
      stale r p ->
      lesson_in r c l ->
      isLessonCompleted (Some p) c l = false ->
      ~ (status p = Some "not_started" /\ first_lesson r = Some (c, l)) ->
      isLessonUnlocked (Some r) (Some p) c l = Normal false).
Proof.
  assert (Hdefault :
    forall (r : Roadmap) (p : ProgressRecord) (c l : string),
      isLessonCompleted (Some p) c l = false ->
      ~ is_current p c l ->
      ~ (status p = Some "not_started" /\ first_lesson r = Some (c, l)) ->
      isLessonUnlocked (Some r) (Some p) c l = Normal false).
  { intros r p c l Hdone Hcur Hboot.
    rewrite isLessonUnlocked_fallback.
    - destruct (strict_eq (status p) (Some "not_started")) eqn:Hst;
        [|reflexivity].
      destruct (is_first r c l) eqn:Hfirst; [|reflexivity].
      exfalso. apply Hboot. split.
      + apply strict_eq_true. exact Hst.
      + apply is_first_spec. exact Hfirst.
    - exact Hdone.
    - destruct (is_current_target (Some p) c l) eqn:Ht; [|reflexivity].
      exfalso. apply Hcur. apply is_current_target_spec. exact Ht. }
  split; [exact isLessonUnlocked_total|].
  split; [exact Hdefault|].
  intros r p c l Hstale Hin Hdone Hboot.
  apply Hdefault; try assumption.
  intros Hcur. exact (Hstale c l Hcur Hin).
Qed.

Lemma unlock_never_throws_and_defaults_to_locked_witness :
  isLessonUnlocked (Some three_lessons) (Some stale_progress) "A" "L2"
  = Normal false.
Proof.
  apply (proj2 (proj2 unlock_never_throws_and_defaults_to_locked)
           three_lessons stale_progress "A" "L2").
  - intros cc cl [Hc Hl] [ls [Hget Hin]].
    cbn in Hc. injection Hc as <-. cbn in Hget. discriminate Hget.
  - exists [("L1", "first"); ("L2", "second"); ("L3", "third")].
    split; [reflexivity | cbn; tauto].
  - reflexivity.
  - intros [Hst _]. discriminate Hst.
Defined.

(** C4, as stated, fails in the zero-total case: a roadmap whose only
    chapter has no lesson passes the early return for an empty roadmap,
    and a progress record left over with one completed identifier then
    gives [Math.round((1 / 1) * 100) = 100], not [0]. *)
Lemma zero_total_gives_zero_fails :
  ~ zero_total_gives_zero chapter_without_lessons one_completed.
Proof.
  unfold zero_total_gives_zero. intros H.
  specialize (H eq_refl). vm_compute in H. discriminate H.
Qed.

(** C4, amended. Take a progress record with fewer than [2^32] completed
    identifiers (an array is never longer) and a roadmap with fewer than
    [2^53] lessons (counts are exact below). Then the overall percentage
    exists, there is no division by zero, and it is an integer nearest to
    the exact quotient [100 * completed / max(1, total)], where
    [completed] is the number of completed identifiers of the record and
    [total] the number of lessons summed over the chapters. When the
    total is zero the result is [100 * completed]: zero only when no
    identifier is recorded as completed. *)
Theorem progress_percent_formula (r : Roadmap)
    (progress : option ProgressRecord) :
  (Z.of_nat (List.length (completed_identifiers progress)) < 2 ^ 32)%Z ->
  (Z.of_nat (lesson_count r) < 2 ^ 53)%Z ->
  exists n : Z,
    progressPercent r progress = Some n
    /\ nearest_integer n
         (100 * inject_Z (Z.of_nat (List.length (completed_identifiers progress)))
          / inject_Z (Z.of_nat (Nat.max 1 (lesson_count r))))%Q
    /\ (lesson_count r = 0 ->
        n = (100 * Z.of_nat (List.length (completed_identifiers progress)))%Z).
Proof.
  intros Hcount Htotal.
  assert (Hc : completedCount progress
               = List.length (completed_identifiers progress)).
  { destruct progress as [[[done|] cc cl st]|]; reflexivity. }
  assert (Hmax : (0 < Z.of_nat (Nat.max 1 (lesson_count r)) < 2 ^ 53)%Z).
  { split; [lia|]. destruct (Nat.max_spec 1 (lesson_count r)) as [[_ ->]|[_ ->]];
      [exact Htotal | reflexivity]. }
  destruct (@percent_nearest
              (List.length (completed_identifiers progress))
              (Nat.max 1 (lesson_count r)) Hcount Hmax)
    as [n [Hn [Hlo Hhi]]].
  exists n. split; [|split].
  - unfold progressPercent, progressRatio, Math_max.
    rewrite totalLessons_lesson_count, Hc. exact Hn.
  - split; assumption.
  - intros Hzero. rewrite Hzero in Hlo, Hhi. cbn [Nat.max] in Hlo, Hhi.
    set (k := Z.of_nat (List.length (completed_identifiers progress))) in *.
    assert (E : (100 * inject_Z k / inject_Z (Z.of_nat 1) == inject_Z (100 * k))%Q).
    { rewrite inject_Z_mult. change (inject_Z (Z.of_nat 1)) with 1%Q.
      change (inject_Z 100) with 100%Q. field. }
    rewrite E in Hlo, Hhi.
    assert (H1 : (inject_Z (2 * n) <= inject_Z (2 * (100 * k) + 1))%Q).
    { rewrite inject_Z_plus, !inject_Z_mult.
      change (inject_Z 2) with 2%Q. change (inject_Z 1) with 1%Q.
      rewrite inject_Z_mult in Hlo. lra. }
    assert (H2 : (inject_Z (2 * (100 * k)) <= inject_Z (2 * n + 1))%Q).
    { rewrite inject_Z_plus, !inject_Z_mult.
      change (inject_Z 2) with 2%Q. change (inject_Z 1) with 1%Q.
      rewrite inject_Z_mult in Hhi. lra. }
    rewrite <- Zle_Qle in H1, H2. lia.
Qed.

Lemma progress_percent_formula_witness :
  exists n : Z,
    progressPercent three_lessons (Some not_started_with_progress) = Some n
    /\ nearest_integer n (100 * inject_Z 1 / inject_Z 3)%Q
    /\ (lesson_count three_lessons = 0 -> n = 100%Z).
Proof.
  apply (@progress_percent_formula three_lessons
           (Some not_started_with_progress));
    vm_compute; reflexivity.
Defined.

(** The percentage at a tie of the exact quotient: 29 completed out of 200
    is 14.5 percent exactly, the binary64 product is just below, and the
    result is 14. *)
Example progress_percent_29_of_200 :
  Math_round ((Number 29 / Number (Math_max 1 200)) * 100)%float = Some 14%Z.
Proof. vm_compute. reflexivity. Qed.

End RoadmapViewProofs.

(** ** LessonView *)

Module LessonViewProofs.
Import JS LessonView.

Lemma handleOptionSelect_unanswered (idx : Z) (s : State) :
  isAnswered s = false ->
  handleOptionSelect idx s =
  mkState (mode s) (currentQuestionIdx s) (Some idx) false (isCorrect s).
Proof. intros H. unfold handleOptionSelect. rewrite H. reflexivity. Qed.

Lemma handleOptionSelect_answered (idx : Z) (s : State) :
  isAnswered s = true -> handleOptionSelect idx s = s.
Proof. intros H. unfold handleOptionSelect. rewrite H. reflexivity. Qed.

Lemma handleSubmitAnswer_selected (content : LessonContent) (s : State)
    (i : Z) (q : Question) :
  selectedOption s = Some i ->
  nth_error (questions content) (currentQuestionIdx s) = Some q ->
  handleSubmitAnswer content s =
  Normal (mkState (mode s) (currentQuestionIdx s) (Some i) true
                  (i =? correct_option_index q)%Z).
Proof.
  intros Hsel Hq. unfold handleSubmitAnswer. rewrite Hsel, Hq. reflexivity.
Qed.

(** While the question index is inside the list of questions, no handler
    throws and the index stays inside. *)
Lemma step_in_range (content : LessonContent) (s : State) (e : Event) :
  currentQuestionIdx s < List.length (questions content) ->
  exists s', step content s e = Normal s' /\
             currentQuestionIdx s' < List.length (questions content).
Proof.
  intros Hs. destruct e as [|i| |]; cbn [step].
  - eexists. split; [reflexivity | exact Hs].
  - eexists. split; [reflexivity|].
    unfold handleOptionSelect. destruct (isAnswered s); exact Hs.
  - unfold handleSubmitAnswer. destruct (selectedOption s) as [sel|].
    + destruct (nth_error (questions content) (currentQuestionIdx s))
        as [q|] eqn:Hq.
      * eexists. split; [reflexivity | exact Hs].
      * apply nth_error_None in Hq. lia.
    + eexists. split; [reflexivity | exact Hs].
  - eexists. split; [reflexivity|].
    unfold handleNextQuestion, len.
    destruct (Z.ltb_spec (Z.of_nat (currentQuestionIdx s))
                (Z.of_nat (List.length (questions content)) - 1));
      cbn; lia.
Qed.

Lemma run_in_range (content : LessonContent) (es : list Event) (s : State) :
  currentQuestionIdx s < List.length (questions content) ->
  exists s', run content s es = Normal s' /\
             currentQuestionIdx s' < List.length (questions content).
Proof.
  revert s. induction es as [|e es IH]; intros s Hs.
  - exists s. split; [reflexivity | exact Hs].
  - cbn [run].
    destruct (step_in_range content s e Hs) as [s1 [Hs1 Hlt]].
    rewrite Hs1. cbn [bind]. apply IH. exact Hlt.
Qed.

(** In a lesson with at least one question the quiz handlers never throw,
    whatever the user does and in whatever order. *)
Lemma quiz_never_throws (content : LessonContent) (es : list Event) :
  questions content <> [] ->
  exists s', run content initial es = Normal s' /\
             currentQuestionIdx s' < List.length (questions content).
Proof.
  intros Hne. apply run_in_range.
  destruct (questions content); [contradiction | cbn; lia].
Qed.

Lemma quiz_never_throws_witness :
  exists s',
    run two_questions initial
        [StartQuiz; Select 1%Z; Submit; Next; Select 0%Z; Submit; Next]
      = Normal s' /\
    currentQuestionIdx s' < List.length (questions two_questions).
Proof.
  apply (quiz_never_throws two_questions
           [StartQuiz; Select 1%Z; Submit; Next; Select 0%Z; Submit; Next]).
  discriminate.
Defined.

(** C5. Submitting without a selection leaves the state as it is. With
    the current question [q] at hand, submitting with option [i] selected
    sets [isAnswered] and makes [isCorrect] the result of the equality test
    of [i] against the correct option index of [q], nothing else changing.
    Selecting any option once [isAnswered] holds changes nothing. So
    selecting [i] and submitting, from an unanswered state, ends in a state
    that later selections do not change. *)
Theorem quiz_answer_submission (content : LessonContent) (s : State) :
  (selectedOption s = None -> handleSubmitAnswer content s = Normal s)
  /\
  (forall i q,
     selectedOption s = Some i ->
     nth_error (questions content) (currentQuestionIdx s) = Some q ->
     exists s', handleSubmitAnswer content s = Normal s' /\
       isAnswered s' = true /\
       isCorrect s' = (i =? correct_option_index q)%Z /\
       (isCorrect s' = true <-> i = correct_option_index q) /\
       selectedOption s' = Some i /\
       currentQuestionIdx s' = currentQuestionIdx s /\ mode s' = mode s)
  /\
  (forall j, isAnswered s = true -> handleOptionSelect j s = s)
  /\
  (forall i q,
     isAnswered s = false ->
     nth_error (questions content) (currentQuestionIdx s) = Some q ->
     exists s', handleSubmitAnswer content (handleOptionSelect i s) = Normal s' /\
       isAnswered s' = true /\
       isCorrect s' = (i =? correct_option_index q)%Z /\
       forall j, handleOptionSelect j s' = s').
Proof.
  split; [|split; [|split]].
  - intros Hnone. unfold handleSubmitAnswer. rewrite Hnone. reflexivity.
  - intros i q Hsel Hq. eexists. split.
    + apply handleSubmitAnswer_selected; eassumption.
    + cbn. rewrite Z.eqb_eq. tauto.
  - intros j Hans. apply handleOptionSelect_answered. exact Hans.
  - intros i q Hun Hq. eexists. split.
    + rewrite handleOptionSelect_unanswered by exact Hun.
      apply handleSubmitAnswer_selected; [reflexivity | exact Hq].
    + cbn. split; [reflexivity|]. split; [reflexivity|].
      intros j. reflexivity.
Qed.

Lemma quiz_answer_submission_witness :
  exists s',
    handleSubmitAnswer two_questions
      (handleOptionSelect 1 (startQuiz initial)) = Normal s' /\
    isAnswered s' = true /\
    isCorrect s' = (1 =? 1)%Z /\
    forall j, handleOptionSelect j s' = s'.
Proof.
  apply (proj2 (proj2 (proj2
           (quiz_answer_submission two_questions (startQuiz initial))))
           1%Z (mkQuestion "q1" ["a"; "b"; "c"]%string 1 "because")).
  - reflexivity.
  - reflexivity.
Defined.

(** C6. [handleNextQuestion], in an answered state as in any other: when
    a further question remains, the question index goes up by one, the
    per-question state is the unanswered one and the mode is kept; when
    none remains (the question was the last one), the mode becomes
    [completed] and nothing else changes. *)
Theorem next_question_advances_or_completes (content : LessonContent)
    (s : State) :
  (currentQuestionIdx s + 1 < List.length (questions content) ->
   handleNextQuestion content s =
   mkState (mode s) (currentQuestionIdx s + 1) None false false /\
   unanswered (handleNextQuestion content s))
  /\
  (List.length (questions content) <= currentQuestionIdx s + 1 ->
   handleNextQuestion content s =
   mkState completed (currentQuestionIdx s) (selectedOption s)
           (isAnswered s) (isCorrect s)).
Proof.
  unfold handleNextQuestion, len. split; intros H.
  - destruct (Z.ltb_spec (Z.of_nat (currentQuestionIdx s))
                (Z.of_nat (List.length (questions content)) - 1)); [|lia].
    split; [reflexivity|]. unfold unanswered. cbn. tauto.
  - destruct (Z.ltb_spec (Z.of_nat (currentQuestionIdx s))
                (Z.of_nat (List.length (questions content)) - 1)); [lia|].
    reflexivity.
Qed.

Lemma next_question_advances_or_completes_witness :
  (handleNextQuestion two_questions first_answered
     = mkState quiz (0 + 1) None false false /\
   unanswered (handleNextQuestion two_questions first_answered))
  /\
  handleNextQuestion two_questions last_answered
    = mkState completed 1 (Some 1%Z) true false.
Proof.
  split.
  - apply (proj1 (next_question_advances_or_completes two_questions
                    first_answered)).
    cbn. lia.
  - apply (proj2 (next_question_advances_or_completes two_questions
                    last_answered)).
    cbn. lia.
Defined.

End LessonViewProofs.

(** ** Property order *)

Module PropertyOrderFacts.
Import JS RoadmapView PropertyOrder.
Local Open Scope string_scope.

Lemma get_gives_entry {V} (o : Obj V) (k : string) (v : V) :
  get o k = Some v -> In (k, v) o.
Proof.
  induction o as [|[k' v'] o IH]; simpl; [discriminate|].
  destruct (String.eqb_spec k' k) as [->|_].
  - intros H. injection H as ->. left. reflexivity.
  - intros H. right. apply IH. exact H.
Qed.

Lemma entry_gives_get {V} (o : Obj V) (k : string) (v : V) :
  wf_obj o -> In (k, v) o -> get o k = Some v.
Proof.
  unfold wf_obj, Object_keys.
  induction o as [|[k' v'] o IH]; simpl; intros Hnd Hin; [contradiction|].
  inversion Hnd as [|x xs Hfresh Hnd']; subst.
  destruct Hin as [Heq|Hin].
  - injection Heq as -> ->. rewrite String.eqb_refl. reflexivity.
  - destruct (String.eqb_spec k' k) as [->|_].
    + exfalso. apply Hfresh. apply in_map_iff. exists (k, v). auto.
    + apply IH; assumption.
Qed.

Lemma place_permutation {V} (n : N) (kv : string * V)
    (sorted : list (N * (string * V))) :
  Permutation (map snd (place n kv sorted)) (kv :: map snd sorted).
Proof.
  induction sorted as [|[m kv'] sorted IH]; cbn [place map snd].
  - apply Permutation_refl.
  - destruct (n <? m)%N; cbn [map snd].
    + apply Permutation_refl.
    + eapply perm_trans; [apply perm_skip; exact IH | apply perm_swap].
Qed.

(** [Object.keys] lists every property once: the enumeration is a
    rearrangement of the properties created. *)
Lemma enumerated_permutation {V} (created : list (string * V)) :
  Permutation (enumerated created) created.
Proof.
  unfold enumerated.
  induction created as [|kv rest IH]; cbn [indexed named filter map app].
  - apply Permutation_refl.
  - destruct (array_index (fst kv)) as [n|].
    + eapply perm_trans.
      * apply Permutation_app_tail. apply place_permutation.
      * cbn [app]. apply perm_skip. exact IH.
    + apply Permutation_sym, Permutation_cons_app, Permutation_sym. exact IH.
Qed.

Lemma enumerated_wf {V} (created : list (string * V)) :
  wf_obj created -> wf_obj (enumerated created).
Proof.
  unfold wf_obj, Object_keys. intros Hnd.
  eapply Permutation_NoDup; [|exact Hnd].
  apply Permutation_sym, Permutation_map, enumerated_permutation.
Qed.

Lemma enumerated_In {V} (created : list (string * V)) (kv : string * V) :
  In kv (enumerated created) <-> In kv created.
Proof.
  split; apply Permutation_in;
    [|apply Permutation_sym]; apply enumerated_permutation.
Qed.

(** Without an array index among the names, creation order it is. *)
Lemma enumerated_plain {V} (created : list (string * V)) :
  (forall kv, In kv created -> array_index (fst kv) = None) ->
  enumerated created = created.
Proof.
  intros Hplain.
  assert (H : indexed created = [] /\ named created = created).
  { induction created as [|kv rest IH]; cbn [indexed named filter];
      [split; reflexivity|].
    rewrite (Hplain kv) by (left; reflexivity).
    destruct IH as [Hi Hn]; [intros kv' Hin; apply Hplain; right; exact Hin|].
    split; [exact Hi|]. f_equal. exact Hn. }
  unfold enumerated. destruct H as [-> ->]. reflexivity.
Qed.

Lemma received_wf (created : Created) :
  wf_roadmap created -> wf_roadmap (received created).
Proof.
  intros [Hchapters Hlessons]. unfold received. split.
  - apply enumerated_wf. unfold wf_obj, Object_keys in *.
    rewrite map_map. cbn [fst]. exact Hchapters.
  - intros c ls Hin. apply (proj1 (enumerated_In _ _)) in Hin.
    apply in_map_iff in Hin. destruct Hin as [[c' ls'] [Heq Hin]].
    cbn [fst snd] in Heq. injection Heq as <- <-.
    apply enumerated_wf. apply (Hlessons c'). exact Hin.
Qed.

Lemma received_lesson_in (created : Created) (c l : string) :
  wf_roadmap created -> lesson_in created c l ->
  lesson_in (received created) c l.
Proof.
  intros Hwf [ls [Hget Hl]].
  exists (enumerated ls). split.
  - apply entry_gives_get; [apply (proj1 (received_wf Hwf))|].
    unfold received. apply (proj2 (enumerated_In _ _)). apply in_map_iff.
    exists (c, ls). split; [reflexivity|]. apply get_gives_entry. exact Hget.
  - unfold Object_keys in *. apply in_map_iff in Hl.
    destruct Hl as [kv [Hk Hin]]. apply in_map_iff. exists kv.
    split; [exact Hk|]. apply (proj2 (enumerated_In _ _)). exact Hin.
Qed.

Lemma received_plain (created : Created) :
  plain_titles created -> received created = created.
Proof.
  intros Hplain. unfold received.
  assert (Hsame : map (fun ch => (fst ch, enumerated (snd ch))) created
                  = created).
  { rewrite <- (map_id created) at 2. apply map_ext_in.
    intros [c ls] Hin. cbn [fst snd]. f_equal.
    apply enumerated_plain. intros [l d] Hl.
    apply (proj2 (Hplain c ls Hin)). apply in_map_iff.
    exists (l, d). split; [reflexivity | exact Hl]. }
  rewrite Hsame. apply enumerated_plain.
  intros [c ls] Hin. cbn [fst]. apply (proj1 (Hplain c ls Hin)).
Qed.

End PropertyOrderFacts.

(** ** Dashboard *)

Module DashboardProofs.
Import JS JSFacts PropertyOrder PropertyOrderFacts Dashboard.

Lemma NoDup_app_fresh (A : Type) (pre : list A) (x : A) (post : list A) :
  NoDup (pre ++ x :: post) -> ~ In x pre /\ ~ In x post.
Proof.
  intros H. apply NoDup_remove_2 in H.
  split; intros Hin; apply H; apply in_or_app; [left | right]; exact Hin.
Qed.

Lemma Object_keys_app {V} (a b : Obj V) :
  Object_keys (a ++ b) = (Object_keys a ++ Object_keys b)%list.
Proof. apply map_app. Qed.

Lemma len_app (A : Type) (a b : list A) : len (a ++ b) = (len a + len b)%Z.
Proof. unfold len. rewrite length_app. lia. Qed.

Lemma len_cons (A : Type) (x : A) (b : list A) : len (x :: b) = (1 + len b)%Z.
Proof. unfold len. cbn [List.length]. lia. Qed.

Lemma len_nonneg (A : Type) (a : list A) : (0 <= len a)%Z.
Proof. unfold len. lia. Qed.

Lemma at_index_next (A : Type) (pre : list A) (x y : A) (post : list A) :
  at_index (pre ++ x :: y :: post) (len pre + 1) = Some y.
Proof.
  replace (pre ++ x :: y :: post)%list with ((pre ++ [x]) ++ y :: post)%list
    by (rewrite <- app_assoc; reflexivity).
  replace (len pre + 1)%Z with (len (pre ++ [x])%list)
    by (rewrite len_app, len_cons; unfold len; cbn; lia).
  apply at_index_app.
Qed.

(** The chapter is not a key of the roadmap: the position is held. *)
Lemma resolveNext_unknown_chapter (r : RoadmapView.Roadmap)
    (cur : CurrentLesson) :
  ~ In (chapter cur) (Object_keys r) ->
  resolveNext r cur = Normal (Some (chapter cur), Some (lesson cur)).
Proof.
  intros Hnot. unfold resolveNext.
  rewrite indexOf_absent by exact Hnot. reflexivity.
Qed.

(** The three cases of the resolution at a lesson of the roadmap. *)
Lemma resolveNext_located (r : RoadmapView.Roadmap) (t : option string)
    (c l d : string) (pre post : RoadmapView.Roadmap)
    (lpre lpost : RoadmapView.Lessons) :
  wf_obj r ->
  wf_obj (lpre ++ (l, d) :: lpost)%list ->
  located r c l pre lpre d lpost post ->
  resolveNext r (mkCurrentLesson t c l) = Normal (next_after c l lpost post).
Proof.
  unfold wf_obj, located, next_after. intros Hr Hls ->.
  rewrite Object_keys_app in Hr. rewrite Object_keys_app in Hls.
  cbn [Object_keys map fst] in Hr, Hls.
  fold (Object_keys pre) (Object_keys post) in Hr.
  fold (Object_keys lpre) (Object_keys lpost) in Hls.
  destruct (NoDup_app_fresh _ _ _ Hr) as [Hc_pre Hc_post].
  destruct (NoDup_app_fresh _ _ _ Hls) as [Hl_pre _].
  unfold resolveNext. cbn [chapter lesson].
  rewrite (get_app_fresh pre c _ post Hc_pre). cbn [Object_keys_of bind].
  rewrite !Object_keys_app. cbn [Object_keys map fst].
  fold (Object_keys pre) (Object_keys post)
       (Object_keys lpre) (Object_keys lpost).
  rewrite (indexOf_app_fresh _ _ _ Hc_pre), (indexOf_app_fresh _ _ _ Hl_pre).
  rewrite !len_app, !len_cons.
  pose proof (len_nonneg (Object_keys pre)) as Hp.
  pose proof (len_nonneg (Object_keys lpre)) as Hlp.
  destruct (Z.eqb_spec (len (Object_keys pre)) (-1)) as [E|_]; [lia|].
  cbn [negb].
  destruct lpost as [|[l' d'] lpost].
  - (* last lesson of the chapter *)
    cbn [Object_keys map fst].
    change (len (@nil string)) with 0%Z.
    destruct (Z.ltb_spec (len (Object_keys lpre))
                (len (Object_keys lpre) + (1 + 0) - 1)) as [E|_]; [lia|].
    destruct post as [|[c' ls'] post].
    + cbn [Object_keys map fst]. change (len (@nil string)) with 0%Z.
      destruct (Z.ltb_spec (len (Object_keys pre))
                  (len (Object_keys pre) + (1 + 0) - 1)) as [E|_]; [lia|].
      reflexivity.
    + cbn [Object_keys map fst]. fold (Object_keys post).
      rewrite len_cons.
      pose proof (len_nonneg (Object_keys post)) as Hpost.
      destruct (Z.ltb_spec (len (Object_keys pre))
                  (len (Object_keys pre) + (1 + (1 + len (Object_keys post))) - 1))
        as [_|E]; [|lia].
      rewrite at_index_next.
      assert (Hget : get (pre ++ (c, (lpre ++ [(l, d)])%list) :: (c', ls') :: post)%list c'
                     = Some ls').
      { replace (pre ++ (c, (lpre ++ [(l, d)])%list) :: (c', ls') :: post)%list
          with ((pre ++ [(c, (lpre ++ [(l, d)])%list)]) ++ (c', ls') :: post)%list
          by (rewrite <- app_assoc; reflexivity).
        apply get_app_fresh.
        rewrite Object_keys_app. cbn [Object_keys map fst].
        fold (Object_keys pre).
        cbn [Object_keys map fst] in Hr.
        fold (Object_keys pre) (Object_keys post) in Hr.
        replace (Object_keys pre ++ c :: c' :: Object_keys post)%list
          with ((Object_keys pre ++ [c]) ++ c' :: Object_keys post)%list in Hr
          by (rewrite <- app_assoc; reflexivity).
        apply NoDup_app_fresh in Hr. tauto. }
      rewrite Hget. cbn [Object_keys_of bind].
      rewrite at_index_0. reflexivity.
  - (* a lesson follows in the same chapter *)
    cbn [Object_keys map fst]. fold (Object_keys lpost).
    rewrite len_cons.
    pose proof (len_nonneg (Object_keys lpost)) as Hlpost.
    destruct (Z.ltb_spec (len (Object_keys lpre))
                (len (Object_keys lpre) + (1 + (1 + len (Object_keys lpost))) - 1))
      as [_|E]; [|lia].
    rewrite at_index_next. reflexivity.
Qed.

(** A lesson of the roadmap has a position in it. *)
Lemma lesson_in_located (r : RoadmapView.Roadmap) (c l : string) :
  RoadmapView.lesson_in r c l ->
  exists pre lpre d lpost post, located r c l pre lpre d lpost post.
Proof.
  intros [ls [Hget Hin]].
  assert (Hr : exists pre post, r = pre ++ (c, ls) :: post).
  { clear Hin. induction r as [|[k v] r IH]; simpl in Hget; [discriminate|].
    destruct (String.eqb_spec k c) as [->|_].
    - injection Hget as ->. exists [], r. reflexivity.
    - destruct (IH Hget) as [pre [post ->]].
      exists ((k, v) :: pre), post. reflexivity. }
  destruct Hr as [pre [post ->]].
  unfold Object_keys in Hin. apply in_map_iff in Hin.
  destruct Hin as [[l' d] [Hl Hin]]. simpl in Hl. subst l'.
  apply in_split in Hin. destruct Hin as [lpre [lpost ->]].
  exists pre, lpre, d, lpost, post. reflexivity.
Qed.

(** What [handleLessonComplete] does once the roadmap has arrived and the
    position has been resolved. *)
Lemma handleLessonComplete_posts (s : State) (cur : CurrentLesson)
    (r : RoadmapView.Roadmap) (next : option string * option string)
    (postRes : Settled unit) :
  currentLesson s = Some cur ->
  resolveNext r cur = Normal next ->
  snd (handleLessonComplete s (Fulfilled (Some r)) postRes) =
  GetRoadmap (activeTopic s)
  :: PostComplete (mkPayload (activeTopic s) (chapter cur) (lesson cur)
                             (fst next) (snd next))
  :: match postRes with
     | Fulfilled _ => []
     | Rejected _ =>
         [ConsoleError; Alert "Failed to save progress. Please try again."]
     end.
Proof.
  intros Hcur Hnext. unfold handleLessonComplete.
  rewrite Hcur, Hnext. destruct postRes; reflexivity.
Qed.

(** C7, as stated, fails when titles are array indices. In a roadmap
    created as [{A: {"2": .., "1": ..}, B: {L3: ..}}] the lesson ["1"] is
    the last one created in [A], so by creation order [B/L3] comes next;
    but [Object.keys] lists ["1"] before ["2"], and the resolution gives
    [A/"2"]. *)
Lemma creation_order_fails :
  ~ follows_creation_order numbered_lessons "A" "1".
Proof.
  intros H.
  specialize (H [] [("2", "two")]%string "one"%string []
                [("B", [("L3", "three")])]%string eq_refl).
  vm_compute in H. discriminate H.
Qed.

(** C7, amended. Let [l] be a lesson of chapter [c] of a roadmap (chapter
    titles distinct, lesson titles distinct within a chapter), and let
    the order of chapters and of lessons be the one [Object.keys]
    enumerates the roadmap received in. Then [l] has a position in that
    order, and at that position the resolution gives: the lesson after
    [l] in [c] when there is one; otherwise the chapter after [c] with
    its first lesson ([undefined] if it has none) when there is one;
    otherwise the pair [(c, l)] itself. The completion request carries
    that pair as [next_chapter] and [next_lesson]. When no title is an
    array index, that order is the order of creation. *)
Theorem next_lesson_resolution (created : Created) (s : State)
    (t : option string) (c l : string) (postRes : Settled unit) :
  RoadmapView.wf_roadmap created ->
  RoadmapView.lesson_in created c l ->
  let r := received created in
  (exists pre lpre d lpost post, located r c l pre lpre d lpost post)
  /\
  (forall pre lpre d lpost post,
      located r c l pre lpre d lpost post ->
      resolveNext r (mkCurrentLesson t c l)
        = Normal (next_after c l lpost post)
      /\
      (currentLesson s = Some (mkCurrentLesson t c l) ->
       exists rest,
         snd (handleLessonComplete s (Fulfilled (Some r)) postRes) =
         GetRoadmap (activeTopic s)
         :: PostComplete (mkPayload (activeTopic s) c l
                            (fst (next_after c l lpost post))
                            (snd (next_after c l lpost post)))
         :: rest))
  /\
  (plain_titles created -> r = created).
Proof.
  intros Hcreated Hlesson r.
  destruct (received_wf Hcreated) as [Hr Hchapters]. fold r in Hr, Hchapters.
  pose proof (received_lesson_in Hcreated Hlesson) as Hin. fold r in Hin.
  split; [apply lesson_in_located; exact Hin|].
  split; [|apply received_plain].
  intros pre lpre d lpost post Hloc.
  assert (Hls : wf_obj (lpre ++ (l, d) :: lpost)).
  { apply (Hchapters c). rewrite Hloc. apply in_elt. }
  assert (Hnext : resolveNext r (mkCurrentLesson t c l)
                  = Normal (next_after c l lpost post))
    by (eapply resolveNext_located; eassumption).
  split; [exact Hnext|].
  intros Hcur. eexists.
  apply (handleLessonComplete_posts s r postRes Hcur Hnext).
Qed.

Ltac distinct_keys :=
  unfold wf_obj; cbn;
  repeat (constructor; [cbn; intuition discriminate|]); constructor.

Lemma two_chapters_wf : RoadmapView.wf_roadmap two_chapters.
Proof.
  split; [distinct_keys|].
  intros c ls [H|[H|[]]]; injection H as <- <-; distinct_keys.
Qed.

Lemma two_chapters_lessons :
  RoadmapView.lesson_in two_chapters "A" "L1" /\
  RoadmapView.lesson_in two_chapters "A" "L2" /\
  RoadmapView.lesson_in two_chapters "B" "L3".
Proof.
  repeat split; eexists; (split; [reflexivity | cbn; tauto]).
Qed.

Lemma next_lesson_resolution_witness :
  resolveNext two_chapters (mkCurrentLesson None "A" "L1")
    = Normal (Some "A"%string, Some "L2"%string) /\
  resolveNext two_chapters (mkCurrentLesson None "A" "L2")
    = Normal (Some "B"%string, Some "L3"%string) /\
  resolveNext two_chapters (mkCurrentLesson None "B" "L3")
    = Normal (Some "B"%string, Some "L3"%string).
Proof.
  pose (s0 := mkState lessonView None None).
  destruct two_chapters_lessons as [HL1 [HL2 HL3]].
  split; [|split].
  - apply (proj1 (proj2 (next_lesson_resolution s0 None (Fulfilled tt)
                           two_chapters_wf HL1))
             [] [] "one"%string [("L2", "two")]%string
             [("B", [("L3", "three")])]%string).
    reflexivity.
  - apply (proj1 (proj2 (next_lesson_resolution s0 None (Fulfilled tt)
                           two_chapters_wf HL2))
             [] [("L1", "one")]%string "two"%string []
             [("B", [("L3", "three")])]%string).
    reflexivity.
  - apply (proj1 (proj2 (next_lesson_resolution s0 None (Fulfilled tt)
                           two_chapters_wf HL3))
             [("A", [("L1", "one"); ("L2", "two")])]%string []
             "three"%string [] []).
    reflexivity.
Defined.

(** C10. When the chapter of the completed lesson is not a chapter of the
    fetched roadmap, the resolution does not throw and the completion
    request that is sent has [next_chapter] and [next_lesson] equal to the
    completed chapter and lesson. *)
Theorem unknown_chapter_holds_position (r : RoadmapView.Roadmap) (s : State)
    (cur : CurrentLesson) (postRes : Settled unit) :
  currentLesson s = Some cur ->
  ~ In (chapter cur) (Object_keys r) ->
  resolveNext r cur = Normal (Some (chapter cur), Some (lesson cur)) /\
  snd (handleLessonComplete s (Fulfilled (Some r)) postRes) =
  GetRoadmap (activeTopic s)
  :: PostComplete (mkPayload (activeTopic s) (chapter cur) (lesson cur)
                             (Some (chapter cur)) (Some (lesson cur)))
  :: match postRes with
     | Fulfilled _ => []
     | Rejected _ =>
         [ConsoleError; Alert "Failed to save progress. Please try again."]
     end.
Proof.
  intros Hcur Hnot.
  pose proof (resolveNext_unknown_chapter r cur Hnot) as Hnext.
  split; [exact Hnext|].
  apply (handleLessonComplete_posts s r postRes Hcur Hnext).
Qed.

Lemma unknown_chapter_holds_position_witness :
  snd (handleLessonComplete stale_lesson_state (Fulfilled (Some two_chapters))
         (Fulfilled tt)) =
  [GetRoadmap (Some "Logic"%string);
   PostComplete (mkPayload (Some "Logic"%string) "Z" "L9"
                           (Some "Z"%string) (Some "L9"%string))].
Proof.
  apply (unknown_chapter_holds_position two_chapters stale_lesson_state
           (cur := mkCurrentLesson (Some "Logic"%string) "Z" "L9")
           (Fulfilled tt) eq_refl).
  cbn. intuition discriminate.
Defined.

End DashboardProofs.

(** ** TopicDashboard *)

Module TopicDashboardProofs.
Import JS JSFacts TopicDashboard.

Lemma fetchTopics_retry_step (answers : nat -> Settled (option (list string)))
    (cl : bool) (k : nat) (s : State) (err : AxiosError) :
  answers k = Rejected err -> isBackendDown err = true -> k < 5 ->
  fetchTopics answers cl k s =
  after [GetTopics; ConsoleLog (k + 1); SetTimeout 2000 (k + 1)]
        (fetchTopics answers cl (k + 1)
           (fetchTopics_finally cl k (fetchTopics_begin s))).
Proof.
  intros Hans Hdown Hk.
  funelim (fetchTopics answers cl k s).
  - congruence.
  - reflexivity.
  - congruence.
  - contradiction.
Qed.

(** Every call of the chain sends one request; a timer is set once per
    retry, always with 2000 ms; the retries are the consecutive
    backend-down failures, five at most. *)
Lemma fetchTopics_effects (answers : nat -> Settled (option (list string)))
    (cl : bool) (k : nat) (s : State) :
  let effects := snd (fetchTopics answers cl k s) in
  requests effects = retries effects + 1 /\
  retries effects = downs answers k (5 - k) /\
  timeout_delays effects = repeat 2000%Z (retries effects).
Proof.
  funelim (fetchTopics answers cl k s); cbn zeta.
  - remember (5 - retryCount) as n eqn:Hn. cbn.
    destruct n; cbn; rewrite ?Heq; auto.
  - cbn zeta in H. destruct H as [Hreq [Hret Hdel]].
    unfold after. cbn [snd].
    replace (5 - retryCount) with (S (5 - (retryCount + 1))) by lia.
    cbn [downs]. rewrite Heq1, Heq0.
    replace (S retryCount) with (retryCount + 1) by lia.
    rewrite <- Hret.
    unfold requests, retries, timeout_delays in *. cbn.
    rewrite Hreq, Hdel. auto.
  - remember (5 - retryCount) as n eqn:Hn. cbn.
    destruct n; cbn; rewrite ?Heq1, ?Heq0; auto.
  - replace (5 - retryCount) with 0 by lia. cbn. auto.
Qed.

Lemma fetchTopics_error_topics (answers : nat -> Settled (option (list string)))
    (cl : bool) (k : nat) (s : State) (m : ErrorMessage) :
  error (fst (fetchTopics answers cl k s)) = Some m ->
  topics (fst (fetchTopics answers cl k s)) = [].
Proof.
  funelim (fetchTopics answers cl k s).
  - unfold fetchTopics_finally.
    destruct ((retryCount =? 0) || negb closure_loading); cbn; discriminate.
  - unfold after. cbn [fst]. intros Hm. apply (H m). exact Hm.
  - intros _. unfold fetchTopics_finally.
    destruct ((retryCount =? 0) || negb closure_loading); reflexivity.
  - intros _. unfold fetchTopics_finally.
    destruct ((retryCount =? 0) || negb closure_loading); reflexivity.
Qed.

(** A retry started from a render that saw [loading = true] leaves
    [loading] set, however the chain ends. *)
Lemma retried_chain_keeps_loading
    (answers : nat -> Settled (option (list string))) (k : nat) (s : State) :
  1 <= k -> loading (fst (fetchTopics answers true k s)) = true.
Proof.
  funelim (fetchTopics answers true k s); intros Hk.
  - unfold fetchTopics_finally.
    destruct (Nat.eqb_spec retryCount 0); [lia|]. reflexivity.
  - unfold after. cbn [fst]. apply H. lia.
  - unfold fetchTopics_finally.
    destruct (Nat.eqb_spec retryCount 0); [lia|]. reflexivity.
  - unfold fetchTopics_finally.
    destruct (Nat.eqb_spec retryCount 0); [lia|]. reflexivity.
Qed.

(** The mount chain always ends, after at most six requests and five
    retries; every retry is scheduled 2000 ms after a failure, and there
    are exactly as many retries as there are consecutive backend-down
    failures in front (five at most). *)
Lemma mount_retries_bounded (answers : nat -> Settled (option (list string))) :
  let effects := snd (mount answers) in
  requests effects <= 6 /\
  retries effects <= 5 /\
  requests effects = retries effects + 1 /\
  retries effects = downs answers 0 5 /\
  timeout_delays effects = repeat 2000%Z (retries effects).
Proof.
  intros effects.
  destruct (fetchTopics_effects answers (loading initial) 0 initial)
    as [Hreq [Hret Hdel]].
  fold (mount answers) in Hreq, Hret, Hdel. fold effects in Hreq, Hret, Hdel.
  change (5 - 0) with 5 in Hret.
  assert (Hle : forall k n, downs answers k n <= n).
  { intros k n. revert k. induction n as [|n IH]; intros k; cbn; [lia|].
    destruct (answers k) as [|err]; [lia|].
    destruct (isBackendDown err); [|lia].
    specialize (IH (S k)). lia. }
  specialize (Hle 0 5). repeat split; try assumption; lia.
Qed.

(** Once the first request of the mount chain has failed with the backend
    down, the chain leaves [loading] set: whatever happens next, its final
    state is never rendered as the page with the error banner. *)
Lemma mount_first_failure_hides_error
    (answers : nat -> Settled (option (list string))) (err : AxiosError) :
  answers 0 = Rejected err -> isBackendDown err = true ->
  loading (fst (mount answers)) = true /\
  forall m, render (fst (mount answers)) <> Page (Some m).
Proof.
  intros Hans Hdown.
  assert (Hload : loading (fst (mount answers)) = true).
  { unfold mount.
    rewrite (fetchTopics_retry_step answers (loading initial) initial
               Hans Hdown) by lia.
    unfold after. cbn [fst]. apply retried_chain_keeps_loading. lia. }
  split; [exact Hload|].
  intros m. unfold render. rewrite Hload. cbn [andb].
  destruct (topics (fst (mount answers))) as [|t ts] eqn:Htopics.
  - cbn. discriminate.
  - cbn. intros Hpage. injection Hpage as Herr.
    apply fetchTopics_error_topics in Herr.
    unfold mount in Htopics. congruence.
Qed.

(** C8 at the failing input: the backend answers none of the requests of
    the mount chain. Six requests are sent, five timers of 2000 ms are
    set, the error is stored, yet [loading] is still set and the list is
    empty, so what is rendered is the loading spinner and not the error
    banner. *)
Theorem mount_backend_down_shows_spinner :
  let final := fst (mount backend_down) in
  let effects := snd (mount backend_down) in
  requests effects = 6 /\
  retries effects = 5 /\
  timeout_delays effects = repeat 2000%Z 5 /\
  error final = Some BackendNotRunning /\
  loading final = true /\
  topics final = [] /\
  render final = LoadingSpinner.
Proof. vm_compute. repeat split. Qed.

(** C9. Declining the confirmation leaves the state as it is and sends no
    request. After a confirmation the delete request is sent: when it
    succeeds the topic is no longer in the list and the other topics are
    kept; when it fails the list is the one before and an alert is shown.
    A delete request is only ever sent after a confirmation. *)
Theorem delete_is_confirmed_and_atomic (topic : string) (s : State) :
  (forall res,
      handleDelete topic false res s = (s, [StopPropagation; Confirm topic]))
  /\
  (forall u,
      let r := handleDelete topic true (Fulfilled u) s in
      topics (fst r) = filter (fun t => negb (String.eqb t topic)) (topics s) /\
      ~ In topic (topics (fst r)) /\
      (forall t, t <> topic -> (In t (topics (fst r)) <-> In t (topics s))) /\
      snd r = [StopPropagation; Confirm topic; DeleteTopic topic])
  /\
  (forall err,
      let r := handleDelete topic true (Rejected err) s in
      topics (fst r) = topics s /\
      snd r = [StopPropagation; Confirm topic; DeleteTopic topic;
               Alert ("Failed to delete topic: " ++ to_display (message err))])
  /\
  (forall confirmed res,
      existsb is_delete (snd (handleDelete topic confirmed res s)) = true ->
      confirmed = true).
Proof.
  split; [|split; [|split]].
  - intros res. reflexivity.
  - intros u r. subst r. cbn.
    split; [reflexivity|]. split; [|split; [|reflexivity]].
    + rewrite filter_In. intros [_ H]. rewrite String.eqb_refl in H.
      discriminate H.
    + intros t Hne. rewrite filter_In.
      destruct (String.eqb_spec t topic) as [->|_]; [contradiction|].
      cbn. tauto.
  - intros err r. subst r. cbn. split; reflexivity.
  - intros [|] res H; [reflexivity|]. cbn in H. discriminate H.
Qed.

Lemma delete_is_confirmed_and_atomic_witness :
  handleDelete "a" false (Fulfilled tt) two_topics
    = (two_topics, [StopPropagation; Confirm "a"])
  /\
  topics (fst (handleDelete "a" true (Fulfilled tt) two_topics))
    = filter (fun t => negb (String.eqb t "a")) (topics two_topics)
  /\
  topics (fst (handleDelete "a" true (Rejected network_error) two_topics))
    = topics two_topics.
Proof.
  destruct (delete_is_confirmed_and_atomic "a" two_topics)
    as [Hdeclined [Hdeleted [Hfailed _]]].
  split; [apply Hdeclined|].
  split; [apply (Hdeleted tt) | apply (Hfailed network_error)].
Defined.

Lemma mount_first_failure_hides_error_witness :
  loading (fst (mount backend_down)) = true /\
  forall m, render (fst (mount backend_down)) <> Page (Some m).
Proof.
  apply (mount_first_failure_hides_error backend_down (err := network_error));
    reflexivity.
Defined.

End TopicDashboardProofs.

(** ** More facts about the built-ins *)

Module JSObjectFacts.
Import JS JSFacts JSObject.

Lemma get_set_same {V} (o : Obj V) (k : string) (v : V) :
  get (set_prop o k v) k = Some v.
Proof.
  induction o as [|[k' v'] o IH]; simpl.
  - rewrite String.eqb_refl. reflexivity.
  - destruct (String.eqb_spec k' k) as [->|Hne]; simpl.
    + rewrite String.eqb_refl. reflexivity.
    + destruct (String.eqb_spec k' k); [contradiction | exact IH].
Qed.

Lemma get_set_other {V} (o : Obj V) (k k' : string) (v : V) :
  k' <> k -> get (set_prop o k v) k' = get o k'.
Proof.
  intros Hne. induction o as [|[k0 v0] o IH]; simpl.
  - destruct (String.eqb_spec k k'); [congruence | reflexivity].
  - destruct (String.eqb_spec k0 k) as [->|Hk]; simpl.
    + destruct (String.eqb_spec k k'); [congruence | reflexivity].
    + destruct (String.eqb_spec k0 k'); [reflexivity | exact IH].
Qed.

Lemma str_includes_tail (a : ascii) (s sub : string) :
  str_includes (String a s) sub = false -> str_includes s sub = false.
Proof.
  cbn [str_includes]. intros H. apply orb_false_iff in H. tauto.
Qed.

Lemma indexOf_found (xs : list string) (x : string) :
  indexOf xs x <> (-1)%Z ->
  (0 <= indexOf xs x < len xs)%Z /\
  at_index xs (indexOf xs x) = Some x.
Proof.
  unfold len, at_index.
  induction xs as [|y ys IH]; cbn [indexOf]; [congruence|].
  destruct (String.eqb_spec y x) as [->|Hne].
  - intros _. cbn. split; [lia | reflexivity].
  - destruct (Z.eqb_spec (indexOf ys x) (-1)) as [E|E]; [congruence|].
    intros _. destruct (IH E) as [Hrange Hat].
    destruct (Z.ltb_spec (indexOf ys x) 0); [lia|].
    destruct (Z.ltb_spec (indexOf ys x + 1) 0); [lia|].
    split; [cbn [List.length]; lia|].
    replace (Z.to_nat (indexOf ys x + 1)) with (S (Z.to_nat (indexOf ys x)))
      by lia.
    exact Hat.
Qed.

Lemma indexOf_range (xs : list string) (x : string) :
  (-1 <= indexOf xs x < len xs)%Z.
Proof.
  destruct (Z.eq_dec (indexOf xs x) (-1)) as [E|E].
  - rewrite E. unfold len. lia.
  - destruct (indexOf_found xs x E). lia.
Qed.

Lemma at_index_In (A : Type) (xs : list A) (i : Z) (x : A) :
  at_index xs i = Some x -> In x xs.
Proof.
  unfold at_index. destruct (i <? 0)%Z; [discriminate|].
  apply nth_error_In.
Qed.

Lemma at_index_in_range (A : Type) (xs : list A) (i : Z) :
  (0 <= i < len xs)%Z -> exists x, at_index xs i = Some x.
Proof.
  unfold at_index, len. intros Hi.
  destruct (Z.ltb_spec i 0); [lia|].
  destruct (nth_error xs (Z.to_nat i)) as [x|] eqn:Hx; [eauto|].
  apply nth_error_None in Hx. lia.
Qed.

Lemma In_keys_get {V} (o : Obj V) (k : string) :
  In k (Object_keys o) -> exists v, get o k = Some v /\ In (k, v) o.
Proof.
  induction o as [|[k' v'] o IH]; simpl; [tauto|].
  intros [->|Hin].
  - rewrite String.eqb_refl. eauto.
  - destruct (String.eqb_spec k' k) as [->|_]; [eauto|].
    destruct (IH Hin) as [v [Hget Hv]]. eauto.
Qed.

Lemma get_In {V} (o : Obj V) (k : string) (v : V) :
  get o k = Some v -> In (k, v) o.
Proof.
  induction o as [|[k' v'] o IH]; simpl; [discriminate|].
  destruct (String.eqb_spec k' k) as [->|_].
  - intros H. injection H as ->. left. reflexivity.
  - intros H. right. apply IH. exact H.
Qed.

End JSObjectFacts.

(** ** RoadmapView: loading, expanding chapters, chapter progress *)

Module RoadmapViewLoadProofs.
Import JS JSFacts JSObject JSObjectFacts RoadmapView RoadmapViewLoad.
Local Open Scope string_scope.

Lemma append_inj_l (c x y : string) : c ++ x = c ++ y -> x = y.
Proof.
  induction c as [|a c IH]; cbn; intros H; [exact H|].
  injection H as H. apply IH. exact H.
Qed.

(** An identifier names one lesson only, as long as the chapter titles do
    not contain the separator [": "]. *)
Lemma lesson_id_inj (c c' l l' : string) :
  str_includes c ": " = false -> str_includes c' ": " = false ->
  lesson_id c l = lesson_id c' l' -> c = c' /\ l = l'.
Proof.
  unfold lesson_id. revert c'.
  induction c as [|a c IH]; intros [|a' c'] Hc Hc' Heq.
  - cbn in Heq. injection Heq as ->. tauto.
  - exfalso. cbn in Heq. injection Heq as <- Heq.
    destruct c' as [|b c']; cbn in Heq.
    + discriminate Heq.
    + injection Heq as <- _. cbn in Hc'.
      destruct c'; cbn in Hc'; discriminate Hc'.
  - exfalso. cbn in Heq. injection Heq as -> Heq.
    destruct c as [|b c]; cbn in Heq.
    + discriminate Heq.
    + injection Heq as -> _. cbn in Hc.
      destruct c; cbn in Hc; discriminate Hc.
  - cbn in Heq. injection Heq as -> Heq.
    destruct (IH c' (str_includes_tail _ _ _ Hc)
                (str_includes_tail _ _ _ Hc') Heq) as [-> ->].
    tauto.
Qed.

(** Completing one lesson marks that lesson and no other: with chapter
    titles free of [": "], a record whose only completed identifier is the
    one of [(c', l')] reports [(c, l)] completed exactly when it is that
    lesson. *)
Theorem completed_identifier_marks_one_lesson (c l c' l' : string)
    (cur_chapter cur_lesson st : option string) :
  str_includes c ": " = false -> str_includes c' ": " = false ->
  (isLessonCompleted
     (Some (mkProgress (Some [lesson_id c' l']) cur_chapter cur_lesson st))
     c l = true
   <-> c = c' /\ l = l').
Proof.
  intros Hc Hc'. unfold isLessonCompleted. cbn [completed_lessons].
  rewrite includes_In. cbn [In]. split.
  - intros [Heq|[]]. symmetry in Heq.
    apply (lesson_id_inj _ _ _ _ Hc Hc' Heq).
  - intros [-> ->]. left. reflexivity.
Qed.

Lemma completed_identifier_marks_one_lesson_witness :
  isLessonCompleted
    (Some (mkProgress (Some [lesson_id "Sets" "Unions"]) None None None))
    "Sets" "Unions" = true
  <-> "Sets" = "Sets" /\ "Unions" = "Unions".
Proof.
  apply (completed_identifier_marks_one_lesson "Sets" "Unions" "Sets" "Unions"
           None None None); reflexivity.
Defined.

(** Why the titles must be free of the separator: two different lessons
    can share an identifier otherwise. *)
Example identifier_collision :
  isLessonCompleted
    (Some (mkProgress (Some [lesson_id "A" "B: C"]) None None None))
    "A: B" "C" = true.
Proof. reflexivity. Qed.

Lemma default_chapter_In (r : Roadmap) (pr : option ProgressRecord) (c : string) :
  default_chapter r pr = Some c -> In c (Object_keys r).
Proof.
  assert (Hhd : hd_error (Object_keys r) = Some c -> In c (Object_keys r)).
  { destruct (Object_keys r); cbn; [discriminate|].
    intros H. injection H as ->. left. reflexivity. }
  unfold default_chapter.
  destruct pr as [p|]; [|exact Hhd].
  destruct (current_chapter p) as [cc|]; [|exact Hhd].
  destruct (negb (cc =? "") && includes (Object_keys r) cc) eqn:Hhit;
    [|exact Hhd].
  intros H. injection H as <-.
  apply andb_true_iff in Hhit. apply includes_In. tauto.
Qed.

(** After both requests of [fetchData] have succeeded with a roadmap that
    has a chapter, the roadmap and the progress record are stored, the
    spinner is off, and one chapter of the roadmap has been expanded: the
    current chapter of the progress record when that is a non-empty title
    of the roadmap and the first chapter otherwise. A title is then shown
    expanded exactly when it is that chapter or the name of a member of
    [Object.prototype] (a chapter titled ["constructor"] reads as expanded
    through the prototype chain); so among chapters not so named exactly
    one is expanded. *)
Theorem fetchData_expands_one_chapter (r : Roadmap)
    (pr : option ProgressRecord) (s : State) :
  r <> [] ->
  let s' := fst (fetchData (Fulfilled (Some r)) (Fulfilled pr) s) in
  roadmap s' = Some r /\ progress s' = pr /\ loading s' = false /\
  exists c,
    default_chapter r pr = Some c /\
    In c (Object_keys r) /\
    forall c', isExpanded s' c' = true <-> c' = c \/ In c' Object_prototype.
Proof.
  intros Hr s'.
  assert (Hfirst : exists c0, hd_error (Object_keys r) = Some c0).
  { destruct r as [|[c0 ls] r]; [contradiction | cbn; eauto]. }
  destruct Hfirst as [c0 Hc0].
  assert (Hone : forall (c : string) (s1 : State) c',
             isExpanded (setLoading false (setExpandedChapters [(c, true)] s1)) c'
             = true <-> c' = c \/ In c' Object_prototype).
  { intros c s1 c'. unfold isExpanded, truthy_at.
    cbn [expandedChapters setLoading setExpandedChapters get].
    destruct (String.eqb_spec c c') as [->|Hne].
    - tauto.
    - rewrite includes_In. split; [tauto|]. intros [Heq|Hin]; congruence. }
  assert (Hdef : exists c, default_chapter r pr = Some c /\
                   forall c', isExpanded s' c' = true <->
                              c' = c \/ In c' Object_prototype).
  { subst s'. unfold fetchData, default_chapter.
    cbn [Object_keys_of]. rewrite Hc0.
    destruct pr as [p|]; cbn [fst].
    - destruct (current_chapter p) as [cc|].
      + unfold truthy_string.
        destruct (negb (cc =? "") && includes (Object_keys r) cc).
        * exists cc. split; [reflexivity | apply Hone].
        * exists c0. split; [reflexivity | apply Hone].
      + exists c0. split; [reflexivity | apply Hone].
    - exists c0. split; [reflexivity | apply Hone]. }
  assert (Hstored : roadmap s' = Some r /\ progress s' = pr /\ loading s' = false).
  { subst s'. unfold fetchData. cbn [Object_keys_of]. rewrite Hc0.
    destruct pr as [p|]; cbn [fst].
    - destruct (current_chapter p) as [cc|].
      + destruct (truthy_string (Some cc) && includes (Object_keys r) cc);
          repeat split.
      + repeat split.
    - repeat split. }
  destruct Hstored as [H1 [H2 H3]]. destruct Hdef as [c [Hc Hexp]].
  repeat (split; [assumption|]).
  exists c. split; [exact Hc|]. split; [|exact Hexp].
  apply (default_chapter_In r pr). exact Hc.
Qed.

Lemma fetchData_expands_one_chapter_witness :
  let s' := fst (fetchData (Fulfilled (Some Dashboard.two_chapters))
                   (Fulfilled (Some (mkProgress (Some []) (Some "B")
                                       (Some "L3") (Some "in_progress"))))
                   initial) in
  roadmap s' = Some Dashboard.two_chapters /\
  progress s' = Some (mkProgress (Some []) (Some "B") (Some "L3")
                        (Some "in_progress")) /\
  loading s' = false /\
  exists c,
    default_chapter Dashboard.two_chapters
      (Some (mkProgress (Some []) (Some "B") (Some "L3")
               (Some "in_progress"))) = Some c /\
    In c (Object_keys Dashboard.two_chapters) /\
    forall c', isExpanded s' c' = true <-> c' = c \/ In c' Object_prototype.
Proof.
  apply (fetchData_expands_one_chapter (r := Dashboard.two_chapters)).
  discriminate.
Defined.

(** A chapter titled like a member of [Object.prototype] reads as
    expanded although it was never expanded. *)
Example inherited_title_reads_expanded :
  isExpanded
    (fst (fetchData (Fulfilled (Some [("Intro", []); ("constructor", [])]))
            (Fulfilled None) initial))
    "constructor" = true.
Proof. reflexivity. Qed.

(** When a request of [fetchData] fails, or the answer carries no roadmap,
    the error text is set and the spinner is turned off; both requests
    have been sent all the same. *)
Lemma fetchData_failure (roadmapRes : Settled (option Roadmap))
    (progressRes : Settled (option ProgressRecord)) (s : State) :
  (forall r pr, ~ (roadmapRes = Fulfilled (Some r) /\ progressRes = Fulfilled pr)) ->
  let r := fetchData roadmapRes progressRes s in
  error (fst r) = Some "Failed to load learning path." /\
  loading (fst r) = false /\
  expandedChapters (fst r) = expandedChapters s /\
  snd r = [GetRoadmap; GetProgress; ConsoleError].
Proof.
  intros Hbad.
  destruct roadmapRes as [[r0|]|e1], progressRes as [pr|e2];
    try (cbn; repeat split; fail).
  exfalso. apply (Hbad r0 pr). split; reflexivity.
Qed.

(** Toggling a chapter flips that chapter and no other one; toggling it
    twice gives back what was shown, for every chapter. This holds for
    titles that name a member of [Object.prototype] too: the first click
    on a chapter titled ["constructor"] reads the inherited member and
    stores [false]. *)
Theorem toggleChapter_flips_one (s : State) (c : string) :
  isExpanded (toggleChapter c s) c = negb (isExpanded s c) /\
  (forall c', c' <> c -> isExpanded (toggleChapter c s) c' = isExpanded s c') /\
  (forall c', isExpanded (toggleChapter c (toggleChapter c s)) c'
              = isExpanded s c').
Proof.
  assert (Hsame : forall s0, isExpanded (toggleChapter c s0) c
                             = negb (isExpanded s0 c)).
  { intros s0. unfold isExpanded, toggleChapter.
    cbn [expandedChapters setExpandedChapters].
    unfold truthy_at at 1. rewrite get_set_same. reflexivity. }
  assert (Hother : forall s0 c', c' <> c ->
             isExpanded (toggleChapter c s0) c' = isExpanded s0 c').
  { intros s0 c' Hne. unfold isExpanded, toggleChapter.
    cbn [expandedChapters setExpandedChapters].
    unfold truthy_at at 1 3. rewrite get_set_other by exact Hne. reflexivity. }
  split; [apply Hsame|]. split; [apply Hother|].
  intros c'. destruct (String.eqb_spec c' c) as [->|Hne].
  - rewrite !Hsame. apply negb_involutive.
  - rewrite !Hother by exact Hne. reflexivity.
Qed.

Lemma NoDup_map_injective (A B : Type) (f : A -> B) (xs : list A) :
  (forall x y, f x = f y -> x = y) -> NoDup xs -> NoDup (map f xs).
Proof.
  intros Hinj Hnd. induction Hnd as [|x xs Hx Hnd IH]; cbn; constructor.
  - intros Hin. apply in_map_iff in Hin. destruct Hin as [y [Hy Hin]].
    apply Hinj in Hy. subst y. contradiction.
  - exact IH.
Qed.

Lemma filter_map_length (A B : Type) (f : B -> bool) (g : A -> B)
    (xs : list A) :
  List.length (filter f (map g xs))
  = List.length (filter (fun x => f (g x)) xs).
Proof.
  induction xs as [|x xs IH]; cbn; [reflexivity|].
  destruct (f (g x)); cbn; rewrite IH; reflexivity.
Qed.

Lemma all_ids_length (r : Roadmap) : List.length (all_ids r) = lesson_count r.
Proof.
  unfold all_ids, lesson_count, Object_keys.
  induction r as [|[c ls] r IH]; cbn; [reflexivity|].
  rewrite length_app, !length_map, IH. reflexivity.
Qed.

Lemma all_ids_In (r : Roadmap) (id : string) :
  In id (all_ids r) <->
  exists c ls l, In (c, ls) r /\ In l (Object_keys ls) /\ id = lesson_id c l.
Proof.
  unfold all_ids. rewrite in_flat_map. split.
  - intros [[c ls] [Hch Hin]]. cbn in Hin. apply in_map_iff in Hin.
    destruct Hin as [l [Hid Hl]]. exists c, ls, l. auto.
  - intros [c [ls [l [Hch [Hl ->]]]]]. exists (c, ls). split; [exact Hch|].
    cbn. apply in_map. exact Hl.
Qed.

Lemma all_ids_NoDup (r : Roadmap) :
  wf_roadmap r -> plain_chapters r -> NoDup (all_ids r).
Proof.
  unfold wf_roadmap, wf_obj, plain_chapters.
  induction r as [|[c ls] r IH]; intros [Hkeys Hls] Hplain; cbn.
  - constructor.
  - cbn in Hkeys. apply NoDup_cons_iff in Hkeys. destruct Hkeys as [Hc Hkeys].
    apply NoDup_app.
    + apply NoDup_map_injective.
      * unfold lesson_id. intros x y Hxy.
        apply append_inj_l in Hxy. apply append_inj_l in Hxy. exact Hxy.
      * apply (Hls c ls). left. reflexivity.
    + apply IH.
      * split; [exact Hkeys|]. intros c' ls' Hin. apply (Hls c' ls').
        right. exact Hin.
      * intros c' Hin. apply Hplain. right. exact Hin.
    + intros id Hin Hin'. apply in_map_iff in Hin.
      destruct Hin as [l [<- Hl]].
      apply all_ids_In in Hin'.
      destruct Hin' as [c' [ls' [l' [Hch [Hl' Heq]]]]].
      assert (Hc' : In c' (map fst r)).
      { apply in_map_iff. exists (c', ls'). split; [reflexivity | exact Hch]. }
      apply lesson_id_inj in Heq.
      * destruct Heq as [-> _]. contradiction.
      * apply Hplain. left. reflexivity.
      * apply Hplain. right. exact Hc'.
Qed.

Lemma chapters_completed_filter (progress : option ProgressRecord)
    (done : list string) (r : Roadmap) :
  (forall c l, isLessonCompleted progress c l = includes done (lesson_id c l)) ->
  chapters_completed progress r
  = List.length (filter (includes done) (all_ids r)).
Proof.
  intros Hdone.
  induction r as [|[c ls] r IH]; [reflexivity|].
  change (chapters_completed progress ((c, ls) :: r))
    with (chapterCompleted progress c ls + chapters_completed progress r).
  change (all_ids ((c, ls) :: r))
    with (map (lesson_id c) (Object_keys ls) ++ all_ids r)%list.
  rewrite filter_app, length_app, filter_map_length, IH.
  unfold chapterCompleted. f_equal. f_equal.
  apply filter_ext. intros l. apply Hdone.
Qed.

(** The overall bar and the chapter bars agree. When the chapter titles
    are free of [": "], the completed list has no repetition and holds
    only identifiers of lessons of the roadmap, the number of completed
    identifiers is the sum of the completed counts of the chapters, and
    it is at most the total number of lessons. *)
Theorem completed_count_is_sum_of_chapters (r : Roadmap)
    (done : list string) (cur_chapter cur_lesson st : option string) :
  wf_roadmap r -> plain_chapters r ->
  NoDup done -> (forall id, In id done -> In id (all_ids r)) ->
  let progress := Some (mkProgress (Some done) cur_chapter cur_lesson st) in
  chapters_completed progress r = completedCount progress /\
  completedCount progress <= totalLessons r.
Proof.
  intros Hwf Hplain Hnd Hsub progress.
  assert (Hsum : chapters_completed progress r
                 = List.length (filter (includes done) (all_ids r))).
  { apply chapters_completed_filter. intros c l. reflexivity. }
  assert (Hlen : List.length (filter (includes done) (all_ids r))
                 = List.length done).
  { apply Nat.le_antisymm.
    - apply NoDup_incl_length.
      + apply NoDup_filter. apply all_ids_NoDup; assumption.
      + intros id Hin. apply filter_In in Hin. apply includes_In. tauto.
    - apply NoDup_incl_length; [exact Hnd|].
      intros id Hin. apply filter_In. split.
      + apply Hsub. exact Hin.
      + apply includes_In. exact Hin. }
  change (completedCount progress) with (List.length done).
  split; [congruence|].
  rewrite <- Hlen, RoadmapViewProofs.totalLessons_lesson_count,
    <- all_ids_length.
  apply filter_length_le.
Qed.

Lemma completed_count_is_sum_of_chapters_witness :
  let progress := Some (mkProgress (Some ["A: L2"; "B: L3"])
                          (Some "A") (Some "L1") (Some "in_progress")) in
  chapters_completed progress Dashboard.two_chapters = completedCount progress /\
  completedCount progress <= totalLessons Dashboard.two_chapters.
Proof.
  apply (completed_count_is_sum_of_chapters (r := Dashboard.two_chapters)).
  - exact DashboardProofs.two_chapters_wf.
  - intros c [<-|[<-|[]]]; reflexivity.
  - repeat (constructor; [cbn; intuition discriminate|]). constructor.
  - intros id [<-|[<-|[]]]; cbn; tauto.
Defined.

End RoadmapViewLoadProofs.

(** ** LessonView: the quiz as the user can drive it *)

Module LessonViewUIProofs.
Import JS LessonView LessonViewUI.

Lemma click_inv (content : LessonContent) (sk : State * nat) (e : Event) :
  questions content <> [] ->
  session_inv content sk ->
  exists sk', click content sk e = Normal sk' /\ session_inv content sk'.
Proof.
  intros Hne Hinv. destruct sk as [s k]. unfold click. cbn [fst snd].
  destruct (enabled content s e) eqn:Hen; [|eauto].
  unfold session_inv in Hinv. cbn [fst snd] in Hinv.
  unfold enabled in Hen.
  destruct e as [|idx| |]; destruct (mode s) eqn:Hmode; try discriminate Hen;
    cbn [step bind is_submit].
  - (* start *)
    eexists. split; [reflexivity|]. unfold session_inv. cbn.
    destruct Hinv as [H0 [Hans ->]]. rewrite H0, Hans.
    destruct (questions content); [contradiction | cbn; lia].
  - (* select *)
    apply andb_true_iff in Hen. destruct Hen as [Hans _].
    apply negb_true_iff in Hans.
    eexists. split; [reflexivity|]. unfold handleOptionSelect.
    rewrite Hans. unfold session_inv.
    cbn [fst snd mode currentQuestionIdx isAnswered].
    rewrite Hmode. rewrite Hans in Hinv. exact Hinv.
  - (* submit *)
    apply andb_true_iff in Hen. destruct Hen as [Hans Hsel].
    apply negb_true_iff in Hans.
    destruct Hinv as [Hlt Hk]. rewrite Hans in Hk.
    unfold handleSubmitAnswer.
    destruct (selectedOption s) as [sel|]; [|discriminate Hsel].
    destruct (nth_error (questions content) (currentQuestionIdx s))
      as [q|] eqn:Hq.
    + eexists. split; [reflexivity|]. unfold session_inv. cbn.
      rewrite Hmode. split; [exact Hlt | lia].
    + apply nth_error_None in Hq. lia.
  - (* next *)
    destruct Hinv as [Hlt Hk]. rewrite Hen in Hk.
    eexists. split; [reflexivity|].
    unfold session_inv, handleNextQuestion, len. cbn [fst snd].
    destruct (Z.ltb_spec (Z.of_nat (currentQuestionIdx s))
                (Z.of_nat (List.length (questions content)) - 1));
      cbn; rewrite ?Hmode; lia.
Qed.

Lemma clicks_inv (content : LessonContent) (es : list Event)
    (sk : State * nat) :
  questions content <> [] ->
  session_inv content sk ->
  exists sk', clicks content sk es = Normal sk' /\ session_inv content sk'.
Proof.
  intros Hne. revert sk. induction es as [|e es IH]; intros sk Hinv.
  - exists sk. split; [reflexivity | exact Hinv].
  - cbn [clicks].
    destruct (click_inv content sk e Hne Hinv) as [sk1 [Hsk1 Hinv1]].
    rewrite Hsk1. cbn [bind]. apply IH. exact Hinv1.
Qed.

(** In a lesson with at least one question, whatever the user clicks: no
    handler throws, the page always renders, and the number of submitted
    answers follows the question index (one per question left behind, one
    more when the current one is answered); so the lesson is completed
    only once an answer has been submitted for every question. *)
Theorem completion_needs_every_answer (content : LessonContent)
    (es : list Event) :
  questions content <> [] ->
  exists s k,
    session content es = Normal (s, k) /\
    (exists screen, render content s = Normal screen) /\
    (mode s = completed -> k = List.length (questions content)) /\
    (mode s = quiz ->
     currentQuestionIdx s < List.length (questions content) /\
     k = currentQuestionIdx s + (if isAnswered s then 1 else 0)).
Proof.
  intros Hne.
  destruct (clicks_inv content es (initial, 0) Hne) as [[s k] [Hrun Hinv]].
  { cbn. auto. }
  exists s, k. split; [exact Hrun|].
  unfold session_inv in Hinv. cbn [fst snd] in Hinv.
  split; [|split].
  - unfold render, current_question. destruct (mode s); eauto.
    destruct Hinv as [Hlt _].
    destruct (nth_error (questions content) (currentQuestionIdx s)) eqn:Hq;
      eauto.
    apply nth_error_None in Hq. lia.
  - intros Hm. rewrite Hm in Hinv. exact Hinv.
  - intros Hm. rewrite Hm in Hinv. exact Hinv.
Qed.

Lemma completion_needs_every_answer_witness :
  exists s k,
    session two_questions [StartQuiz; Next; Select 1%Z; Submit; Submit; Next]
      = Normal (s, k) /\
    (exists screen, render two_questions s = Normal screen) /\
    (mode s = completed -> k = List.length (questions two_questions)) /\
    (mode s = quiz ->
     currentQuestionIdx s < List.length (questions two_questions) /\
     k = currentQuestionIdx s + (if isAnswered s then 1 else 0)).
Proof.
  apply (completion_needs_every_answer two_questions
           [StartQuiz; Next; Select 1%Z; Submit; Submit; Next]).
  discriminate.
Defined.

Lemma clicks_app (content : LessonContent) (es1 es2 : list Event)
    (sk : State * nat) :
  clicks content sk (es1 ++ es2)
  = bind (clicks content sk es1) (fun sk' => clicks content sk' es2).
Proof.
  revert sk. induction es1 as [|e es1 IH]; intros sk; cbn [clicks app bind].
  - reflexivity.
  - destruct (click content sk e) as [sk1|err]; cbn [bind]; [apply IH | reflexivity].
Qed.

(** From an unanswered question on, selecting an option, submitting and
    going on, question after question, ends the quiz. *)
Lemma answer_rest (content : LessonContent) (choices : list Z)
    (rest : list Question) :
  Forall2 (fun idx q => (0 <= idx < len (options q))%Z) choices rest ->
  rest <> [] ->
  forall (done : list Question) (sel : option Z) (c : bool) (k : nat),
    questions content = done ++ rest ->
    exists s',
      clicks content (mkState quiz (List.length done) sel false c, k)
             (answer_with choices)
      = Normal (s', k + List.length rest) /\
      mode s' = completed.
Proof.
  induction 1 as [|idx q choices rest Hidx Hall IH]; [congruence|].
  intros _ done sel c k Hqs.
  change (answer_with (idx :: choices))
    with ([Select idx; Submit; Next] ++ answer_with choices).
  rewrite clicks_app.
  assert (Hq : nth_error (questions content) (List.length done) = Some q).
  { rewrite Hqs, nth_error_app2 by lia. rewrite Nat.sub_diag. reflexivity. }
  assert (Hthree :
    clicks content (mkState quiz (List.length done) sel false c, k)
           [Select idx; Submit; Next]
    = Normal (handleNextQuestion content
                (mkState quiz (List.length done) (Some idx) true
                         (idx =? correct_option_index q)%Z), S k)).
  { cbn [clicks]. unfold click at 1. cbn [fst snd].
    unfold enabled, current_question. cbn [mode isAnswered currentQuestionIdx negb andb].
    rewrite Hq.
    destruct (Z.leb_spec 0 idx); [|lia].
    destruct (Z.ltb_spec idx (len (options q))); [|lia].
    cbn [andb step bind is_submit handleOptionSelect isAnswered mode
         currentQuestionIdx isCorrect fst snd].
    unfold click at 1. cbn [fst snd].
    unfold enabled. cbn [mode isAnswered selectedOption negb andb].
    cbn [step bind is_submit]. unfold handleSubmitAnswer.
    cbn [selectedOption currentQuestionIdx mode]. rewrite Hq.
    cbn [bind fst snd].
    unfold click at 1. cbn [fst snd].
    unfold enabled. cbn [mode isAnswered].
    cbn [step bind is_submit]. reflexivity. }
  rewrite Hthree. cbn [bind].
  unfold handleNextQuestion, len. rewrite Hqs, length_app.
  cbn [List.length currentQuestionIdx mode selectedOption isAnswered isCorrect].
  destruct rest as [|q' rest]; cbn [List.length].
  - inversion Hall. subst.
    destruct (Z.ltb_spec (Z.of_nat (List.length done))
                (Z.of_nat (List.length done + 1) - 1)); [lia|].
    replace (k + 1) with (S k) by lia.
    eexists. split; reflexivity.
  - destruct (Z.ltb_spec (Z.of_nat (List.length done))
                (Z.of_nat (List.length done + S (S (List.length rest))) - 1));
      [|lia].
    destruct (IH ltac:(discriminate) (done ++ [q]) None false (S k))
      as [s' [Hrun Hmode]].
    { rewrite Hqs, <- app_assoc. reflexivity. }
    exists s'. split; [|exact Hmode].
    replace (List.length done + 1) with (List.length (done ++ [q]))
      by (rewrite length_app; reflexivity).
    rewrite Hrun. f_equal. f_equal. cbn [List.length]. lia.
Qed.

(** A quiz is finished by answering, not by answering right: whatever
    option the user picks for each question, picking one, submitting it
    and going on through all the questions ends in the completed lesson,
    with one answer submitted per question. *)
Theorem any_answers_complete_the_lesson (content : LessonContent)
    (choices : list Z) :
  questions content <> [] ->
  valid_choices content choices ->
  exists s,
    session content (StartQuiz :: answer_with choices)
    = Normal (s, List.length (questions content)) /\
    mode s = completed.
Proof.
  intros Hne Hvalid. unfold session. cbn [clicks].
  unfold click. cbn [fst snd enabled initial mode step bind is_submit startQuiz
                     currentQuestionIdx selectedOption isAnswered isCorrect].
  apply (answer_rest content Hvalid Hne [] None false 0). reflexivity.
Qed.

Lemma any_answers_complete_the_lesson_witness :
  exists s,
    session two_questions (StartQuiz :: answer_with [2%Z; 1%Z])
    = Normal (s, List.length (questions two_questions)) /\
    mode s = completed.
Proof.
  apply (any_answers_complete_the_lesson (content := two_questions)
           (choices := [2%Z; 1%Z])).
  - discriminate.
  - repeat constructor; cbn; lia.
Defined.

(** A lesson without questions cannot be taken: starting the quiz makes
    the page throw while rendering. *)
Lemma empty_quiz_throws (content : LessonContent) :
  questions content = [] ->
  exists e, render content (startQuiz initial) = Throw e.
Proof.
  intros Hq. unfold render, current_question. cbn. rewrite Hq. cbn. eauto.
Qed.

End LessonViewUIProofs.

(** ** Dashboard: resolution in any roadmap, failures, moving around *)

Module DashboardNavProofs.
Import JS JSFacts JSObject JSObjectFacts Dashboard DashboardNav.

Lemma In_keys_of_In {V} (o : Obj V) (k : string) (v : V) :
  In (k, v) o -> In k (Object_keys o).
Proof.
  intros H. unfold Object_keys. apply in_map_iff. exists (k, v). auto.
Qed.

(** The resolution never throws, whatever the roadmap and the lesson are.
    What it gives is either the completed pair itself, or a chapter of the
    roadmap together with one of its lessons, or a chapter of the roadmap
    that has no lesson and then no lesson at all. *)
Theorem resolveNext_stays_in_roadmap (r : RoadmapView.Roadmap)
    (cur : CurrentLesson) :
  exists nc nl,
    resolveNext r cur = Normal (nc, nl) /\
    ((nc = Some (chapter cur) /\ nl = Some (lesson cur))
     \/
     exists c', nc = Some c' /\ In c' (Object_keys r) /\
       ((exists l', nl = Some l' /\ RoadmapView.lesson_in r c' l')
        \/ (nl = None /\ get r c' = Some []))).
Proof.
  unfold resolveNext.
  pose proof (indexOf_range (Object_keys r) (chapter cur)) as Hci.
  destruct (Z.eqb_spec (indexOf (Object_keys r) (chapter cur)) (-1))
    as [E|E]; cbn [negb].
  { eexists _, _. split; [reflexivity | left; tauto]. }
  destruct (indexOf_found _ _ E) as [Hrange Hat].
  assert (Hc : In (chapter cur) (Object_keys r))
    by (eapply at_index_In; exact Hat).
  destruct (In_keys_get r _ Hc) as [ls [Hget _]].
  rewrite Hget. cbn [Object_keys_of bind].
  pose proof (indexOf_range (Object_keys ls) (lesson cur)) as Hli.
  destruct (Z.ltb_spec (indexOf (Object_keys ls) (lesson cur))
              (len (Object_keys ls) - 1)) as [Hlt|Hge].
  - (* next lesson in the same chapter *)
    destruct (@at_index_in_range _ (Object_keys ls)
                (indexOf (Object_keys ls) (lesson cur) + 1)%Z) as [l' Hl'];
      [lia|].
    rewrite Hl'. eexists _, _. split; [reflexivity|]. right.
    exists (chapter cur). split; [reflexivity|]. split; [exact Hc|].
    left. exists l'. split; [reflexivity|].
    exists ls. split; [exact Hget|]. eapply at_index_In. exact Hl'.
  - destruct (Z.ltb_spec (indexOf (Object_keys r) (chapter cur))
                (len (Object_keys r) - 1)) as [Hclt|Hcge].
    + (* next chapter *)
      destruct (@at_index_in_range _ (Object_keys r)
                  (indexOf (Object_keys r) (chapter cur) + 1)%Z) as [c' Hc'];
        [lia|].
      rewrite Hc'.
      assert (Hin' : In c' (Object_keys r)) by (eapply at_index_In; exact Hc').
      destruct (In_keys_get r _ Hin') as [ls' [Hget' _]].
      rewrite Hget'. cbn [Object_keys_of bind].
      eexists _, _. split; [reflexivity|]. right.
      exists c'. split; [reflexivity|]. split; [exact Hin'|].
      rewrite at_index_0.
      destruct ls' as [|[l' d'] ls'].
      * right. split; [reflexivity | exact Hget'].
      * left. exists l'. split; [reflexivity|].
        exists ((l', d') :: ls'). split; [exact Hget' | left; reflexivity].
    + eexists _, _. split; [reflexivity | left; tauto].
Qed.

(** A lesson that is not (or no longer) in its chapter: the resolution
    restarts at the first lesson of that chapter. *)
Theorem resolveNext_unknown_lesson (r : RoadmapView.Roadmap)
    (cur : CurrentLesson) (l0 d0 : string) (ls : RoadmapView.Lessons) :
  get r (chapter cur) = Some ((l0, d0) :: ls) ->
  ~ In (lesson cur) (Object_keys ((l0, d0) :: ls)) ->
  resolveNext r cur = Normal (Some (chapter cur), Some l0).
Proof.
  intros Hget Hnot. unfold resolveNext.
  assert (Hc : In (chapter cur) (Object_keys r)).
  { eapply In_keys_of_In. apply get_In. exact Hget. }
  destruct (Z.eqb_spec (indexOf (Object_keys r) (chapter cur)) (-1))
    as [E|E]; cbn [negb].
  { exfalso. revert E. clear -Hc. induction (Object_keys r) as [|y ys IH];
      [contradiction|].
    cbn [indexOf]. destruct (String.eqb_spec y (chapter cur)); [lia|].
    destruct Hc as [Hy|Hc]; [contradiction|].
    destruct (Z.eqb_spec (indexOf ys (chapter cur)) (-1)); [auto|].
    pose proof (indexOf_range ys (chapter cur)). lia. }
  rewrite Hget. cbn [Object_keys_of bind].
  rewrite (indexOf_absent _ _ Hnot).
  unfold len. cbn [Object_keys map List.length fst].
  destruct (Z.ltb_spec (-1) (Z.of_nat (S (List.length (map fst ls))) - 1));
    [|lia].
  reflexivity.
Qed.

Lemma resolveNext_unknown_lesson_witness :
  resolveNext two_chapters (mkCurrentLesson None "A" "Gone")
  = Normal (Some "A"%string, Some "L1"%string).
Proof.
  apply (resolveNext_unknown_lesson two_chapters
           (mkCurrentLesson None "A" "Gone") (l0 := "L1") (d0 := "one")
           (ls := [("L2", "two")]%string)).
  - reflexivity.
  - cbn. intuition discriminate.
Defined.

(** Completing a lesson changes the state only when everything went
    through: with the roadmap fetched and the completion accepted the view
    goes back to the roadmap and no alert is shown; in every other case
    the state is the one before and an alert is shown, and nothing is
    posted unless the roadmap has arrived. *)
Theorem handleLessonComplete_all_or_nothing (s : State) (cur : CurrentLesson)
    (roadmapRes : Settled (option RoadmapView.Roadmap))
    (postRes : Settled unit) :
  currentLesson s = Some cur ->
  let r := handleLessonComplete s roadmapRes postRes in
  ((exists rm u, roadmapRes = Fulfilled (Some rm) /\ postRes = Fulfilled u) ->
   fst r = handleBackToRoadmap s /\
   existsb is_alert (snd r) = false /\ existsb is_post (snd r) = true)
  /\
  (~ (exists rm u, roadmapRes = Fulfilled (Some rm) /\ postRes = Fulfilled u) ->
   fst r = s /\ existsb is_alert (snd r) = true)
  /\
  ((forall rm, roadmapRes <> Fulfilled (Some rm)) ->
   existsb is_post (snd r) = false).
Proof.
  intros Hcur r. subst r. unfold handleLessonComplete. rewrite Hcur.
  destruct roadmapRes as [[rm|]|err].
  - destruct (resolveNext_stays_in_roadmap rm cur) as [nc [nl [Hnext _]]].
    rewrite Hnext.
    destruct postRes as [u|err]; cbn.
    + split; [auto|]. split; [|intros H; exfalso; apply (H rm); reflexivity].
      intros H. exfalso. apply H. eauto.
    + split.
      * intros [rm' [u [_ Hp]]]. discriminate Hp.
      * split; [auto|]. intros H. exfalso. apply (H rm). reflexivity.
  - cbn. split.
    + intros [rm' [u [Hr _]]]. discriminate Hr.
    + auto.
  - cbn. split.
    + intros [rm' [u [Hr _]]]. discriminate Hr.
    + auto.
Qed.

Lemma handleLessonComplete_all_or_nothing_witness :
  let r := handleLessonComplete stale_lesson_state
             (Rejected (mkAxiosError None None (Some 500%Z))) (Fulfilled tt) in
  fst r = stale_lesson_state /\ existsb is_alert (snd r) = true.
Proof.
  apply (proj1 (proj2 (handleLessonComplete_all_or_nothing stale_lesson_state
           (Rejected (mkAxiosError None None (Some 500%Z))) (Fulfilled tt)
           eq_refl))).
  intros [rm [u [H _]]]. discriminate H.
Defined.

Lemma resolveNext_total (r : RoadmapView.Roadmap) (cur : CurrentLesson) :
  exists next, resolveNext r cur = Normal next.
Proof.
  unfold resolveNext.
  destruct (Z.eqb_spec (indexOf (Object_keys r) (chapter cur)) (-1))
    as [E|E]; cbn [negb]; [eauto|].
  destruct (indexOf_found _ _ E) as [Hrange Hat].
  assert (Hc : In (chapter cur) (Object_keys r))
    by (eapply at_index_In; exact Hat).
  destruct (In_keys_get r _ Hc) as [ls [Hget _]].
  rewrite Hget. cbn [Object_keys_of bind].
  destruct (_ <? _)%Z; [eauto|].
  destruct (Z.ltb_spec (indexOf (Object_keys r) (chapter cur))
              (len (Object_keys r) - 1)) as [Hclt|Hcge]; [|eauto].
  destruct (@at_index_in_range _ (Object_keys r)
              (indexOf (Object_keys r) (chapter cur) + 1)%Z) as [c' Hc'];
    [lia|].
  rewrite Hc'.
  assert (Hin' : In c' (Object_keys r)) by (eapply at_index_In; exact Hc').
  destruct (In_keys_get r _ Hin') as [ls' [Hget' _]].
  rewrite Hget'. cbn [Object_keys_of bind]. eauto.
Qed.

(** With nothing in between, the start and the end of a completion are
    one run of [handleLessonComplete]. *)
Lemma finish_at_once (s : State)
    (roadmapRes : Settled (option RoadmapView.Roadmap))
    (postRes : Settled unit) :
  finish s roadmapRes postRes s = fst (handleLessonComplete s roadmapRes postRes).
Proof.
  unfold finish, succeeds, handleLessonComplete.
  destruct (currentLesson s) as [cur|]; [|reflexivity].
  destruct roadmapRes as [[rm|]|err]; try reflexivity.
  destruct postRes as [u|err]; destruct (resolveNext rm cur); reflexivity.
Qed.

Lemma finish_coherent (s : State)
    (roadmapRes : Settled (option RoadmapView.Roadmap))
    (postRes : Settled unit) :
  coherent s -> coherent (finish s roadmapRes postRes s).
Proof.
  intros Hs. unfold finish. destruct (succeeds s roadmapRes postRes) eqn:Hok;
    [|exact Hs].
  unfold succeeds in Hok. destruct s as [v t cl]. cbn in Hok.
  destruct cl as [cur|]; [|discriminate Hok].
  unfold coherent in Hs. cbn in Hs.
  destruct v; try (destruct Hs as [_ Hs]; discriminate Hs).
  destruct Hs as [Ht _]. unfold coherent. cbn. auto.
Qed.

(** A click that starts no completion keeps the state coherent and the
    completions in flight as they are. *)
Lemma click_coherent (n : Nav) (a : Action) :
  match a with
  | ViewRoadmap topic => topic <> ""%string
  | Complete | Settle _ _ _ => False
  | _ => True
  end ->
  coherent (page n) ->
  coherent (page (act n a)) /\ inFlight (act n a) = inFlight n.
Proof.
  intros Ha Hs. destruct n as [[v t cl] fl]. unfold coherent in Hs. cbn in Hs.
  destruct v.
  - (* dashboard *)
    destruct Hs as [-> ->].
    destruct a as [| |topic| |c l| |i roadmapRes postRes];
      try contradiction; cbn; auto.
    split; [|reflexivity]. split; [|reflexivity].
    destruct (String.eqb_spec topic ""); [contradiction | reflexivity].
  - (* create *)
    destruct Hs as [-> ->].
    destruct a as [| |topic| |c l| |i roadmapRes postRes];
      try contradiction; cbn; auto.
  - (* roadmap *)
    destruct Hs as [Ht ->].
    destruct a as [| |topic| |c l| |i roadmapRes postRes];
      try contradiction;
      unfold act, main; cbn [page inFlight view activeTopic currentLesson];
      rewrite ?Ht; cbn; rewrite ?Ht; eauto.
  - (* lesson *)
    destruct Hs as [Ht [c0 [l0 ->]]].
    destruct a as [| |topic| |c l| |i roadmapRes postRes];
      try contradiction;
      unfold act, main; cbn [page inFlight view activeTopic currentLesson];
      cbn; eauto.
Qed.

Lemma complete_then_finish (n : Nav)
    (roadmapRes : Settled (option RoadmapView.Roadmap))
    (postRes : Settled unit) :
  coherent (page n) -> inFlight n = [] ->
  coherent (page (act (act n Complete) (Settle 0 roadmapRes postRes)))
  /\ inFlight (act (act n Complete) (Settle 0 roadmapRes postRes)) = [].
Proof.
  intros Hs Hfl. destruct n as [s fl]. cbn in Hs, Hfl. subst fl.
  assert (Hstart : act (mkNav s []) Complete =
                   match main s with
                   | ShowLessonView _ _ _ => mkNav s [s]
                   | _ => mkNav s []
                   end).
  { unfold act. cbn [page inFlight app]. destruct (main s); reflexivity. }
  rewrite Hstart.
  destruct (main s); unfold act; cbn [page inFlight nth_error without];
    try (split; [exact Hs | reflexivity]).
  split; [|reflexivity]. apply finish_coherent. exact Hs.
Qed.

Lemma uninterrupted_coherent (k : nat) :
  forall (actions : list Action) (n : Nav),
    List.length actions <= k ->
    named_topics actions -> uninterrupted actions ->
    coherent (page n) -> inFlight n = [] ->
    coherent (page (acts n actions)) /\ inFlight (acts n actions) = [].
Proof.
  induction k as [|k IH]; intros actions n Hlen Hnamed Hun Hs Hfl.
  - destruct actions; [|cbn in Hlen; lia]. split; assumption.
  - destruct actions as [|a rest]; [split; assumption|].
    cbn [List.length] in Hlen.
    inversion Hnamed as [|a' rest' Ha Hrest]; subst.
    assert (Hclick :
              match a with
              | ViewRoadmap topic => topic <> ""%string
              | Complete | Settle _ _ _ => False
              | _ => True
              end ->
              uninterrupted rest ->
              coherent (page (acts n (a :: rest)))
              /\ inFlight (acts n (a :: rest)) = []).
    { intros Hok Hun'. destruct (click_coherent n a Hok Hs) as [Hs' Hfl'].
      unfold acts. cbn [fold_left]. apply IH; try assumption; [lia|].
      rewrite Hfl'. exact Hfl. }
    destruct a as [| |topic| |c l| |i roadmapRes postRes];
      try (apply Hclick; [exact I || exact Ha | exact Hun]).
    + (* Complete *)
      cbn [uninterrupted] in Hun.
      destruct rest as [|[| | | | | |[|i] roadmapRes postRes] rest];
        try contradiction.
      cbn [List.length] in Hlen.
      inversion Hrest as [|a'' rest'' _ Hrest']; subst.
      destruct (complete_then_finish n roadmapRes postRes Hs Hfl) as [Hs' Hfl'].
      unfold acts. cbn [fold_left]. apply IH; try assumption. lia.
    + (* Settle *)
      cbn [uninterrupted] in Hun. contradiction.
Qed.

(** As long as nothing else happens while a completion is in flight, the
    view, the active topic and the current lesson fit together whatever
    the user does, in whatever order: a roadmap or a lesson is only shown
    with a topic, the lesson shown is a lesson of the active topic, the
    dashboard and the creation flow hold neither; and the main area is
    never left blank. *)
Theorem navigation_is_coherent (actions : list Action) :
  named_topics actions -> uninterrupted actions ->
  coherent (page (acts start actions))
  /\ main (page (acts start actions)) <> Blank.
Proof.
  intros Hnamed Hun.
  destruct (@uninterrupted_coherent (List.length actions) actions start
              (Nat.le_refl _) Hnamed Hun) as [H _];
    [cbn; auto | reflexivity |].
  split; [exact H|].
  unfold coherent in H. unfold main.
  destruct (view (page (acts start actions))).
  - discriminate.
  - discriminate.
  - destruct H as [Ht _]. rewrite Ht. discriminate.
  - destruct H as [_ [c [l Hcl]]]. rewrite Hcl. discriminate.
Qed.

Lemma navigation_is_coherent_witness :
  coherent (page (acts start
                    [ViewRoadmap "Logic"; SelectLesson "A" "L1"; Complete;
                     Settle 0 (Fulfilled (Some two_chapters)) (Fulfilled tt);
                     NewTopic; ClickLogo]))
  /\ main (page (acts start
                   [ViewRoadmap "Logic"; SelectLesson "A" "L1"; Complete;
                    Settle 0 (Fulfilled (Some two_chapters)) (Fulfilled tt);
                    NewTopic; ClickLogo]))
     <> Blank.
Proof.
  apply (navigation_is_coherent
           (actions :=
              [ViewRoadmap "Logic"; SelectLesson "A" "L1"; Complete;
               Settle 0 (Fulfilled (Some two_chapters)) (Fulfilled tt);
               NewTopic; ClickLogo])).
  - repeat constructor. discriminate.
  - exact I.
Defined.

(** Why the topics must be named: an empty topic leaves the main area
    blank. *)
Example unnamed_topic_blank :
  main (page (acts start [ViewRoadmap ""])) = Blank.
Proof. reflexivity. Qed.

(** Why nothing may happen in between: a click on the logo while the
    completion of the lesson shown is in flight goes to the dashboard and
    clears the active topic; when the completion then gets through, its
    [handleBackToRoadmap] sets the view to the roadmap, and with no active
    topic the main area shows nothing. *)
Theorem logo_click_during_completion_blanks (n : Nav) (t : option string)
    (c l : string) (roadmapResult : RoadmapView.Roadmap) (u : unit) :
  main (page n) = ShowLessonView t c l ->
  let n' := acts n [Complete; ClickLogo;
                    Settle (List.length (inFlight n))
                           (Fulfilled (Some roadmapResult)) (Fulfilled u)] in
  page n' = mkState roadmap None None /\ main (page n') = Blank.
Proof.
  intros Hmain. destruct n as [s fl]. cbn [page inFlight] in *.
  assert (Hcur : exists cur, currentLesson s = Some cur).
  { unfold main in Hmain. destruct (view s); try discriminate Hmain.
    - destruct (truthy_string (activeTopic s)); discriminate Hmain.
    - destruct (currentLesson s); [eauto | discriminate Hmain]. }
  destruct Hcur as [cur Hcur].
  destruct (resolveNext_total roadmapResult cur) as [next Hnext].
  assert (Hstart : act (mkNav s fl) Complete = mkNav s (fl ++ [s])).
  { unfold act. cbn [page inFlight]. rewrite Hmain. reflexivity. }
  assert (Hlogo : act (mkNav s (fl ++ [s])) ClickLogo =
                  mkNav (handleBackToDashboard s) (fl ++ [s])).
  { unfold act. cbn [page inFlight]. destruct (main s); reflexivity. }
  assert (Hnth : nth_error (fl ++ [s]) (List.length fl) = Some s).
  { rewrite nth_error_app2 by lia. rewrite Nat.sub_diag. reflexivity. }
  unfold acts. cbn [fold_left]. rewrite Hstart, Hlogo.
  unfold act. cbn [page inFlight]. rewrite Hnth. cbn [page].
  unfold finish, succeeds. rewrite Hcur, Hnext. cbn. split; reflexivity.
Qed.

Lemma logo_click_during_completion_blanks_witness :
  main (page (acts (acts start [ViewRoadmap "Logic"; SelectLesson "A" "L1"])
                [Complete; ClickLogo;
                 Settle 0 (Fulfilled (Some two_chapters)) (Fulfilled tt)]))
  = Blank.
Proof.
  exact (proj2 (@logo_click_during_completion_blanks
                  (acts start [ViewRoadmap "Logic"; SelectLesson "A" "L1"])
                  (Some "Logic"%string) "A" "L1" two_chapters tt eq_refl)).
Defined.

End DashboardNavProofs.

(** ** TopicDashboard: how a chain of requests ends *)

Module TopicDashboardRetryProofs.
Import JS TopicDashboard TopicDashboardProofs TopicDashboardRetry.

Lemma fetchTopics_fulfilled_step
    (answers : nat -> Settled (option (list string))) (cl : bool) (k : nat)
    (s : State) (data : option (list string)) :
  answers k = Fulfilled data ->
  fetchTopics answers cl k s =
  (fetchTopics_finally cl k
     (setError None (setTopics (topics_of data) (fetchTopics_begin s))),
   [GetTopics]).
Proof.
  intros Hans. funelim (fetchTopics answers cl k s); try congruence.
  rewrite Heq in Hans. injection Hans as <-. reflexivity.
Qed.

Lemma fetchTopics_stop_step
    (answers : nat -> Settled (option (list string))) (cl : bool) (k : nat)
    (s : State) (err : AxiosError) :
  answers k = Rejected err ->
  isBackendDown err = false \/ 5 <= k ->
  fetchTopics answers cl k s =
  (fetchTopics_finally cl k
     (setTopics []
        (setError (Some (if isBackendDown err then BackendNotRunning
                         else FailedToLoad))
                  (fetchTopics_begin s))),
   [GetTopics; ConsoleError]).
Proof.
  intros Hans Hstop. funelim (fetchTopics answers cl k s).
  - congruence.
  - rewrite Heq1 in Hans. injection Hans as <-.
    destruct Hstop as [Hd|Hk]; [congruence | lia].
  - rewrite Heq1 in Hans. injection Hans as <-. rewrite Heq0. reflexivity.
  - rewrite Heq0 in Hans. injection Hans as <-. reflexivity.
Qed.

Lemma finally_keeps (cl : bool) (k : nat) (s : State) :
  topics (fetchTopics_finally cl k s) = topics s /\
  error (fetchTopics_finally cl k s) = error s.
Proof.
  unfold fetchTopics_finally.
  destruct ((k =? 0) || negb cl); split; reflexivity.
Qed.

Lemma chain_outcome (answers : nat -> Settled (option (list string)))
    (cl : bool) (k : nat) :
  k <= 5 ->
  forall d i (s : State),
    i + d = k ->
    (forall j, i <= j < k ->
       exists err, answers j = Rejected err /\ isBackendDown err = true) ->
    (forall data, answers k = Fulfilled data ->
       topics (fst (fetchTopics answers cl i s)) = topics_of data /\
       error (fst (fetchTopics answers cl i s)) = None /\
       requests (snd (fetchTopics answers cl i s)) = d + 1)
    /\
    (forall err, answers k = Rejected err ->
       isBackendDown err = false \/ k = 5 ->
       topics (fst (fetchTopics answers cl i s)) = [] /\
       error (fst (fetchTopics answers cl i s))
       = Some (if isBackendDown err then BackendNotRunning
               else FailedToLoad) /\
       requests (snd (fetchTopics answers cl i s)) = d + 1).
Proof.
  intros Hk. induction d as [|d IH]; intros i s Hid Hdown.
  - assert (i = k) by lia. subst i. split.
    + intros data Hans.
      rewrite (@fetchTopics_fulfilled_step answers cl k s data Hans).
      cbn [fst snd].
      destruct (finally_keeps cl k
        (setError None (setTopics (topics_of data) (fetchTopics_begin s))))
        as [-> ->]. repeat split.
    + intros err Hans Hstop.
      assert (Hstop' : isBackendDown err = false \/ 5 <= k)
        by (destruct Hstop; [left; assumption | right; lia]).
      rewrite (@fetchTopics_stop_step answers cl k s err Hans Hstop').
      cbn [fst snd].
      destruct (finally_keeps cl k
        (setTopics []
           (setError (Some (if isBackendDown err then BackendNotRunning
                            else FailedToLoad)) (fetchTopics_begin s))))
        as [-> ->]. repeat split.
  - destruct (Hdown i) as [e [Hans Hd]]; [lia|].
    assert (Hlt : i < 5) by lia.
    rewrite (@fetchTopics_retry_step answers cl i s e Hans Hd Hlt).
    unfold after. cbn [fst snd].
    destruct (IH (i + 1)
                (fetchTopics_finally cl i (fetchTopics_begin s)))
      as [Hok Hbad]; [lia | intros j Hj; apply Hdown; lia |].
    split.
    + intros data Hk'. destruct (Hok data Hk') as [H1 [H2 H3]].
      repeat split; try assumption.
      unfold requests in *. cbn. rewrite H3. lia.
    + intros err Hk' Hstop. destruct (Hbad err Hk' Hstop) as [H1 [H2 H3]].
      repeat split; try assumption.
      unfold requests in *. cbn. rewrite H3. lia.
Qed.

(** The chain started on mount, by the first request that does not fail
    with the backend down. If it is fulfilled, the topics are the ones it
    carries and no error is set; if it fails otherwise, or is the sixth
    failure, the list is empty and the error is set. In each case no
    request follows it. *)
Theorem mount_outcome (answers : nat -> Settled (option (list string)))
    (k : nat) :
  k <= 5 -> down_before answers k ->
  (forall data, answers k = Fulfilled data ->
     topics (fst (mount answers)) = topics_of data /\
     error (fst (mount answers)) = None /\
     requests (snd (mount answers)) = k + 1)
  /\
  (forall err, answers k = Rejected err ->
     isBackendDown err = false \/ k = 5 ->
     topics (fst (mount answers)) = [] /\
     error (fst (mount answers))
     = Some (if isBackendDown err then BackendNotRunning else FailedToLoad) /\
     requests (snd (mount answers)) = k + 1).
Proof.
  intros Hk Hdown. unfold mount.
  apply (@chain_outcome answers (loading initial) k Hk k 0 initial);
    [lia|].
  intros j Hj. apply Hdown. lia.
Qed.

Lemma mount_outcome_witness :
  let answers := fun j => if (j <? 2)%nat then Rejected network_error
                          else Fulfilled (Some ["Logic"%string]) in
  topics (fst (mount answers)) = ["Logic"%string] /\
  error (fst (mount answers)) = None /\
  requests (snd (mount answers)) = 2 + 1.
Proof.
  intros answers.
  apply (proj1 (@mount_outcome answers 2 ltac:(lia)
                  ltac:(intros j Hj; exists network_error;
                        destruct j as [|[|j]]; [split; reflexivity
                                               | split; reflexivity | lia]))
               (Some ["Logic"%string])).
  reflexivity.
Defined.

Lemma manual_chain_clears_loading
    (answers : nat -> Settled (option (list string))) (k : nat) (s : State) :
  loading (fst (fetchTopics answers false k s)) = false.
Proof.
  funelim (fetchTopics answers false k s).
  - unfold fetchTopics_finally. rewrite orb_true_r. reflexivity.
  - unfold after. cbn [fst]. assumption.
  - unfold fetchTopics_finally. rewrite orb_true_r. reflexivity.
  - unfold fetchTopics_finally. rewrite orb_true_r. reflexivity.
Qed.

(** A chain started with the Retry button of a page that was rendered
    with the spinner off always ends with the spinner off: the page is
    shown, with the error banner exactly when the chain has stored an
    error, and then with an empty list. *)
Theorem retry_button_ends_on_the_page
    (answers : nat -> Settled (option (list string))) (s : State) :
  loading s = false ->
  let s' := fst (clickRetry answers s) in
  loading s' = false /\
  render s' = Page (error s') /\
  (forall m, error s' = Some m -> topics s' = []).
Proof.
  intros Hl s'. subst s'. unfold clickRetry. rewrite Hl.
  pose proof (manual_chain_clears_loading answers 0 s) as Hload.
  split; [exact Hload|]. split.
  - unfold render. rewrite Hload. reflexivity.
  - intros m. apply fetchTopics_error_topics.
Qed.

Lemma retry_button_ends_on_the_page_witness :
  let s' := fst (clickRetry backend_down two_topics) in
  loading s' = false /\
  render s' = Page (error s') /\
  (forall m, error s' = Some m -> topics s' = []).
Proof.
  apply (@retry_button_ends_on_the_page backend_down two_topics).
  reflexivity.
Defined.

End TopicDashboardRetryProofs.

(** ** LearnTopicFlow *)

Module LearnTopicFlowProofs.
Import JS JSObject LearnTopicFlow.
Local Open Scope string_scope.

Lemma fold_classify (flags : list (nat * bool)) (items : list string) :
  forall known unknown idx,
    fold_left (classify flags) items (known, unknown, idx) =
    ((known ++ items_with flags true idx items)%list,
     (unknown ++ items_with flags false idx items)%list,
     idx + List.length items).
Proof.
  induction items as [|item items IH]; intros known unknown idx.
  - cbn. rewrite !app_nil_r, Nat.add_0_r. reflexivity.
  - cbn [fold_left classify items_with List.length].
    destruct (known_at flags idx) eqn:Hk; cbn [Bool.eqb]; rewrite IH;
      rewrite <- app_assoc; cbn [app]; f_equal; lia.
Qed.

Lemma sort_prerequisites_items_with (flags : list (nat * bool))
    (items : list string) :
  sort_prerequisites flags items =
  (items_with flags true 0 items, items_with flags false 0 items).
Proof.
  unfold sort_prerequisites. rewrite fold_classify. reflexivity.
Qed.

Lemma items_with_permutation (flags : list (nat * bool)) (items : list string) :
  forall idx,
    Permutation (items_with flags true idx items
                 ++ items_with flags false idx items)%list items.
Proof.
  induction items as [|item items IH]; intros idx; cbn [items_with].
  - constructor.
  - destruct (known_at flags idx); cbn [Bool.eqb app].
    + constructor. apply IH.
    + apply Permutation_sym, Permutation_cons_app, Permutation_sym, IH.
Qed.

Lemma items_with_nth (flags : list (nat * bool)) (items : list string) :
  forall idx i item,
    nth_error items i = Some item ->
    In item (items_with flags (known_at flags (idx + i)) idx items).
Proof.
  induction items as [|x items IH]; intros idx i item Hnth.
  - destruct i; discriminate Hnth.
  - destruct i as [|i]; cbn [nth_error] in Hnth; cbn [items_with].
    + injection Hnth as ->. rewrite Nat.add_0_r, Bool.eqb_reflx. left. reflexivity.
    + replace (idx + S i) with (S idx + i) by lia.
      destruct (Bool.eqb (known_at flags idx) (known_at flags (S idx + i)));
        [right|]; apply IH; exact Hnth.
Qed.

Lemma items_with_none (flags : list (nat * bool)) (items : list string) :
  (forall idx, known_at flags idx = false) ->
  forall idx, items_with flags true idx items = []
              /\ items_with flags false idx items = items.
Proof.
  intros Hnone. induction items as [|x items IH]; intros idx; cbn [items_with].
  - split; reflexivity.
  - rewrite Hnone. cbn [Bool.eqb]. destruct (IH (S idx)) as [-> ->].
    split; reflexivity.
Qed.

(** The two lists sent to the planning request split the
    prerequisites: each list keeps the order of the page, together they
    are the prerequisites, each one once; the item at an index goes to
    the known list exactly when that index holds [true]; with no index
    holding [true], all of them are sent as unknown. *)
Theorem prerequisites_are_split (flags : list (nat * bool))
    (items : list string) :
  let lists := sort_prerequisites flags items in
  lists = (items_with flags true 0 items, items_with flags false 0 items)
  /\ Permutation (fst lists ++ snd lists)%list items
  /\ (forall idx item,
        nth_error items idx = Some item ->
        In item (if known_at flags idx then fst lists else snd lists))
  /\ ((forall idx, known_at flags idx = false) -> lists = ([], items)).
Proof.
  cbv zeta. rewrite sort_prerequisites_items_with. cbn [fst snd].
  split; [reflexivity|]. split; [apply items_with_permutation|]. split.
  - intros idx item Hnth.
    pose proof (items_with_nth flags items 0 idx Hnth) as Hin.
    cbn [Nat.add] in Hin. destruct (known_at flags idx); exact Hin.
  - intros Hnone. destruct (items_with_none flags items Hnone 0) as [-> ->].
    reflexivity.
Qed.

Lemma known_at_with_answer (known : list (nat * bool)) (idx : nat) (v : bool) :
  known_at (with_answer known idx v) idx = v
  /\ forall j, j <> idx ->
       known_at (with_answer known idx v) j = known_at known j.
Proof.
  induction known as [|[i b] known [IHsame IHother]]; cbn [with_answer known_at].
  - rewrite Nat.eqb_refl. split; [reflexivity|].
    intros j Hj. destruct (Nat.eqb_spec idx j); [congruence|reflexivity].
  - destruct (Nat.eqb_spec i idx) as [->|Hi]; cbn [known_at].
    + rewrite Nat.eqb_refl. split; [reflexivity|].
      intros j Hj. destruct (Nat.eqb_spec idx j); [congruence|reflexivity].
    + destruct (Nat.eqb_spec i idx); [contradiction|]. split; [exact IHsame|].
      intros j Hj. destruct (Nat.eqb_spec i j); [reflexivity|].
      apply IHother. exact Hj.
Qed.

(** The button pressed last beside a prerequisite decides the list it
    is sent in, whatever was pressed before; the other prerequisites stay
    where they were. *)
Theorem last_answer_decides (s : State) (idx : nat) (v : bool)
    (item : string) :
  nth_error (prerequisites s) idx = Some item ->
  let before := sort_prerequisites (knownPrerequisites s) (prerequisites s) in
  let s' := clickKnown idx v s in
  let after := sort_prerequisites (knownPrerequisites s') (prerequisites s') in
  In item (if v then fst after else snd after)
  /\ forall j other,
       j <> idx -> nth_error (prerequisites s) j = Some other ->
       In other (if known_at (knownPrerequisites s) j
                 then fst after else snd after).
Proof.
  intros Hnth. cbv zeta.
  destruct (known_at_with_answer (knownPrerequisites s) idx v) as [Hsame Hother].
  destruct s as [st ld er tp fa items known fs]. cbn in *.
  destruct (prerequisites_are_split (with_answer known idx v) items)
    as (_ & _ & Hin & _).
  cbv zeta in Hin. split.
  - specialize (Hin idx item Hnth). rewrite Hsame in Hin. exact Hin.
  - intros j other Hj Hnj. specialize (Hin j other Hnj).
    rewrite (Hother j Hj) in Hin. exact Hin.
Qed.

Lemma last_answer_decides_witness :
  In "Functions"
     (fst (sort_prerequisites
             (knownPrerequisites (clickKnown 1 true ready))
             (prerequisites (clickKnown 1 true ready)))).
Proof.
  exact (proj1 (@last_answer_decides ready 1 true "Functions" eq_refl)).
Defined.

Lemma or_else_default (a : option string) (d : string) :
  d <> "" -> to_display (or_else a (Some d)) <> "".
Proof.
  intros Hd. unfold or_else. destruct a as [x|]; cbn.
  - destruct (String.eqb_spec x ""); cbn; [exact Hd|assumption].
  - exact Hd.
Qed.

Lemma or_else_truthy (a : option string) (d : string) :
  d <> "" -> truthy_string (or_else a (Some d)) = true.
Proof.
  intros Hd. unfold or_else. destruct a as [x|]; cbn.
  - destruct (String.eqb_spec x "") as [->|Hx]; cbn.
    + destruct (String.eqb_spec d ""); [contradiction|reflexivity].
    + destruct (String.eqb_spec x ""); [contradiction|reflexivity].
  - destruct (String.eqb_spec d ""); [contradiction|reflexivity].
Qed.

(** Asking for the prerequisites. With an empty topic or focus area
    nothing happens and nothing is sent. Otherwise exactly one request is
    sent, carrying the topic and the focus area, and the spinner is off
    afterwards; a reply is followed by nothing else and moves to step 3
    with the prerequisites of the reply and no error; a failure is
    followed by [console.error] only, stays on the step and always shows
    a non-empty message. *)
Theorem fetch_prerequisites_outcome (res : Outcome (list string)) (s : State) :
  let '(s', effs) := handleFetchPrerequisites res s in
  (topic s = "" \/ focusArea s = "" -> s' = s /\ effs = [])
  /\ (topic s <> "" -> focusArea s <> "" ->
      loading s' = false
      /\ match res with
         | Done prereqs =>
             effs = [PostPrerequisites (topic s) (focusArea s)]
             /\ step s' = 3 /\ prerequisites s' = prereqs /\ error s' = None
         | Failed _ =>
             effs = [PostPrerequisites (topic s) (focusArea s); ConsoleError]
             /\ step s' = step s /\ prerequisites s' = prerequisites s
             /\ truthy_string (error s') = true
         end).
Proof.
  unfold handleFetchPrerequisites, truthy_string.
  destruct (String.eqb_spec (topic s) "") as [Ht|Ht]; cbn [negb orb].
  - split; [intros _; split; reflexivity|]. intros Hne. contradiction.
  - destruct (String.eqb_spec (focusArea s) "") as [Hf|Hf]; cbn [negb].
    + split; [intros _; split; reflexivity|]. intros _ Hne. contradiction.
    + destruct res as [prereqs|err].
      * split; [intros [H|H]; contradiction|]. intros _ _. cbn. tauto.
      * split; [intros [H|H]; contradiction|]. intros _ _. cbn.
        repeat split. apply or_else_truthy. discriminate.
Qed.

Lemma fetch_prerequisites_outcome_witness :
  step (fst (handleFetchPrerequisites (Done ["Sets"]) ready)) = 3.
Proof.
  pose proof (fetch_prerequisites_outcome (Done ["Sets"]) ready) as H.
  cbn in H.
  exact (proj1 (proj2 (proj2 (proj2 H ltac:(discriminate) ltac:(discriminate))))).
Defined.

(** Submitting everything ends with the spinner off, in one of two
    ways. Success: no error, step 5, the planning reply held a roadmap with
    at least one chapter, and the requests were the upload (only when
    files were chosen), the planning request and the save of that roadmap,
    in this order. Failure: the step is unchanged, the error is
    ["Error: "] followed by a non-empty text, and nothing was saved unless
    the save itself failed. In both: files are uploaded exactly when some
    were chosen, a roadmap is saved only if it is the non-empty roadmap of
    the planning reply, and planning is never requested after a failed
    upload. *)
Theorem submit_all_outcome (uploadRes : Outcome unit)
    (planningRes : Outcome (option RoadmapView.Roadmap))
    (saveRes : Outcome unit) (s : State) :
  let '(s', effs) := handleSubmitAll uploadRes planningRes saveRes s in
  let lists := sort_prerequisites (knownPrerequisites s) (prerequisites s) in
  let upload := if (0 <? len (files s))%Z
                then [PostUpload (topic s) (files s)] else [] in
  loading s' = false
  /\ ((error s' = None /\ step s' = 5
       /\ exists r,
            planningRes = Done (Some r) /\ Object_keys r <> []
            /\ effs = (upload ++
                       [PostPlanning (topic s) (focusArea s) (fst lists) (snd lists);
                        PostRoadmap (topic s) r])%list)
      \/ (exists msg,
            error s' = Some ("Error: " ++ msg) /\ msg <> ""
            /\ step s' = step s
            /\ last effs (PostPrerequisites "" "") = ConsoleError
            /\ (existsb is_save effs = true -> exists err, saveRes = Failed err)))
  /\ existsb is_upload effs = (0 <? len (files s))%Z
  /\ (forall t r, In (PostRoadmap t r) effs ->
        t = topic s /\ planningRes = Done (Some r) /\ Object_keys r <> [])
  /\ (existsb is_planning effs = true ->
        files s = [] \/ exists u, uploadRes = Done u).
Proof.
  assert (Hmsg : forall err,
             to_display (or_else (or_else (data_detail err) (err_message err))
                                 (Some "Failed to generate roadmap")) <> "").
  { intros err. apply or_else_default. discriminate. }
  destruct s as [st ld er tp fa items known fs].
  unfold handleSubmitAll. cbn [files topic focusArea prerequisites knownPrerequisites].
  set (lists := sort_prerequisites known items).
  assert (Hfs : (0 <? len fs)%Z = match fs with [] => false | _ => true end).
  { destruct fs; reflexivity. }
  rewrite Hfs. clear Hfs.
  destruct fs as [|f fs];
    destruct uploadRes as [u|uerr];
    destruct planningRes as [[[|[c ls] r]|]|perr];
    destruct saveRes as [sv|serr];
    cbn -[or_else String.append];
    (split; [reflexivity|]);
    (split;
     [ first
         [ left; split; [reflexivity|]; split; [reflexivity|];
           eexists; split; [reflexivity|];
           split; [cbn; discriminate|reflexivity]
         | right; eexists; split; [reflexivity|];
           split; [apply or_else_default; discriminate|];
           split; [reflexivity|]; split; [reflexivity|];
           first [ discriminate | intros _; eexists; reflexivity ] ]
     | split; [reflexivity|]; split;
       [ intros t r0 Hin;
         repeat (destruct Hin as [Hin|Hin]; [try discriminate Hin|]);
         try contradiction;
         try (inversion Hin; subst; split; [reflexivity|];
              split; [reflexivity|cbn; discriminate])
       | first [ discriminate
               | intros _; left; reflexivity
               | intros _; right; eexists; reflexivity ] ] ]).
Qed.

End LearnTopicFlowProofs.

(** ** SchedulingModal *)

Module SchedulingModalProofs.
Import JS SchedulingModal.
Local Open Scope string_scope.

Lemma edit_outcome (e : Edit) (res : Settled unit) (s : State) :
  let '(s', effs) := edit e res s in
  autoSettings s' = (if saved (e, res) then edited e (autoSettings s)
                     else autoSettings s)
  /\ saving s' = false
  /\ scheduling s' = scheduling s
  /\ sessions s' = sessions s
  /\ fetchingSessions s' = fetchingSessions s
  /\ List.length (filter is_post effs) = 1.
Proof.
  unfold edit, saveSettings, saved. destruct res as [u|err]; cbn; tauto.
Qed.

Lemma edited_last_run (e : Edit) (a : Settings) :
  last_run (edited e a) = last_run a.
Proof. destruct e; reflexivity. Qed.

Lemma edits_last_run (l : list Edit) :
  forall a, last_run (fold_left (fun a e => edited e a) l a) = last_run a.
Proof.
  induction l as [|e l IH]; intros a; cbn [fold_left]; [reflexivity|].
  rewrite IH. apply edited_last_run.
Qed.

(** A run of edits in the automation panel, each awaited before the
    next. The settings shown at the end are the first ones with exactly
    the edits whose save succeeded applied in order: a failed save is
    skipped and the next edit starts from what is shown. Every edit posts
    once, none touches the last-run time, the sessions or the schedule
    button, and the switch is enabled again at the end. *)
Theorem only_saved_edits_show (l : list (Edit * Settled unit)) (s : State) :
  let '(s', effs) := edits l s in
  autoSettings s' =
    fold_left (fun a e => edited e a) (map fst (filter saved l)) (autoSettings s)
  /\ List.length (filter is_post effs) = List.length l
  /\ last_run (autoSettings s') = last_run (autoSettings s)
  /\ saving s' = (match l with [] => saving s | _ => false end)
  /\ scheduling s' = scheduling s
  /\ sessions s' = sessions s
  /\ fetchingSessions s' = fetchingSessions s.
Proof.
  revert s. induction l as [|[e res] l IH]; intros s.
  - cbn. tauto.
  - cbn [edits].
    pose proof (edit_outcome e res s) as H1.
    destruct (edit e res s) as [s1 e1].
    destruct H1 as (Ha1 & Hs1 & Hsch1 & Hses1 & Hf1 & Hn1).
    specialize (IH s1). destruct (edits l s1) as [s2 e2].
    destruct IH as (Ha & Hn & Hl & Hsv & Hsch & Hses & Hf).
    assert (Hauto : autoSettings s2 =
                    fold_left (fun a e0 => edited e0 a)
                              (map fst (filter saved ((e, res) :: l)))
                              (autoSettings s)).
    { rewrite Ha, Ha1. cbn [filter]. destruct (saved (e, res)); reflexivity. }
    split; [exact Hauto|].
    split; [rewrite filter_app, length_app, Hn1, Hn; reflexivity|].
    split; [rewrite Hauto; apply edits_last_run|].
    split; [destruct l; [rewrite Hsv; exact Hs1 | exact Hsv]|].
    split; [congruence|]. split; congruence.
Qed.

(** The schedule button. It always posts the trigger first and is
    enabled again at the end. Only a reply whose status is ["success"]
    refreshes: the settings then the sessions are requested, a failed
    settings request does not stop the sessions request, the settings
    shown are the fetched ones if that request succeeded, the sessions
    shown are the fetched ones if that request succeeded with status
    ["success"], and the sessions spinner is off. In every other case
    nothing is requested and settings, sessions and spinner are as
    before. *)
Theorem schedule_now_refreshes_on_success
    (triggerRes : Settled (option string)) (settingsRes : Settled Settings)
    (sessionsRes : Settled SessionsReply) (s : State) :
  let '(s', effs) := handleScheduleNow triggerRes settingsRes sessionsRes s in
  let ok := match triggerRes with
            | Fulfilled st => succeeded st
            | Rejected _ => false
            end in
  scheduling s' = false /\ saving s' = saving s
  /\ hd_error effs = Some PostTriggerNow
  /\ (if ok then
        filter (fun e => match e with
                         | GetSettings | GetSessions => true
                         | _ => false
                         end) effs = [GetSettings; GetSessions]
        /\ autoSettings s' = match settingsRes with
                             | Fulfilled data => data
                             | Rejected _ => autoSettings s
                             end
        /\ sessions s' = match sessionsRes with
                         | Fulfilled data =>
                             if succeeded (status data)
                             then reply_sessions data else sessions s
                         | Rejected _ => sessions s
                         end
        /\ fetchingSessions s' = false
      else
        filter (fun e => match e with
                         | PostTriggerNow | ConsoleError => false
                         | _ => true
                         end) effs = []
        /\ autoSettings s' = autoSettings s
        /\ sessions s' = sessions s
        /\ fetchingSessions s' = fetchingSessions s).
Proof.
  unfold handleScheduleNow, succeeded.
  destruct triggerRes as [st|err]; [|cbn; tauto].
  destruct (strict_eq st (Some "success")); [|cbn; tauto].
  unfold fetchSettings, fetchSessions.
  destruct settingsRes as [data|err]; destruct sessionsRes as [reply|err'];
    cbn; try tauto;
    destruct (strict_eq (status reply) (Some "success")); cbn; tauto.
Qed.

(** Opening the modal starts both loads without awaiting either. They
    write different fields, so the page ends the same whichever reply is
    handled first. *)
Theorem open_loads_commute (settingsRes : Settled Settings)
    (sessionsRes : Settled SessionsReply) (s : State) :
  fst (fetchSessions sessionsRes (fst (fetchSettings settingsRes s))) =
  fst (fetchSettings settingsRes (fst (fetchSessions sessionsRes s))).
Proof.
  unfold fetchSettings, fetchSessions.
  destruct settingsRes as [data|err]; destruct sessionsRes as [reply|err'];
    cbn; try reflexivity;
    destruct (strict_eq (status reply) (Some "success")); reflexivity.
Qed.

End SchedulingModalProofs.

(** ** Dashboard: the calendar button *)

Module DashboardCalendarProofs.
Import JS JSObject DashboardCalendar.
Local Open Scope string_scope.

(** The calendar button. A connect request is sent exactly when the
    calendar is not connected and credentials are known; the calendar
    shows as connected afterwards only if it was before or that request
    succeeded; a press that leaves it unconnected always raises an alert
    and opens nothing; a press while connected only opens the scheduling
    modal; the button is never left disabled by this press; the
    credentials flag is never written. *)
Theorem connect_button (configRes : Settled ConfigReply)
    (connectRes : Settled unit) (s : State) :
  let '(s', effs) := handleConnectCalendar configRes connectRes s in
  existsb is_connect effs = negb (calendarConnected s) && hasCredentials s
  /\ hasCredentials s' = hasCredentials s
  /\ (calendarConnected s' = true ->
      calendarConnected s = true \/ exists u, connectRes = Fulfilled u)
  /\ (calendarConnected s' = false ->
      existsb is_alert effs = true
      /\ isGeneralSchedulingOpen s' = isGeneralSchedulingOpen s)
  /\ (calendarConnected s = true ->
      effs = [] /\ s' = setIsGeneralSchedulingOpen true s)
  /\ (calendarLoading s' = true ->
      calendarLoading s = true /\ existsb is_connect effs = false).
Proof.
  destruct s as [cc hc cl op]. unfold handleConnectCalendar.
  cbn [calendarConnected hasCredentials].
  destruct cc; [cbn; repeat split; try discriminate; auto|].
  destruct hc; cbn [negb].
  - destruct connectRes as [u|err]; cbn; repeat split;
      try discriminate; eauto.
  - destruct configRes as [details|err]; cbn; repeat split;
      try discriminate; auto.
Qed.

(** The check made when the dashboard mounts. Both requests are
    always sent, the status one first, whatever becomes of it; each flag
    is written exactly when its request succeeds, with the value of the
    reply; nothing else changes and the user is never alerted. *)
Theorem mount_checks_both (statusRes : Settled StatusReply)
    (configRes : Settled ConfigReply) (s : State) :
  let '(s', effs) := checkStatus statusRes configRes s in
  filter (fun e => match e with
                   | GetStatus | GetConfigStatus => true
                   | _ => false
                   end) effs = [GetStatus; GetConfigStatus]
  /\ existsb is_alert effs = false
  /\ existsb is_connect effs = false
  /\ calendarConnected s' = match statusRes with
                            | Fulfilled data => connected data
                            | Rejected _ => calendarConnected s
                            end
  /\ hasCredentials s' = match configRes with
                         | Fulfilled data => has_credentials data
                         | Rejected _ => hasCredentials s
                         end
  /\ calendarLoading s' = calendarLoading s
  /\ isGeneralSchedulingOpen s' = isGeneralSchedulingOpen s.
Proof.
  unfold checkStatus.
  destruct statusRes as [sd|serr]; destruct configRes as [cd|cerr];
    try destruct (truthy_string (status_error sd));
    try destruct (truthy_string (config_error cd));
    cbn; tauto.
Qed.

End DashboardCalendarProofs.

(** ** RoadmapView, the version that keeps completion in local storage *)

Module RoadmapViewLocalProofs.
Import JS JSObject JSObjectFacts RoadmapViewLocal.
Local Open Scope string_scope.

Lemma set_prop_keys {V} (o : Obj V) (k : string) (v : V) :
  List.length (Object_keys (set_prop o k v)) =
  match get o k with
  | Some _ => List.length (Object_keys o)
  | None => S (List.length (Object_keys o))
  end.
Proof.
  unfold Object_keys.
  induction o as [|[k' v'] o IH]; cbn [set_prop get].
  - reflexivity.
  - destruct (String.eqb k' k); cbn [map List.length].
    + reflexivity.
    + rewrite IH. destruct (get o k); reflexivity.
Qed.

Lemma toggleLesson_keys (chapter lesson : string) (prev : Obj bool) :
  headerCompletedCount (toggleLesson chapter lesson prev) =
  match get prev (lesson_key chapter lesson) with
  | Some _ => headerCompletedCount prev
  | None => S (headerCompletedCount prev)
  end.
Proof.
  unfold headerCompletedCount, toggleLesson. cbv zeta. apply set_prop_keys.
Qed.

Lemma toggleLesson_count (chapter lesson : string) (prev : Obj bool) :
  headerCompletedCount prev <=
  headerCompletedCount (toggleLesson chapter lesson prev).
Proof.
  rewrite toggleLesson_keys.
  destruct (get prev (lesson_key chapter lesson)) as [b|];
    [apply Nat.le_refl | apply Nat.le_succ_diag_r].
Qed.

(** The number the header shows as completed is the number of keys
    ever toggled: no run of clicks on lessons makes it smaller, also not
    clicks that un-check lessons. *)
Theorem header_count_never_decreases (clicks : list (string * string))
    (prev : Obj bool) :
  headerCompletedCount prev <= headerCompletedCount (toggles clicks prev).
Proof.
  revert prev. induction clicks as [|[chapter lesson] clicks IH]; intros prev.
  - apply Nat.le_refl.
  - cbn [toggles]. etransitivity; [apply toggleLesson_count | apply IH].
Qed.

(** Checking a lesson never seen before and un-checking it again
    leaves every row of the page as it was, and yet the header counts one
    completed lesson more. *)
Theorem unchecked_lesson_still_counted (chapter lesson : string)
    (prev : Obj bool) :
  get prev (lesson_key chapter lesson) = None ->
  let after := toggleLesson chapter lesson (toggleLesson chapter lesson prev) in
  (forall c l, isCompleted after c l = isCompleted prev c l)
  /\ (forall c lessons,
        chapterCompletedCount after c lessons =
        chapterCompletedCount prev c lessons)
  /\ headerCompletedCount after = S (headerCompletedCount prev).
Proof.
  intros Hnew. cbv zeta.
  assert (Hone : get (toggleLesson chapter lesson prev)
                     (lesson_key chapter lesson) = Some true).
  { unfold toggleLesson. cbv zeta. rewrite Hnew. apply get_set_same. }
  assert (Hrows : forall c l,
             isCompleted (toggleLesson chapter lesson
                            (toggleLesson chapter lesson prev)) c l =
             isCompleted prev c l); [|split; [exact Hrows|split]].
  - intros c l. unfold isCompleted.
    unfold toggleLesson at 1. cbv zeta. rewrite Hone. cbn [truthy_bool negb].
    destruct (string_dec (lesson_key c l) (lesson_key chapter lesson))
      as [->|Hne].
    + rewrite get_set_same, Hnew. reflexivity.
    + rewrite get_set_other by exact Hne. unfold toggleLesson. cbv zeta.
      rewrite get_set_other by exact Hne. reflexivity.
  - intros c lessons. unfold chapterCompletedCount. f_equal.
    apply filter_ext. intros l. apply Hrows.
  - rewrite toggleLesson_keys, Hone, toggleLesson_keys, Hnew. reflexivity.
Qed.

Lemma unchecked_lesson_still_counted_witness :
  headerCompletedCount
    (toggleLesson "Basics" "Sets" (toggleLesson "Basics" "Sets" [])) = 1.
Proof.
  exact (proj2 (proj2 (@unchecked_lesson_still_counted "Basics" "Sets" []
                         eq_refl))).
Defined.

End RoadmapViewLocalProofs.
